(** * nft_trade: order book, matching engine, cancellation and settlement

    A shallow embedding of the Go sources
      - [dao/redis.go]      (order book on Redis sorted sets),
      - [dao/mysql.go]      (order and trade tables),
      - [service/match.go]  (MatchEngine),
      - [service/trade_service.go] (PlaceOrder, CancelOrder, ExecuteTrade),
      - [utils/rabbitmq.go] (ConsumeTradeMsg),
      - [utils/idgen.go] (GenerateOrderId),
      - [contract/erc721.go] (SafeTransferFrom),
      - the Redis lock ([RedisLock.Lock] / [RedisLock.Unlock]),
    with the goroutines of the engine and of a cancellation cut at their
    outside calls, followed by the properties of the specification that
    concern them and by further properties of the same functions.

    Conventions.  Go [int64] is [Z] with the wrap-around written out
    ([wrap64]); Go [float64] is Rocq's primitive binary64 [float]; Go
    strings are [string]; the MySQL tables are finite maps from the primary
    key; a Redis sorted set is the list of its (member, score) pairs in
    Redis order.  Calls that leave the process (Redis, MySQL, the chain, the
    id generators) take their outcome from an explicit environment record,
    so every failure path of the source is a path of the model. *)

From Stdlib Require Import ZArith String Ascii List Floats Lia.
From stdpp Require Import gmap strings list fin_maps pretty.

Local Open Scope string_scope.
Local Open Scope Z_scope.
Local Open Scope list_scope.

(** ** Machine numbers *)

(** Two's complement reduction of an integer to [int64]. *)
Definition wrap64 (z : Z) : Z := (z + 2 ^ 63) mod 2 ^ 64 - 2 ^ 63.

(** A value that fits an [int64] field. *)
Definition int64_ok (z : Z) : Prop := - 2 ^ 63 <= z < 2 ^ 63.

(** Go's conversion [float64(x)] of an [int64]: the nearest binary64, ties
    to even. *)
Definition float64_of_int64 (z : Z) : float :=
  SF2Prim (binary_normalize prec emax z 0 false).

(** ** strings.Split(id, "-")[0] and strconv.ParseInt(_, 10, 64) *)

(** The part of [s] before its first ['-'] (all of [s] when it has none). *)
Fixpoint before_dash (s : string) : string :=
  match s with
  | EmptyString => EmptyString
  | String c s' => if Ascii.eqb c "-" then EmptyString else String c (before_dash s')
  end.

(** Value of a string of decimal digits, [None] on any other character. *)
Fixpoint parse_digits (s : string) (acc : Z) : option Z :=
  match s with
  | EmptyString => Some acc
  | String c s' =>
      let n := Z.of_nat (nat_of_ascii c) in
      if (48 <=? n) && (n <=? 57) then parse_digits s' (acc * 10 + (n - 48)) else None
  end.

(** [strconv.ParseInt(s, 10, 64)] with the error dropped, as the caller does
    ([ts, _ := ...]): 0 on a syntax error, the nearest bound on a range
    error. *)
Definition ParseInt (s : string) : Z :=
  let '(neg, body) :=
    match s with
    | String c s' =>
        if Ascii.eqb c "+" then (false, s')
        else if Ascii.eqb c "-" then (true, s')
        else (false, s)
    | EmptyString => (false, s)
    end in
  match body with
  | EmptyString => 0
  | _ =>
      match parse_digits body 0 with
      | None => 0
      | Some n => if neg then Z.max (- n) (- 2 ^ 63) else Z.min n (2 ^ 63 - 1)
      end
  end.

(** ** model: Order and Trade *)

(** [OrderStatus] and [OrderType] are Go string types. *)
Definition OrderStatusPending : string := "pending".
Definition OrderStatusPartially : string := "partially".
Definition OrderStatusCompleted : string := "completed".
Definition OrderStatusCancelled : string := "cancelled".
Definition OrderStatusFailed : string := "failed".

Definition OrderTypeBuy : string := "buy".
Definition OrderTypeSell : string := "sell".

(** [model.Order].  The three time columns carry no behaviour and are left
    out; [Type_] is the field [Type]. *)
Record Order := mkOrder {
  ID : string;
  NFTId : string;
  UserAddr : string;
  Price : Z;
  Quantity : Z;
  RemainingQty : Z;
  Type_ : string;
  Status : string
}.

(** [model.Trade] (without [CreatedAt]). *)
Record Trade := mkTrade {
  TradeID : string;
  BuyOrderId : string;
  SellOrderId : string;
  TradeNFTId : string;
  TradePrice : Z;
  TradeQuantity : Z;
  BuyerAddr : string;
  SellerAddr : string
}.

(** [Order.BeforeCreate]: the hook gorm runs on the very struct handed to
    [db.Create]; it initialises the remaining quantity. *)
Definition BeforeCreate (o : Order) : Order :=
  mkOrder (ID o) (NFTId o) (UserAddr o) (Price o) (Quantity o) (Quantity o)
          (Type_ o) (Status o).

Definition set_status (s : string) (o : Order) : Order :=
  mkOrder (ID o) (NFTId o) (UserAddr o) (Price o) (Quantity o) (RemainingQty o)
          (Type_ o) s.

Definition set_remaining (r : Z) (o : Order) : Order :=
  mkOrder (ID o) (NFTId o) (UserAddr o) (Price o) (Quantity o) r
          (Type_ o) (Status o).

(** ** Redis sorted sets *)

(** One entry of a sorted set: member and score. *)
Abbreviation zentry := (string * float)%type.

(** Redis order: by score, members of equal score by their bytes. *)
Definition zless (a b : zentry) : bool :=
  (a.2 <? b.2)%float || ((a.2 =? b.2)%float && String.ltb a.1 b.1).

Fixpoint zinsert (e : zentry) (l : list zentry) : list zentry :=
  match l with
  | [] => [e]
  | x :: l' => if zless e x then e :: x :: l' else x :: zinsert e l'
  end.

Definition zremove (member : string) (l : list zentry) : list zentry :=
  List.filter (fun x => negb (String.eqb x.1 member)) l.

(** ZADD key score member: a member already present is moved to its new
    score. *)
Definition ZAdd (key : string) (score : float) (member : string)
    (r : gmap string (list zentry)) : gmap string (list zentry) :=
  <[key := zinsert (member, score) (zremove member (default [] (r !! key)))]> r.

(** ZREM key member: removing an absent member changes nothing. *)
Definition ZRem (key member : string)
    (r : gmap string (list zentry)) : gmap string (list zentry) :=
  match r !! key with
  | Some l => <[key := zremove member l]> r
  | None => r
  end.

(** ZRANGEBYSCORE key min max: the members with [min <= score <= max], in
    the order of the set. *)
Definition ZRangeByScore (key : string) (min max : float)
    (r : gmap string (list zentry)) : list string :=
  List.map fst
    (List.filter (fun x => (min <=? x.2)%float && (x.2 <=? max)%float)
                 (default [] (r !! key))).

(** ** The stores *)

(** MySQL tables [nft_orders] (by primary key) and [nft_trades] (in
    insertion order), the Redis order books, and the Redis lock keys with
    the lock id each one holds. *)
Record State := mkState {
  orders : gmap string Order;
  trades : list Trade;
  book : gmap string (list zentry);
  locks : gmap string string
}.

Definition set_orders (m : gmap string Order) (st : State) : State :=
  mkState m (trades st) (book st) (locks st).
Definition set_trades (t : list Trade) (st : State) : State :=
  mkState (orders st) t (book st) (locks st).
Definition set_book (b : gmap string (list zentry)) (st : State) : State :=
  mkState (orders st) (trades st) b (locks st).
Definition set_locks (k : gmap string string) (st : State) : State :=
  mkState (orders st) (trades st) (book st) k.

Definition empty_state : State := mkState ∅ [] ∅ ∅.

(** ** dao/redis.go *)

(** [GetOrderBookKey]: fmt.Sprintf("nft:%s:%s", nftId, orderType). *)
Definition GetOrderBookKey (orderType nftId : string) : string :=
  "nft:" +:+ nftId +:+ ":" +:+ orderType.

(** The score [AddOrderToBook] computes: price plus the id's timestamp over
    1e12, negated for a buy order. *)
Definition order_score (order : Order) : float :=
  let tsStr := before_dash (ID order) in
  let ts := ParseInt tsStr in
  let score := (float64_of_int64 (Price order) + float64_of_int64 ts / 1e12)%float in
  if decide (Type_ order = OrderTypeBuy) then (- score)%float else score.

(** [AddOrderToBook]; [err] is a failing ZADD, which leaves the set as it
    was. *)
Definition AddOrderToBook (err : bool) (order : Order) (st : State) : State * bool :=
  if err then (st, false)
  else (set_book (ZAdd (GetOrderBookKey (Type_ order) (NFTId order))
                       (order_score order) (ID order) (book st)) st, true).

(** [RemoveOrderFromBook]; every caller in the matching engine drops the
    error, so only the store is returned. *)
Definition RemoveOrderFromBook (err : bool) (order : Order) (st : State) : State :=
  if err then st
  else set_book (ZRem (GetOrderBookKey (Type_ order) (NFTId order)) (ID order) (book st)) st.

(** [GetMatchableOrders].  [Max] travels as
    [strconv.FormatFloat(maxScore, 'f', 12, 64)]; [maxScore] is a sum of two
    integral binary64 values, hence integral, and printing an integral value
    with twelve decimals and reading it back is exact, so the bound Redis
    compares with is [maxScore] itself. *)
Definition GetMatchableOrders (err : bool) (buyOrder : Order) (st : State)
    : option (list string) :=
  let sellBookKey := GetOrderBookKey OrderTypeSell (NFTId buyOrder) in
  let maxScore := (float64_of_int64 (Price buyOrder) + 1e12)%float in
  if err then None
  else Some (ZRangeByScore sellBookKey 0%float maxScore (book st)).

(** ** dao/mysql.go *)

(** [CreateOrder]: [db.Create] runs [BeforeCreate] and inserts; a duplicate
    primary key (or [err]) is an error.  The hook's effect is visible to the
    caller, who keeps using the same struct. *)
Definition CreateOrder (err : bool) (order : Order) (st : State) : State * option Order :=
  let order' := BeforeCreate order in
  if err then (st, None)
  else match orders st !! ID order' with
       | Some _ => (st, None)
       | None => (set_orders (<[ID order' := order']> (orders st)) st, Some order')
       end.

(** [UpdateOrder]: [db.Save] of a struct with its primary key set replaces
    the whole row of that key.  When no row has the key the library falls
    back to an insert, which runs [BeforeCreate] on the struct like any
    other creation.  The struct is returned as the call leaves it. *)
Definition UpdateOrder (err : bool) (order : Order) (st : State)
    : State * Order * bool :=
  if err then (st, order, false)
  else match orders st !! ID order with
       | Some _ => (set_orders (<[ID order := order]> (orders st)) st, order, true)
       | None =>
           let order' := BeforeCreate order in
           (set_orders (<[ID order' := order']> (orders st)) st, order', true)
       end.

(** [GetOrderById]. *)
Definition GetOrderById (err : bool) (orderId : string) (st : State) : option Order :=
  if err then None else orders st !! orderId.

(** [CreateTrade]. *)
Definition CreateTrade (err : bool) (trade : Trade) (st : State) : State * bool :=
  if err then (st, false) else (set_trades (trades st ++ [trade]) st, true).

(** [DeleteOrder].  [Order] has a [DeletedAt] column, so gorm marks the row
    as deleted instead of removing it, and every read and update the program
    makes goes through gorm, which leaves marked rows out.  [orders] is the
    table as those queries see it, so the id leaves it.  (The marked row still
    occupies its primary key in MySQL: an insert under the same id later on,
    which [CreateOrder] here would accept, fails there.) *)
Definition DeleteOrder (err : bool) (orderId : string) (st : State) : State * bool :=
  if err then (st, false) else (set_orders (delete orderId (orders st)) st, true).

(** ** utils: the Redis lock *)

(** [RedisLock.Lock]: SET key lockID NX with an expiry.  [err] is a failing
    command; a key that is present is held by someone.  The expiry itself
    (ten seconds of wall clock) is outside the model. *)
Definition Lock (err : bool) (lockID key : string) (held : gmap string string)
    : gmap string string * option string :=
  if err then (held, None)
  else match held !! key with
       | Some _ => (held, None)
       | None => (<[key := lockID]> held, Some lockID)
       end.

(** [RedisLock.Unlock]: the Lua script deletes the key only when it still
    holds [lockID]; the boolean is [true] when the lock was released. *)
Definition Unlock (err : bool) (key lockID : string) (held : gmap string string)
    : gmap string string * bool :=
  if err then (held, false)
  else if decide (held !! key = Some lockID) then (delete key held, true)
  else (held, false).

(** ** service/match.go: MatchEngine *)

(** What one run of the engine does that an observer outside can order in
    time: entering the loop body for a candidate, taking a lock, and a
    deferred [Unlock] running. *)
Inductive Event :=
  | EvIter (sellOrderId : string)
  | EvLock (key lockID : string)
  | EvUnlock (key lockID : string) (released : bool).

(** Outcomes of the outside calls of one loop iteration: which of them fail,
    and the fresh ids ([uuid.NewString], [utils.GenerateOrderId]). *)
Record IterEnv := mkIterEnv {
  getOrderErr : bool;
  lockErr : bool;
  lockID : string;
  tradeId : string;
  createTradeErr : bool;
  updateBuyErr : bool;
  updateSellErr : bool;
  removeErr : bool;
  unlockErr : bool
}.

(** Outcomes for a whole run: the candidate query, each iteration by its
    index, and the final removal of the buy order. *)
Record Env := mkEnv {
  matchableErr : bool;
  iterEnv : nat -> IterEnv;
  finalRemoveErr : bool
}.

(** The variables of [MatchEngine] that live across iterations: the stores,
    the struct [buyOrder] points to (the caller's [newOrder]), the local
    [remainingQty], the stack of deferred [Unlock] calls (latest first, each
    with the outcome of its Redis call) and the events so far. *)
Record Loop := mkLoop {
  l_st : State;
  l_buy : Order;
  l_remaining : Z;
  l_defers : list (string * string * bool);
  l_events : list Event
}.

(** The body of [for _, sellOrderId := range sellOrderIds], after the
    [remainingQty <= 0] test.  Every [continue] returns the loop variables as
    they stand at that point. *)
Definition match_iter (e : IterEnv) (sellOrderId : string) (l : Loop) : Loop :=
  let st := l_st l in
  let buyOrder := l_buy l in
  let remainingQty := l_remaining l in
  let evs := l_events l ++ [EvIter sellOrderId] in
  (* 2. load the sell order *)
  match GetOrderById (getOrderErr e) sellOrderId st with
  | None => mkLoop st buyOrder remainingQty (l_defers l) evs
  | Some sellOrder =>
      (* 3. the pair lock, and the deferred unlock *)
      let lockKey := "lock:order:" +:+ ID buyOrder +:+ ":" +:+ ID sellOrder in
      match Lock (lockErr e) (lockID e) lockKey (locks st) with
      | (_, None) => mkLoop st buyOrder remainingQty (l_defers l) evs
      | (held, Some lockID) =>
          let st := set_locks held st in
          let defers := (lockKey, lockID, unlockErr e) :: l_defers l in
          let evs := evs ++ [EvLock lockKey lockID] in
          (* 4. a sell order that is no longer open leaves the book *)
          if decide (Status sellOrder <> OrderStatusPending
                     /\ Status sellOrder <> OrderStatusPartially)
          then mkLoop (RemoveOrderFromBook (removeErr e) sellOrder st)
                      buyOrder remainingQty defers evs
          else
            (* 5. trade quantity *)
            let tradeQty :=
              if RemainingQty sellOrder <? remainingQty
              then RemainingQty sellOrder else remainingQty in
            (* 6. the trade, at the sell order's price *)
            let trade :=
              mkTrade (tradeId e) (ID buyOrder) (ID sellOrder) (NFTId buyOrder)
                      (Price sellOrder) tradeQty (UserAddr buyOrder)
                      (UserAddr sellOrder) in
            match CreateTrade (createTradeErr e) trade st with
            | (_, false) => mkLoop st buyOrder remainingQty defers evs
            | (st, true) =>
                (* 7.1 the buy order *)
                let buyRem := wrap64 (RemainingQty buyOrder - tradeQty) in
                let buyOrder :=
                  set_status (if buyRem =? 0 then OrderStatusCompleted
                              else OrderStatusPartially)
                             (set_remaining buyRem buyOrder) in
                let '(st, buyOrder, _) := UpdateOrder (updateBuyErr e) buyOrder st in
                (* 7.2 the sell order *)
                let sellRem := wrap64 (RemainingQty sellOrder - tradeQty) in
                let sellOrder :=
                  set_status (if sellRem =? 0 then OrderStatusCompleted
                              else OrderStatusPartially)
                             (set_remaining sellRem sellOrder) in
                let st :=
                  if sellRem =? 0
                  then RemoveOrderFromBook (removeErr e) sellOrder st else st in
                let '(st, sellOrder, _) := UpdateOrder (updateSellErr e) sellOrder st in
                (* 8. transferAsset only prints; 9. remainingQty *)
                mkLoop st buyOrder (RemainingQty buyOrder) defers evs
            end
      end
  end.

(** The loop: [break] as soon as [remainingQty <= 0]. *)
Fixpoint match_loop (env : nat -> IterEnv) (i : nat) (sellOrderIds : list string)
    (l : Loop) : Loop :=
  match sellOrderIds with
  | [] => l
  | sellOrderId :: rest =>
      if l_remaining l <=? 0 then l
      else match_loop env (S i) rest (match_iter (env i) sellOrderId l)
  end.

(** The deferred calls run when the function returns, latest first. *)
Fixpoint run_defers (ds : list (string * string * bool))
    (held : gmap string string) (evs : list Event)
    : gmap string string * list Event :=
  match ds with
  | [] => (held, evs)
  | (key, id, err) :: ds' =>
      let '(held', ok) := Unlock err key id held in
      run_defers ds' held' (evs ++ [EvUnlock key id ok])
  end.

(** [MatchEngine(newOrder)].  The result is the stores, the caller's struct
    as the engine leaves it, and the events of the run.  The lock client the
    function opens first is taken to be connected. *)
Definition MatchEngine (env : Env) (newOrder : Order) (st : State)
    : State * Order * list Event :=
  if decide (Type_ newOrder <> OrderTypeBuy) then (st, newOrder, [])
  else
    match GetMatchableOrders (matchableErr env) newOrder st with
    | None => (st, newOrder, [])
    | Some sellOrderIds =>
        let l := match_loop (iterEnv env) 0 sellOrderIds
                   (mkLoop st newOrder (RemainingQty newOrder) [] []) in
        (* 10. a filled buy order leaves the book *)
        let st1 :=
          if RemainingQty (l_buy l) =? 0
          then RemoveOrderFromBook (finalRemoveErr env) (l_buy l) (l_st l)
          else l_st l in
        let '(held, evs) := run_defers (l_defers l) (locks st1) (l_events l) in
        (set_locks held st1, l_buy l, evs)
    end.

(** ** service: CancelOrder *)

(** [utils.VerifySignature]: the signature must be the first sixteen hex
    digits of the SHA-256 of [data ++ userAddr]; [sha256_hex] is
    [hex.EncodeToString] of [sha256.Sum256]. *)
Definition VerifySignature (sha256_hex : string -> string)
    (userAddr data signature : string) : bool :=
  String.eqb signature (substring 0 16 (sha256_hex (data +:+ userAddr))).

(** Outcomes of the outside calls of [CancelOrder]. *)
Record CancelEnv := mkCancelEnv {
  c_getErr : bool;
  c_lockErr : bool;
  c_lockID : string;
  c_updateErr : bool;
  c_removeErr : bool;
  c_unlockErr : bool
}.

(** [CancelOrder]: the stores afterwards and the error ([None] is [nil]).
    A failed [Lock] is only printed: the function goes on with the empty
    lock id, and its deferred [Unlock] runs on every return after it.
    [unfreezeAsset] has an empty body. *)
Definition CancelOrder (sha256_hex : string -> string) (e : CancelEnv)
    (orderId userAddr signature : string) (st : State) : State * option string :=
  (* 1.1 *)
  let data := orderId +:+ userAddr in
  if negb (VerifySignature sha256_hex userAddr data signature)
  then (st, Some "signature verify failed")
  else
    (* 1.2 *)
    match GetOrderById (c_getErr e) orderId st with
    | None => (st, Some "order not found")
    | Some order =>
        (* 1.3 *)
        if decide (UserAddr order <> userAddr)
        then (st, Some "user not owner of order")
        (* 1.4 *)
        else if decide (Status order = OrderStatusCompleted
                        \/ Status order = OrderStatusCancelled)
        then (st, Some "order status not allow cancel")
        else
          (* 2 *)
          let lockKey := "lock:order:" +:+ orderId in
          let '(held, got) := Lock (c_lockErr e) (c_lockID e) lockKey (locks st) in
          let lockID := default "" got in
          let st := set_locks held st in
          let unlock (st : State) : State :=
            set_locks (Unlock (c_unlockErr e) lockKey lockID (locks st)).1 st in
          (* 4 *)
          let order := set_status OrderStatusCancelled order in
          match UpdateOrder (c_updateErr e) order st with
          | (st, _, false) => (unlock st, Some "update order status failed")
          | (st, order, true) =>
              (* 5 *)
              if c_removeErr e
              then (unlock st, Some "remove order from book failed")
              else (unlock (RemoveOrderFromBook false order st), None)
          end
    end.

(** ** model/trade_model.go: the settlement tables *)

Module NFTOrder.
(** [model.NFTOrder]; [Status]: 0 open, 1 settled, 2 cancelled, 3 expired,
    4 processing, 5 failed.  [Price] is a decimal string in wei. *)
Record t := mk {
  OrderNo : string;
  NFTAssetID : Z;
  TokenID : string;
  ContractAddr : string;
  SellerAddr : string;
  BuyerAddr : string;
  Price : string;
  OrderType : Z;
  Status : Z;
  ChainID : Z
}.
Definition set_Status (s : Z) (o : t) : t :=
  mk (OrderNo o) (NFTAssetID o) (TokenID o) (ContractAddr o) (SellerAddr o)
     (BuyerAddr o) (Price o) (OrderType o) s (ChainID o).
End NFTOrder.

Module NFTAsset.
(** [model.NFTAsset]. *)
Record t := mk {
  ID : Z;
  TokenID : string;
  ContractAddr : string;
  OwnerAddr : string;
  MetadataCID : string;
  ChainID : Z;
  Status : Z
}.
Definition set_OwnerAddr (a : string) (x : t) : t :=
  mk (ID x) (TokenID x) (ContractAddr x) a (MetadataCID x) (ChainID x) (Status x).
End NFTAsset.

Module NFTAssetLock.
(** [model.NFTAssetLock]; [UnlockTime] is NULL while the asset is locked. *)
Record t := mk {
  NFTAssetID : Z;
  OrderNo : string;
  LockType : Z;
  LockTime : Z;
  UnlockTime : option Z
}.
Definition set_UnlockTime (u : option Z) (x : t) : t :=
  mk (NFTAssetID x) (OrderNo x) (LockType x) (LockTime x) u.
End NFTAssetLock.

Module NFTTradeRecord.
(** [model.NFTTradeRecord], the ledger. *)
Record t := mk {
  TradeNo : string;
  OrderNo : string;
  NFTAssetID : Z;
  SellerAddr : string;
  BuyerAddr : string;
  Price : string;
  Fee : string;
  FeeAddr : string;
  TxHash : string;
  ChainID : Z;
  TradeTime : Z
}.
End NFTTradeRecord.

(** The part of [config.Config] that settlement reads. *)
Record Config := mkConfig {
  ChainRPCUrl : gmap Z string;
  PlatformFeeRate : float;
  PlatformFeeAddr : string
}.

(** One call of [SafeTransferFrom] as the chain sees it: the arguments and
    the transaction hash, [None] when the call returned an error. *)
Record ChainCall := mkChainCall {
  cc_from : string;
  cc_to : string;
  cc_tokenId : string;
  cc_result : option string
}.

(** The settlement database and the calls made to the chain so far. *)
Record Ledger := mkLedger {
  nft_orders : gmap string NFTOrder.t;
  nft_assets : gmap Z NFTAsset.t;
  nft_asset_locks : list NFTAssetLock.t;
  nft_trade_records : list NFTTradeRecord.t;
  chain_calls : list ChainCall
}.

(** ** math/big as ExecuteTrade uses it *)

(** A [big.Float] value: [±mant * 2^exp] with [0 <= mant], or an infinity. *)
Inductive BigFloat :=
  | BFin (neg : bool) (mant exp : Z)
  | BInf (neg : bool).

(** Rounding of [m * 2^e] ([0 < m]) to [p] bits of mantissa, to nearest,
    ties to even: the mode of every [big.Float] here. *)
Definition round_prec (p m e : Z) : Z * Z :=
  let bits := Z.log2 m + 1 in
  if bits <=? p then (m, e)
  else
    let sh := bits - p in
    let q := m / 2 ^ sh in
    let r := m mod 2 ^ sh in
    let half := 2 ^ (sh - 1) in
    let q' := if (half <? r) || ((r =? half) && Z.odd q) then q + 1 else q in
    (q', e + sh).

(** [new(big.Float).SetString(s)] on a string of decimal digits: precision
    64.  Any other string gives [None] here; the library fails ([nil]) on the
    malformed ones and also reads signs, fractions, exponents and base
    prefixes, which a wei amount does not have. *)
Definition SetString (s : string) : option BigFloat :=
  match s with
  | EmptyString => None
  | _ =>
      match parse_digits s 0 with
      | None => None
      | Some 0 => Some (BFin false 0 0)
      | Some n => let '(m, e) := round_prec 64 n 0 in Some (BFin false m e)
      end
  end.

(** [big.NewFloat(x)]: exact, precision 53; panics ([None]) on a NaN. *)
Definition NewFloat (x : float) : option BigFloat :=
  match Prim2SF x with
  | S754_zero s => Some (BFin s 0 0)
  | S754_finite s m e => Some (BFin s (Z.pos m) e)
  | S754_infinity s => Some (BInf s)
  | S754_nan => None
  end.

(** [new(big.Float).Mul(x, y)] for [x] of precision 64 and [y] of precision
    53: the product rounded to 64 bits; panics ([None]) on zero times
    infinity. *)
Definition Mul (x y : BigFloat) : option BigFloat :=
  match x, y with
  | BFin s1 m1 e1, BFin s2 m2 e2 =>
      if (m1 =? 0) || (m2 =? 0) then Some (BFin (xorb s1 s2) 0 0)
      else let '(m, e) := round_prec 64 (m1 * m2) (e1 + e2) in
           Some (BFin (xorb s1 s2) m e)
  | BFin s1 m1 _, BInf s2 => if m1 =? 0 then None else Some (BInf (xorb s1 s2))
  | BInf s1, BFin s2 m2 _ => if m2 =? 0 then None else Some (BInf (xorb s1 s2))
  | BInf s1, BInf s2 => Some (BInf (xorb s1 s2))
  end.

(** The integer that [Text('f', 0)] prints for [m * 2^e]: the exact decimal
    expansion rounded at the units digit, a tie going to the even
    neighbour. *)
Definition round_units (m e : Z) : Z :=
  if 0 <=? e then m * 2 ^ e
  else
    let d := 2 ^ (- e) in
    let q := m / d in
    let r := m mod d in
    if (d <? 2 * r) || ((2 * r =? d) && Z.odd q) then q + 1 else q.

(** [x.Text('f', 0)]. *)
Definition Text_f0 (x : BigFloat) : string :=
  match x with
  | BFin neg m e => (if neg then "-" else "") +:+ pretty (round_units m e)
  | BInf neg => if neg then "-Inf" else "+Inf"
  end.

(** Step 6 of [ExecuteTrade]: the fee string, [None] when the computation
    panics (a price that does not parse makes [priceBig] nil). *)
Definition platform_fee (feeRate : float) (price : string) : option string :=
  match SetString price, NewFloat feeRate with
  | Some priceBig, Some rateBig =>
      match Mul priceBig rateBig with
      | Some feeBig => Some (Text_f0 feeBig)
      | None => None
      end
  | _, _ => None
  end.

(** ** service/trade_service.go: ExecuteTrade *)

(** Outcomes of the outside calls of one [ExecuteTrade]: database errors,
    the chain ([x_transfer] is the hash [SafeTransferFrom] returns, [None]
    its error), the fresh trade number and the clock. *)
Record ExecEnv := mkExecEnv {
  x_orderErr : bool;
  x_assetErr : bool;
  x_dialErr : bool;
  x_transfer : option string;
  x_failedUpdateErr : bool;
  x_txOrderErr : bool;
  x_txLockErr : bool;
  x_txAssetErr : bool;
  x_txCreateErr : bool;
  x_commitErr : bool;
  x_tradeNo : string;
  x_now : Z
}.

(** What a handler call comes to: [nil], an error, or a panic. *)
Inductive HandlerResult :=
  | HOk
  | HErr (msg : string)
  | HPanic.

Definition set_nft_orders (m : gmap string NFTOrder.t) (w : Ledger) : Ledger :=
  mkLedger m (nft_assets w) (nft_asset_locks w) (nft_trade_records w) (chain_calls w).

Definition add_chain_call (c : ChainCall) (w : Ledger) : Ledger :=
  mkLedger (nft_orders w) (nft_assets w) (nft_asset_locks w) (nft_trade_records w)
           (chain_calls w ++ [c]).

(** [ExecuteTrade(ctx, orderNo)].  The order is looked up by its number
    alone; steps 7 run in one transaction, so an error there (or a failed
    commit, which the source does not look at) leaves the tables as they were
    before it. *)
Definition ExecuteTrade (cfg : Config) (e : ExecEnv) (orderNo : string) (w : Ledger)
    : Ledger * HandlerResult :=
  (* 1 *)
  match (if x_orderErr e then None else nft_orders w !! orderNo) with
  | None => (w, HErr "record not found")
  | Some order =>
      (* 2 *)
      match (if x_assetErr e then None else nft_assets w !! NFTOrder.NFTAssetID order) with
      | None => (w, HErr "record not found")
      | Some asset =>
          (* 3 *)
          match ChainRPCUrl cfg !! NFTOrder.ChainID order with
          | None => (w, HErr "chain config missing")
          | Some rpcUrl =>
              (* 4 *)
              if x_dialErr e then (w, HErr "dial failed")
              else
                (* 5 *)
                let w :=
                  add_chain_call
                    (mkChainCall (NFTOrder.SellerAddr order) (NFTOrder.BuyerAddr order)
                                 (NFTOrder.TokenID order) (x_transfer e)) w in
                match x_transfer e with
                | None =>
                    let w :=
                      if x_failedUpdateErr e then w
                      else set_nft_orders
                             (<[orderNo := NFTOrder.set_Status 5 order]> (nft_orders w)) w in
                    (w, HErr "transfer failed")
                | Some txHash =>
                    (* 6 *)
                    match platform_fee (PlatformFeeRate cfg) (NFTOrder.Price order) with
                    | None => (w, HPanic)
                    | Some fee =>
                        let feeAddr := PlatformFeeAddr cfg in
                        (* 7 *)
                        if x_txOrderErr e then (w, HErr "update order failed")
                        else if x_txLockErr e then (w, HErr "unlock asset failed")
                        else if x_txAssetErr e then (w, HErr "update asset failed")
                        else
                          let tradeRecord :=
                            NFTTradeRecord.mk (x_tradeNo e) orderNo
                              (NFTOrder.NFTAssetID order) (NFTOrder.SellerAddr order)
                              (NFTOrder.BuyerAddr order) (NFTOrder.Price order) fee feeAddr
                              txHash (NFTOrder.ChainID order) (x_now e) in
                          if x_txCreateErr e
                             || existsb (fun r => String.eqb (NFTTradeRecord.TradeNo r) (x_tradeNo e))
                                        (nft_trade_records w)
                          then (w, HErr "create trade record failed")
                          else if x_commitErr e then (w, HOk)
                          else
                            (mkLedger
                               (<[orderNo := NFTOrder.set_Status 1 order]> (nft_orders w))
                               (<[NFTAsset.ID asset :=
                                    NFTAsset.set_OwnerAddr (NFTOrder.BuyerAddr order) asset]>
                                  (nft_assets w))
                               (List.map
                                  (fun k => if String.eqb (NFTAssetLock.OrderNo k) orderNo
                                            then NFTAssetLock.set_UnlockTime (Some (x_now e)) k
                                            else k)
                                  (nft_asset_locks w))
                               (nft_trade_records w ++ [tradeRecord])
                               (chain_calls w),
                             HOk)
                    end
                end
          end
      end
  end.

(** ** utils/rabbitmq.go: ConsumeTradeMsg *)

(** What the consumer tells the broker about a delivery. *)
Inductive AckAction :=
  | Ack (multiple : bool)
  | Nack (multiple requeue : bool).

(** The body of [for d := range msgs].  [json_Unmarshal] decodes a body into
    a [map[string]string] ([None] is a decoding error); a handler that
    panics takes the goroutine down before any acknowledgement. *)
Definition consume_delivery {W : Type}
    (json_Unmarshal : string -> option (gmap string string))
    (handler : string -> W -> W * HandlerResult)
    (body : string) (w : W) : W * option AckAction :=
  match json_Unmarshal body with
  | None => (w, Some (Nack false false))
  | Some msg =>
      match msg !! "order_no" with
      | None => (w, Some (Nack false false))
      | Some orderNo =>
          match handler orderNo w with
          | (w', HErr _) => (w', Some (Nack false true))
          | (w', HOk) => (w', Some (Ack false))
          | (w', HPanic) => (w', None)
          end
      end
  end.

(** The consuming goroutine over the deliveries it receives: the state and
    the answers given, in order. *)
Fixpoint ConsumeTradeMsg {W : Type}
    (json_Unmarshal : string -> option (gmap string string))
    (handler : string -> W -> W * HandlerResult)
    (msgs : list string) (w : W) : W * list AckAction :=
  match msgs with
  | [] => (w, [])
  | body :: rest =>
      match consume_delivery json_Unmarshal handler body w with
      | (w', Some a) =>
          let '(w'', acts) := ConsumeTradeMsg json_Unmarshal handler rest w' in
          (w'', a :: acts)
      | (w', None) => (w', [])
      end
  end.

(** ** The publisher's wire format *)

(** The double quote character. *)
Definition dquote : string := String (ascii_of_nat 34) EmptyString.

(** [PublishTradeMsg]'s body: [json.Marshal] of the one-entry map, for an
    order number without characters that JSON escapes. *)
Definition PublishBody (orderNo : string) : string :=
  "{" +:+ dquote +:+ "order_no" +:+ dquote +:+ ":" +:+ dquote +:+ orderNo +:+ dquote +:+ "}".

(** [s] without the prefix [p], when it has it. *)
Fixpoint strip_prefix (p s : string) : option string :=
  match p, s with
  | EmptyString, _ => Some s
  | String a p', String b s' => if Ascii.eqb a b then strip_prefix p' s' else None
  | String _ _, EmptyString => None
  end.

(** Splits [s] at its first double quote. *)
Fixpoint until_quote (s : string) : option (string * string) :=
  match s with
  | EmptyString => None
  | String c s' =>
      if Ascii.eqb c (ascii_of_nat 34) then Some (EmptyString, s')
      else match until_quote s' with
           | Some (a, b) => Some (String c a, b)
           | None => None
           end
  end.

(** A decoder for the bodies [PublishBody] produces and nothing else; it
    stands in for [json.Unmarshal] in the concrete runs below, the general
    statements hold for every decoder. *)
Definition wire_Unmarshal (body : string) : option (gmap string string) :=
  match strip_prefix ("{" +:+ dquote +:+ "order_no" +:+ dquote +:+ ":" +:+ dquote) body with
  | None => None
  | Some rest =>
      match until_quote rest with
      | Some (orderNo, tail) =>
          if String.eqb tail "}" then Some {[ "order_no" := orderNo ]} else None
      | None => None
      end
  end.

(** ** Environments and stores of the concrete runs *)

(** Every outside call succeeds; the fresh ids are numbered by iteration. *)
Definition ok_iter (i : nat) : IterEnv :=
  mkIterEnv false false ("lock-" +:+ pretty i) ("trade-" +:+ pretty i)
            false false false false false.

Definition ok_env : Env := mkEnv false ok_iter false.

(** Steps 4 and 5 of [PlaceOrder] with the outside calls succeeding: the
    order is created (which runs [BeforeCreate]) and put in its book.  The
    order returned is the struct [PlaceOrder] then hands to [MatchEngine]. *)
Definition rest_order (o : Order) (st : State) : State * Order :=
  match CreateOrder false o st with
  | (st', Some o') => ((AddOrderToBook false o' st').1, o')
  | (st', None) => (st', o)
  end.

(** A request to place [quantity] of [nft1] at [price], as [PlaceOrder]
    builds the order from it. *)
Definition new_order (id user : string) (price quantity : Z) (type : string) : Order :=
  mkOrder id "nft1" user price quantity 0 type OrderStatusPending.

(** The members of the book an order belongs to. *)
Definition book_members (type nftId : string) (st : State) : list string :=
  List.map fst (default [] (book st !! GetOrderBookKey type nftId)).

(** Stores and orders of the runs the statements below evaluate. *)

(** A sell order at 200 rests in the book; a buy order at 100 arrives. *)
Definition dear_sell : Order :=
  new_order "1700000000000-aaaaaaaa" "0xSeller" 200 1 OrderTypeSell.
Definition cheap_buy : Order :=
  new_order "1700000000001-bbbbbbbb" "0xBuyer" 100 1 OrderTypeBuy.
Definition dear_book : State * Order :=
  rest_order cheap_buy (rest_order dear_sell empty_state).1.

(** Two sell orders rest in the book; a buy order that crosses both
    arrives. *)
Definition two_sells : State * Order :=
  rest_order (new_order "1700000000002-cccccccc" "0xBuyer" 100 5 OrderTypeBuy)
    (rest_order (new_order "1700000000001-bbbbbbbb" "0xS2" 95 1 OrderTypeSell)
       (rest_order (new_order "1700000000000-aaaaaaaa" "0xS1" 90 1 OrderTypeSell)
          empty_state).1).1.

(** A buy order at 100 rests in the book; a sell order at 90 arrives. *)
Definition resting_buy : Order :=
  new_order "1700000000000-aaaaaaaa" "0xBuyer" 100 5 OrderTypeBuy.
Definition incoming_sell : Order :=
  new_order "1700000000001-bbbbbbbb" "0xSeller" 90 5 OrderTypeSell.
Definition sell_arrives : State * Order :=
  rest_order incoming_sell (rest_order resting_buy empty_state).1.

(** A sell order of 4 at 50 rests alone in the book; a buy order of 10
    arrives. *)
Definition sell_of_4 : Order :=
  new_order "1700000000000-aaaaaaaa" "0xSeller" 50 4 OrderTypeSell.
Definition buy_of_10 : Order :=
  new_order "1700000000001-bbbbbbbb" "0xBuyer" 50 10 OrderTypeBuy.
Definition partial_fill : State * Order :=
  rest_order buy_of_10 (rest_order sell_of_4 empty_state).1.

(** The sell orders of the price-time example: (100, t=1), (90, t=2) and
    (90, t=0) with the given quantities, the time of an order being the
    clock reading [t0 + t] its id starts with.  They are placed one after the
    other in some order, and then a buy order of 5 at 100 arrives. *)
Definition priority_sells (t0 q100 q90late q90early : Z) : list Order :=
  [ new_order (pretty (t0 + 1) +:+ "-aaaaaaaa") "0xA" 100 q100 OrderTypeSell;
    new_order (pretty (t0 + 2) +:+ "-bbbbbbbb") "0xB" 90 q90late OrderTypeSell;
    new_order (pretty t0 +:+ "-cccccccc") "0xC" 90 q90early OrderTypeSell ].

Definition place_all (os : list Order) (st : State) : State :=
  foldl (fun st o => (rest_order o st).1) st os.

Definition priority_buy (t0 : Z) (placing : list Order) : State * Order :=
  rest_order (new_order (pretty (t0 + 3) +:+ "-dddddddd") "0xD" 100 5 OrderTypeBuy)
    (place_all placing empty_state).

(** A sell order placed with quantity -3, then a buy order of 5. *)
Definition negative_sell : Order :=
  new_order "1700000000000-aaaaaaaa" "0xSeller" 50 (-3) OrderTypeSell.
Definition buy_of_5 : Order :=
  new_order "1700000000001-bbbbbbbb" "0xBuyer" 50 5 OrderTypeBuy.
Definition negative_book : State * Order :=
  rest_order buy_of_5 (rest_order negative_sell empty_state).1.

(** An order in status failed, alone in the order table, and a cancel
    request whose outside calls succeed. *)
Definition failed_order : Order :=
  mkOrder "1700000000000-aaaaaaaa" "nft1" "0xSeller" 50 1 1 OrderTypeSell
          OrderStatusFailed.
Definition failed_store : State :=
  mkState {[ ID failed_order := failed_order ]} [] ∅ ∅.
Definition ok_cancel : CancelEnv := mkCancelEnv false false "lock-c" false false false.

(** The settlement runs: the default fee rate (the binary64 nearest to
    0.02, which is what [strconv.ParseFloat] makes of the default "0.02"),
    one order of price 99 being processed, its asset and its lock. *)
Definition rate_2_percent : float := 0x1.47ae147ae147bp-6%float.
Definition demo_cfg : Config :=
  mkConfig {[ 11155111 := "https://rpc.sepolia.org" ]} rate_2_percent "0xFee".
Definition demo_order : NFTOrder.t :=
  NFTOrder.mk "order-1" 7 "42" "0xContract" "0xSeller" "0xBuyer" "99" 0 4 11155111.
Definition demo_asset : NFTAsset.t :=
  NFTAsset.mk 7 "42" "0xContract" "0xSeller" "cid" 11155111 0.
Definition demo_ledger : Ledger :=
  mkLedger {[ "order-1" := demo_order ]} {[ 7 := demo_asset ]}
           [NFTAssetLock.mk 7 "order-1" 0 1000 None] [] [].

(** The [n]-th delivery: no database error, the chain answers [tx]. *)
Definition delivery (n : Z) (tx : option string) : ExecEnv :=
  mkExecEnv false false false tx false false false false false false
            ("trade-" +:+ pretty n) (2000 + n).

(** [F] is an integer nearest to [m * 2^e]. *)
Definition nearest_integer (F m e : Z) : Prop :=
  if 0 <=? e then F = m * 2 ^ e else 2 * Z.abs (F * 2 ^ (- e) - m) <= 2 ^ (- e).

(** ** Predicates the statements are phrased with *)

(** Every outside call of an iteration, or of a whole run, succeeds. *)
Definition iter_ok (e : IterEnv) : Prop :=
  getOrderErr e = false /\ lockErr e = false /\ createTradeErr e = false
  /\ updateBuyErr e = false /\ updateSellErr e = false /\ removeErr e = false.

Definition env_ok (env : Env) : Prop :=
  matchableErr env = false /\ (forall i, iter_ok (iterEnv env i))
  /\ finalRemoveErr env = false.

(** An order after a trade of [q]: steps 7.1 and 7.2 do the same to the buy
    and to the sell order. *)
Definition fill (q : Z) (o : Order) : Order :=
  let r := wrap64 (RemainingQty o - q) in
  set_status (if r =? 0 then OrderStatusCompleted else OrderStatusPartially)
             (set_remaining r o).

(** The order table after [UpdateOrder] of a stored order; the call may
    fail. *)
Definition saved (err : bool) (o : Order) (m : gmap string Order) : gmap string Order :=
  if err then m else <[ID o := o]> m.

(** The quantity invariant of one order, and of a table whose rows sit
    under their own id. *)
Definition qty_ok (o : Order) : Prop :=
  0 <= RemainingQty o <= Quantity o /\ Quantity o < 2 ^ 63.

Definition store_ok (m : gmap string Order) : Prop :=
  forall id o, m !! id = Some o -> ID o = id /\ qty_ok o.

(** From [m] to [m'] no order is lost, changes its original quantity, or
    gains remaining quantity. *)
Definition no_growth (m m' : gmap string Order) : Prop :=
  forall id o, m !! id = Some o ->
    exists o', m' !! id = Some o' /\ Quantity o' = Quantity o
               /\ RemainingQty o' <= RemainingQty o.

(** The struct the engine works on has a stored row and is not ahead of it:
    same original quantity, and no more remaining than the row says. *)
Definition tracks (o : Order) (m : gmap string Order) : Prop :=
  exists row, m !! ID o = Some row
    /\ Quantity row = Quantity o /\ RemainingQty o <= RemainingQty row.

(** What holds of the loop variables between iterations. *)
Definition loop_ok (l : Loop) : Prop :=
  store_ok (orders (l_st l)) /\ qty_ok (l_buy l)
  /\ l_remaining l = RemainingQty (l_buy l)
  /\ tracks (l_buy l) (orders (l_st l)).

(** ** Goroutines: the outside calls of a run, one at a time

    [PlaceOrder] starts every run of the engine with [go], and nothing keeps
    two calls of [CancelOrder], or a cancellation and a run, from being under
    way together: the pair lock of the engine has the two order ids in its
    key, so runs for different buy orders never wait for each other.  Below,
    a run is cut at its calls to MySQL and Redis.  A goroutine is a program
    counter with the local variables that are live there; a step makes the
    next outside call on the shared stores, with the local computation up to
    the call after it.  [MatchEngine] and [CancelOrder] above are these
    machines run from start to end with no other goroutine in between. *)

(** Where a run of [MatchEngine] stands: before the candidate query, at the
    head of the loop with the candidates left, before [Lock] with the sell
    order just loaded, before the status check and [CreateTrade], before the
    two [UpdateOrder] calls (and the [RemoveOrderFromBook] of a sell order
    that is used up), after the loop, and in the deferred unlocks. *)
Inductive EnginePc :=
  | EStart
  | ELoop (sellOrderIds : list string)
  | ELock (sellOrder : Order) (rest : list string)
  | EBody (sellOrder : Order) (rest : list string)
  | EUpdateBuy (sellOrder : Order) (tradeQty : Z) (rest : list string)
  | ERemoveSell (sellOrder : Order) (rest : list string)
  | EUpdateSell (sellOrder : Order) (rest : list string)
  | EFinal
  | EDefers (ds : list (string * string * bool))
  | EDone.

(** A goroutine running [MatchEngine]: the outcomes of its outside calls,
    the index of the iteration, the struct [buyOrder] points to, the local
    [remainingQty], the deferred unlocks and the program counter. *)
Record Engine := mkEngine {
  g_env : Env;
  g_i : nat;
  g_buy : Order;
  g_remaining : Z;
  g_defers : list (string * string * bool);
  g_pc : EnginePc
}.

(** [go MatchEngine(newOrder)]. *)
Definition engine_start (env : Env) (newOrder : Order) : Engine :=
  mkEngine env 0 newOrder 0 [] EStart.

(** The next outside call of a run of [MatchEngine]. *)
Definition engine_step (g : Engine) (st : State) : Engine * State :=
  let env := g_env g in
  let e := iterEnv env (g_i g) in
  let buyOrder := g_buy g in
  let goto pc := mkEngine env (g_i g) buyOrder (g_remaining g) (g_defers g) pc in
  let continue rest :=
    mkEngine env (S (g_i g)) buyOrder (g_remaining g) (g_defers g) (ELoop rest) in
  match g_pc g with
  | EStart =>
      if decide (Type_ buyOrder <> OrderTypeBuy) then (goto EDone, st)
      else
        (* 1 *)
        match GetMatchableOrders (matchableErr env) buyOrder st with
        | None => (goto EDone, st)
        | Some sellOrderIds =>
            (mkEngine env 0 buyOrder (RemainingQty buyOrder) [] (ELoop sellOrderIds), st)
        end
  | ELoop [] => (goto EFinal, st)
  | ELoop (sellOrderId :: rest) =>
      if g_remaining g <=? 0 then (goto EFinal, st)
      else
        (* 2 *)
        match GetOrderById (getOrderErr e) sellOrderId st with
        | None => (continue rest, st)
        | Some sellOrder => (goto (ELock sellOrder rest), st)
        end
  | ELock sellOrder rest =>
      (* 3 *)
      let lockKey := "lock:order:" +:+ ID buyOrder +:+ ":" +:+ ID sellOrder in
      match Lock (lockErr e) (lockID e) lockKey (locks st) with
      | (_, None) => (continue rest, st)
      | (held, Some lockID) =>
          (mkEngine env (g_i g) buyOrder (g_remaining g)
                    ((lockKey, lockID, unlockErr e) :: g_defers g)
                    (EBody sellOrder rest),
           set_locks held st)
      end
  | EBody sellOrder rest =>
      (* 4 *)
      if decide (Status sellOrder <> OrderStatusPending
                 /\ Status sellOrder <> OrderStatusPartially)
      then (continue rest, RemoveOrderFromBook (removeErr e) sellOrder st)
      else
        (* 5 *)
        let tradeQty :=
          if RemainingQty sellOrder <? g_remaining g
          then RemainingQty sellOrder else g_remaining g in
        (* 6 *)
        let trade :=
          mkTrade (tradeId e) (ID buyOrder) (ID sellOrder) (NFTId buyOrder)
                  (Price sellOrder) tradeQty (UserAddr buyOrder)
                  (UserAddr sellOrder) in
        match CreateTrade (createTradeErr e) trade st with
        | (_, false) => (continue rest, st)
        | (st, true) => (goto (EUpdateBuy sellOrder tradeQty rest), st)
        end
  | EUpdateBuy sellOrder tradeQty rest =>
      (* 7.1 *)
      let buyRem := wrap64 (RemainingQty buyOrder - tradeQty) in
      let buyOrder :=
        set_status (if buyRem =? 0 then OrderStatusCompleted else OrderStatusPartially)
                   (set_remaining buyRem buyOrder) in
      let '(st, buyOrder, _) := UpdateOrder (updateBuyErr e) buyOrder st in
      (* 7.2, up to its outside calls *)
      let sellRem := wrap64 (RemainingQty sellOrder - tradeQty) in
      let sellOrder :=
        set_status (if sellRem =? 0 then OrderStatusCompleted else OrderStatusPartially)
                   (set_remaining sellRem sellOrder) in
      (mkEngine env (g_i g) buyOrder (g_remaining g) (g_defers g)
                (if sellRem =? 0 then ERemoveSell sellOrder rest
                 else EUpdateSell sellOrder rest),
       st)
  | ERemoveSell sellOrder rest =>
      (goto (EUpdateSell sellOrder rest), RemoveOrderFromBook (removeErr e) sellOrder st)
  | EUpdateSell sellOrder rest =>
      let '(st, _, _) := UpdateOrder (updateSellErr e) sellOrder st in
      (* 9 *)
      (mkEngine env (S (g_i g)) buyOrder (RemainingQty buyOrder) (g_defers g) (ELoop rest),
       st)
  | EFinal =>
      (* 10 *)
      (goto (EDefers (g_defers g)),
       if RemainingQty buyOrder =? 0
       then RemoveOrderFromBook (finalRemoveErr env) buyOrder st else st)
  | EDefers [] => (goto EDone, st)
  | EDefers ((key, id, err) :: ds) =>
      (goto (EDefers ds), set_locks (Unlock err key id (locks st)).1 st)
  | EDone => (g, st)
  end.

(** Where a call of [CancelOrder] stands; at the end, what it returns. *)
Inductive CancelPc :=
  | CStart
  | CLock (order : Order)
  | CUpdate (order : Order) (lockID : string)
  | CRemove (order : Order) (lockID : string)
  | CUnlock (lockID : string) (err : option string)
  | CDone (err : option string).

(** A goroutine running [CancelOrder]. *)
Record Cancel := mkCancel {
  k_sha256_hex : string -> string;
  k_env : CancelEnv;
  k_orderId : string;
  k_userAddr : string;
  k_signature : string;
  k_pc : CancelPc
}.

(** The next outside call of a call of [CancelOrder]. *)
Definition cancel_step (k : Cancel) (st : State) : Cancel * State :=
  let e := k_env k in
  let orderId := k_orderId k in
  let userAddr := k_userAddr k in
  let goto pc :=
    mkCancel (k_sha256_hex k) e orderId userAddr (k_signature k) pc in
  let lockKey := "lock:order:" +:+ orderId in
  match k_pc k with
  | CStart =>
      (* 1.1 *)
      let data := orderId +:+ userAddr in
      if negb (VerifySignature (k_sha256_hex k) userAddr data (k_signature k))
      then (goto (CDone (Some "signature verify failed")), st)
      else
        (* 1.2 *)
        match GetOrderById (c_getErr e) orderId st with
        | None => (goto (CDone (Some "order not found")), st)
        | Some order =>
            (* 1.3 *)
            if decide (UserAddr order <> userAddr)
            then (goto (CDone (Some "user not owner of order")), st)
            (* 1.4 *)
            else if decide (Status order = OrderStatusCompleted
                            \/ Status order = OrderStatusCancelled)
            then (goto (CDone (Some "order status not allow cancel")), st)
            else (goto (CLock order), st)
        end
  | CLock order =>
      (* 2 *)
      let '(held, got) := Lock (c_lockErr e) (c_lockID e) lockKey (locks st) in
      (goto (CUpdate order (default "" got)), set_locks held st)
  | CUpdate order lockID =>
      (* 4 *)
      let order := set_status OrderStatusCancelled order in
      match UpdateOrder (c_updateErr e) order st with
      | (st, _, false) => (goto (CUnlock lockID (Some "update order status failed")), st)
      | (st, order, true) => (goto (CRemove order lockID), st)
      end
  | CRemove order lockID =>
      (* 5 *)
      if c_removeErr e
      then (goto (CUnlock lockID (Some "remove order from book failed")), st)
      else (goto (CUnlock lockID None), RemoveOrderFromBook false order st)
  | CUnlock lockID err =>
      (goto (CDone err),
       set_locks (Unlock (c_unlockErr e) lockKey lockID (locks st)).1 st)
  | CDone _ => (k, st)
  end.









(** A goroutine run on its own for [n] steps. *)
Fixpoint engine_run (n : nat) (g : Engine) (st : State) : Engine * State :=
  match n with
  | O => (g, st)
  | S n' => let '(g', st') := engine_step g st in engine_run n' g' st'
  end.

Fixpoint cancel_run (n : nat) (k : Cancel) (st : State) : Cancel * State :=
  match n with
  | O => (k, st)
  | S n' => let '(k', st') := cancel_step k st in cancel_run n' k' st'
  end.










(** ** dao/redis.go: GetOrderScore; utils/idgen.go *)

(** ZSCORE key member: the member's score, [None] when the set does not
    hold it ([redis.Nil]). *)
Definition ZScore (key member : string) (r : gmap string (list zentry)) : option float :=
  snd <$> List.find (fun x => String.eqb x.1 member) (default [] (r !! key)).

(** [GetOrderScore]. *)
Definition GetOrderScore (err : bool) (order : Order) (st : State) : option float :=
  if err then None
  else ZScore (GetOrderBookKey (Type_ order) (NFTId order)) (ID order) (book st).

(** [GenerateOrderId]: fmt.Sprintf("%d-%s", ts, uuidStr[len(uuidStr)-8:]) for
    the clock's milliseconds [ts] and the text of a fresh UUID. *)
Definition GenerateOrderId (ts : Z) (uuidStr : string) : string :=
  pretty ts +:+ "-" +:+ substring (String.length uuidStr - 8) 8 uuidStr.

(** ** Bookkeeping for the properties of a run *)

(** The lock table [held] is [held0] with the keys of the deferred unlocks
    [ds] on top (latest first): each key was free when it was taken and holds
    the lock id its unlock will present. *)
Inductive held_stack (held0 : gmap string string)
    : list (string * string * bool) -> gmap string string -> Prop :=
  | held_nil : held_stack held0 [] held0
  | held_cons key id err ds held :
      held_stack held0 ds held -> held !! key = None ->
      held_stack held0 ((key, id, err) :: ds) (<[key := id]> held).

(** The total quantity of a list of trades. *)
Definition traded (ts : list Trade) : Z :=
  foldr (fun t acc => TradeQuantity t + acc) 0 ts.

(** A trade made for the buy order [buy]. *)
Definition trade_of (buy : Order) (t : Trade) : Prop :=
  BuyOrderId t = ID buy /\ TradeNFTId t = NFTId buy /\ BuyerAddr t = UserAddr buy.

(** Two structs of the same order: nothing but quantity left and status may
    differ. *)
Definition same_order (a b : Order) : Prop :=
  ID a = ID b /\ NFTId a = NFTId b /\ UserAddr a = UserAddr b /\ Type_ a = Type_ b
  /\ Price a = Price b.

(** Every row of the order table sits under its own id. *)
Definition keyed (m : gmap string Order) : Prop :=
  forall id o, m !! id = Some o -> ID o = id.

(** ** service: PlaceOrder *)

(** [strconv.FormatInt(i, 10)]. *)
Definition FormatInt (i : Z) : string := pretty i.

(** Outcomes of the outside calls of [PlaceOrder]: the lock, the clock and
    the UUID that [GenerateOrderId] reads, and the database and book calls. *)
Record PlaceEnv := mkPlaceEnv {
  p_lockErr : bool;
  p_lockID : string;
  p_now : Z;
  p_uuid : string;
  p_createErr : bool;
  p_addErr : bool;
  p_deleteErr : bool;
  p_unlockErr : bool
}.

(** What [PlaceOrder] returns: the order id, with the struct it hands to
    [go MatchEngine(order)], or an error. *)
Inductive PlaceResult :=
  | Placed (orderId : string) (order : Order)
  | PlaceErr (msg : string).

(** [PlaceOrder].  [checkUserNFTAvailable] and [checkUserFundAvailable]
    return [true] and the freeze functions have empty bodies.  A failed
    [Lock] is only printed: the function goes on with the empty lock id, and
    the deferred [Unlock] runs on every return after it.  The engine is
    started as a goroutine of its own; its run is [MatchEngine] on the struct
    returned here. *)
Definition PlaceOrder (sha256_hex : string -> string) (e : PlaceEnv)
    (nftId userAddr : string) (price quantity : Z) (orderType signature : string)
    (st : State) : State * PlaceResult :=
  (* 1.1 *)
  let data := nftId +:+ userAddr +:+ FormatInt price +:+ FormatInt quantity
              +:+ orderType in
  if negb (VerifySignature sha256_hex userAddr data signature)
  then (st, PlaceErr "signature verify failed")
  else
    (* 2 *)
    let lockKey := "lock:nft:" +:+ nftId +:+ ":user:" +:+ userAddr in
    let '(held, got) := Lock (p_lockErr e) (p_lockID e) lockKey (locks st) in
    let lockID := default "" got in
    let st := set_locks held st in
    let unlock (st : State) : State :=
      set_locks (Unlock (p_unlockErr e) lockKey lockID (locks st)).1 st in
    (* 4 *)
    let orderId := GenerateOrderId (p_now e) (p_uuid e) in
    let order := mkOrder orderId nftId userAddr price quantity 0 orderType
                         OrderStatusPending in
    match CreateOrder (p_createErr e) order st with
    | (st, None) => (unlock st, PlaceErr "create order failed")
    | (st, Some order) =>
        (* 5 *)
        match AddOrderToBook (p_addErr e) order st with
        | (st, false) =>
            (unlock (DeleteOrder (p_deleteErr e) orderId st).1,
             PlaceErr "add order to book failed")
        | (st, true) => (unlock st, Placed orderId order)
        end
    end.

(** Two stores with the same tables and books; the lock tables may
    differ. *)
Definition same_data (st st' : State) : Prop :=
  orders st = orders st' /\ trades st = trades st' /\ book st = book st'.

(** The outcomes [e] with other outcomes for the lock and unlock calls. *)
Definition cancel_env_but_lock (e : CancelEnv) (lockErr : bool) (lockID : string)
    (unlockErr : bool) : CancelEnv :=
  mkCancelEnv (c_getErr e) lockErr lockID (c_updateErr e) (c_removeErr e) unlockErr.

Definition place_env_but_lock (e : PlaceEnv) (lockErr : bool) (lockID : string)
    (unlockErr : bool) : PlaceEnv :=
  mkPlaceEnv lockErr lockID (p_now e) (p_uuid e) (p_createErr e) (p_addErr e)
             (p_deleteErr e) unlockErr.

(** ** contract/erc721.go: SafeTransferFrom *)

(** Outcomes of the outside calls of [SafeTransferFrom]: the key parser,
    the signer, and the node (sending the transaction, waiting for it, the
    status of its receipt, its hash). *)
Record TransferEnv := mkTransferEnv {
  t_keyErr : bool;
  t_authErr : bool;
  t_transactErr : bool;
  t_minedErr : bool;
  t_receiptStatus : Z;
  t_txHash : string
}.

(** Whether [new(big.Int).SetString(s, 10)] succeeds: an optional sign, then
    decimal digits, at least one, and nothing else. *)
Definition Int_SetString_ok (s : string) : bool :=
  let body :=
    match s with
    | String c s' => if Ascii.eqb c "+" || Ascii.eqb c "-" then s' else s
    | EmptyString => s
    end in
  match body with
  | EmptyString => false
  | _ => match parse_digits body 0 with Some _ => true | None => false end
  end.

(** [SafeTransferFrom]: the hash it returns, [None] when it returns an
    error.  The returns after the token id check and after the receipt check
    are [return "", err] at a point where [err] is nil: they give the empty
    hash and no error. *)
Definition SafeTransferFrom (t : TransferEnv) (privateKey from to tokenId : string)
    : option string :=
  if t_keyErr t then None
  else if t_authErr t then None
  else if negb (Int_SetString_ok tokenId) then Some ""
  else if t_transactErr t then None
  else if t_minedErr t then None
  else if t_receiptStatus t =? 0 then Some ""
  else Some (t_txHash t).

(** The delivery [delivery n tx] with a failing commit. *)
Definition commit_fails (n : Z) (tx : option string) : ExecEnv :=
  mkExecEnv false false false tx false false false false false true
            ("trade-" +:+ pretty n) (2000 + n).

(** The order of the settlement example with no price. *)
Definition unpriced_order : NFTOrder.t :=
  NFTOrder.mk "order-1" 7 "42" "0xContract" "0xSeller" "0xBuyer" "" 0 4 11155111.
Definition unpriced_ledger : Ledger :=
  mkLedger {[ "order-1" := unpriced_order ]} {[ 7 := demo_asset ]}
           [NFTAssetLock.mk 7 "order-1" 0 1000 None] [] [].

(** A node on which the transaction is mined and reverts. *)
Definition reverted : TransferEnv := mkTransferEnv false false false false 0 "0xtx1".


(** ** Properties of the order book and of the matching engine *)

Lemma wrap64_id (z : Z) : int64_ok z -> wrap64 z = z.
Proof.
  unfold int64_ok, wrap64. intros Hz.
  rewrite Z.mod_small by lia. lia.
Qed.

Lemma ltb_min (a b : Z) : (if a <? b then a else b) = Z.min a b.
Proof. destruct (Z.ltb_spec a b); lia. Qed.

(** Order ids are [{millisecond timestamp}-{8 hex digits}]; what is not a
    number counts as 0 and what does not fit is clamped. *)
Example ParseInt_examples :
  ParseInt (before_dash "1700000000000-abcdef12") = 1700000000000
  /\ ParseInt (before_dash "abcdef12") = 0
  /\ ParseInt (before_dash "") = 0
  /\ ParseInt "+42" = 42
  /\ ParseInt "99999999999999999999" = 2 ^ 63 - 1.
Proof. vm_compute. repeat split. Qed.

(** Scores: a sell order at 90 placed at time 2 ranks after one placed at
    time 0 and before any order at 100; a buy order's score is negated. *)
Example order_score_examples :
  (order_score (new_order "0-cccccccc" "0xC" 90 1 OrderTypeSell)
   <? order_score (new_order "2-bbbbbbbb" "0xB" 90 1 OrderTypeSell))%float = true
  /\ (order_score (new_order "2-bbbbbbbb" "0xB" 90 1 OrderTypeSell)
      <? order_score (new_order "1-aaaaaaaa" "0xA" 100 1 OrderTypeSell))%float = true
  /\ (order_score (new_order "1-aaaaaaaa" "0xA" 100 1 OrderTypeBuy) <? 0)%float = true.
Proof. vm_compute. repeat split. Qed.

(** C1.  [GetMatchableOrders] for a buy order at 100 returns the resting
    sell order priced 200: the upper score bound is the buy price plus 1e12,
    so the candidate list is not limited to sell prices at or below the buy
    limit, and the engine then trades the pair at 200. *)
Theorem GetMatchableOrders_returns_dearer_sell :
  GetMatchableOrders false dear_book.2 dear_book.1 = Some [ID dear_sell]
  /\ Type_ <$> (orders dear_book.1 !! ID dear_sell) = Some OrderTypeSell
  /\ Price <$> (orders dear_book.1 !! ID dear_sell) = Some 200
  /\ Price dear_book.2 = 100
  /\ List.map (fun t => (SellOrderId t, TradePrice t))
       (trades (MatchEngine ok_env dear_book.2 dear_book.1).1.1)
     = [(ID dear_sell, 200)].
Proof. vm_compute. repeat split. Qed.

(** No iteration of the loop releases a lock: a key that is held stays held,
    with the same lock id, until the loop is over. *)
Lemma match_iter_keeps_locks e sid l key v :
  locks (l_st l) !! key = Some v ->
  locks (l_st (match_iter e sid l)) !! key = Some v.
Proof.
  intros Hk.
  unfold match_iter, Lock, CreateTrade, UpdateOrder, RemoveOrderFromBook.
  repeat case_match; simplify_eq/=; try done.
  all: rewrite lookup_insert_ne; [done|congruence].
Qed.

Lemma match_loop_keeps_locks env ids : forall i l key v,
  locks (l_st l) !! key = Some v ->
  locks (l_st (match_loop env i ids l)) !! key = Some v.
Proof.
  induction ids as [|sid rest IH]; intros i l key v Hk; cbn; [done|].
  destruct (l_remaining l <=? 0); [done|].
  apply IH. by apply match_iter_keeps_locks.
Qed.

(** C2.  A run over two candidates: the lock taken for the first candidate
    is still held when the body starts on the second one, and both locks are
    released only by the deferred calls after the loop, latest first. *)
Theorem MatchEngine_unlocks_after_loop :
  (MatchEngine ok_env two_sells.2 two_sells.1).2
  = [ EvIter "1700000000000-aaaaaaaa";
      EvLock "lock:order:1700000000002-cccccccc:1700000000000-aaaaaaaa" "lock-0";
      EvIter "1700000000001-bbbbbbbb";
      EvLock "lock:order:1700000000002-cccccccc:1700000000001-bbbbbbbb" "lock-1";
      EvUnlock "lock:order:1700000000002-cccccccc:1700000000001-bbbbbbbb" "lock-1" true;
      EvUnlock "lock:order:1700000000002-cccccccc:1700000000000-aaaaaaaa" "lock-0" true ].
Proof. vm_compute. reflexivity. Qed.

(** C4, as the code has it: an incoming order that is not a buy order is
    returned at once; the stores are untouched and nothing happens. *)
Theorem MatchEngine_skips_non_buy (env : Env) (newOrder : Order) (st : State) :
  Type_ newOrder <> OrderTypeBuy ->
  MatchEngine env newOrder st = (st, newOrder, []).
Proof. intros Hty. unfold MatchEngine. by rewrite decide_True. Qed.

Lemma MatchEngine_skips_non_buy_witness :
  Type_ incoming_sell <> OrderTypeBuy
  /\ MatchEngine ok_env incoming_sell empty_state = (empty_state, incoming_sell, []).
Proof.
  split; [discriminate|].
  apply (MatchEngine_skips_non_buy ok_env incoming_sell empty_state). discriminate.
Defined.

(** C4, the claim as stated fails: a sell order at 90 arrives while a buy
    order at 100 rests in the book, and the engine produces no trade and
    leaves both orders open and unfilled. *)
Lemma MatchEngine_sell_not_matched :
  let r := MatchEngine ok_env sell_arrives.2 sell_arrives.1 in
  Type_ sell_arrives.2 = OrderTypeSell
  /\ book_members OrderTypeBuy "nft1" sell_arrives.1 = [ID resting_buy]
  /\ Price <$> (orders sell_arrives.1 !! ID resting_buy) = Some 100
  /\ Price sell_arrives.2 = 90
  /\ trades r.1.1 = []
  /\ RemainingQty <$> (orders r.1.1 !! ID incoming_sell) = Some 5
  /\ RemainingQty <$> (orders r.1.1 !! ID resting_buy) = Some 5.
Proof. vm_compute. repeat split. Qed.

(** *** A trade step, and the partial fill *)

(** An iteration in which every outside call succeeds, the candidate is
    open and the pair lock is free: one trade at the sell order's price for
    the smaller remaining quantity, both orders saved, the sell order out of
    its book once nothing of it remains, the lock kept. *)
Lemma match_iter_fill e sid l sell row :
  iter_ok e ->
  orders (l_st l) !! sid = Some sell -> ID sell = sid ->
  orders (l_st l) !! ID (l_buy l) = Some row ->
  locks (l_st l) !! ("lock:order:" +:+ ID (l_buy l) +:+ ":" +:+ ID sell) = None ->
  Status sell = OrderStatusPending \/ Status sell = OrderStatusPartially ->
  let q := Z.min (RemainingQty sell) (l_remaining l) in
  let key := "lock:order:" +:+ ID (l_buy l) +:+ ":" +:+ ID sell in
  match_iter e sid l =
  mkLoop
    (mkState
       (<[ID sell := fill q sell]> (<[ID (l_buy l) := fill q (l_buy l)]> (orders (l_st l))))
       (trades (l_st l) ++
          [mkTrade (tradeId e) (ID (l_buy l)) (ID sell) (NFTId (l_buy l)) (Price sell) q
                   (UserAddr (l_buy l)) (UserAddr sell)])
       (if RemainingQty (fill q sell) =? 0
        then ZRem (GetOrderBookKey (Type_ sell) (NFTId sell)) (ID sell) (book (l_st l))
        else book (l_st l))
       (<[key := lockID e]> (locks (l_st l))))
    (fill q (l_buy l)) (RemainingQty (fill q (l_buy l)))
    ((key, lockID e, unlockErr e) :: l_defers l)
    ((l_events l ++ [EvIter sid]) ++ [EvLock key (lockID e)]).
Proof.
  intros (Hg & Hl & Hc & Hub & Hus & Hr) Hsell Hid Hrow Hfree Hopen q key.
  unfold match_iter, GetOrderById, Lock, CreateTrade, UpdateOrder, RemoveOrderFromBook.
  subst key. rewrite Hg, Hsell, Hl, Hfree, Hc, Hub, Hus, Hr.
  rewrite decide_False by (intros [? ?]; destruct Hopen; congruence).
  rewrite ltb_min. fold q. unfold fill.
  cbn [orders trades book locks set_locks set_trades set_orders set_book
       ID set_status set_remaining].
  rewrite Hrow.
  cbn [orders trades book locks set_locks set_trades set_orders set_book
       ID set_status set_remaining RemainingQty].
  assert (Hs : is_Some ((<[ID (l_buy l) :=
                 set_status (if wrap64 (RemainingQty (l_buy l) - q) =? 0
                             then OrderStatusCompleted else OrderStatusPartially)
                   (set_remaining (wrap64 (RemainingQty (l_buy l) - q)) (l_buy l))]>
               (orders (l_st l))) !! ID sell)).
  { rewrite lookup_insert. case_decide; [done|]. by rewrite Hid, Hsell. }
  destruct Hs as [x Hx].
  destruct (wrap64 (RemainingQty sell - q) =? 0);
    cbn [orders trades book locks set_locks set_trades set_orders set_book
         ID set_status set_remaining RemainingQty];
    rewrite Hx; reflexivity.
Qed.

Lemma zremove_not_in member l : ~ In member (List.map fst (zremove member l)).
Proof.
  unfold zremove. rewrite in_map_iff. intros ([m s] & Hm & Hin).
  apply filter_In in Hin as [_ Hne]. cbn in *. subst m.
  by rewrite String.eqb_refl in Hne.
Qed.

(** After ZREM the member is in the set no more. *)
Lemma ZRem_not_in key member (r : gmap string (list zentry)) :
  ~ In member (List.map fst (default [] (ZRem key member r !! key))).
Proof.
  unfold ZRem. destruct (r !! key) as [l|] eqn:Hb.
  - rewrite lookup_insert_eq. apply zremove_not_in.
  - rewrite Hb. cbn. tauto.
Qed.

Lemma ok_env_ok : env_ok ok_env.
Proof. split; [reflexivity|]. split; [|reflexivity]. intros i. by repeat split. Qed.

Lemma range_zremove min max member (l : list zentry) :
  List.map fst
    (List.filter (fun x : zentry => (min <=? x.2)%float && (x.2 <=? max)%float)
                 (zremove member l))
  = List.filter (fun m => negb (String.eqb m member))
      (List.map fst
         (List.filter (fun x : zentry => (min <=? x.2)%float && (x.2 <=? max)%float) l)).
Proof.
  unfold zremove. induction l as [|x l IH]; [done|]. cbn.
  destruct (negb (String.eqb x.1 member)) eqn:H1;
    destruct ((min <=? x.2)%float && (x.2 <=? max)%float) eqn:H2;
    cbn; rewrite ?H1, ?H2; cbn; rewrite ?H1, ?IH; reflexivity.
Qed.

Lemma ZRangeByScore_ZRem key min max member (r : gmap string (list zentry)) :
  ZRangeByScore key min max (ZRem key member r)
  = List.filter (fun m => negb (String.eqb m member)) (ZRangeByScore key min max r).
Proof.
  unfold ZRangeByScore, ZRem. destruct (r !! key) as [l|] eqn:Hl; [|by rewrite Hl].
  rewrite lookup_insert_eq. cbn [default]. apply range_zremove.
Qed.

(** C5.  A stored buy order with 10 remaining meets, as the only candidate,
    an open sell order with 4 remaining priced 50, and every outside call
    succeeds.
    The run adds exactly one trade, of quantity 4 and price 50, between the
    two orders; the buy order (the struct handed back and its stored row)
    ends with status "partially" and 6 remaining, the stored sell order with
    status "completed" and 0 remaining; neither changes its original
    quantity; the sell order is in the sell book no more, and the candidate
    query of the buy order now comes back empty. *)
Theorem MatchEngine_partial_fill (env : Env) (buy sell : Order) (st : State) :
  env_ok env ->
  Type_ buy = OrderTypeBuy -> RemainingQty buy = 10 ->
  Type_ sell = OrderTypeSell -> NFTId sell = NFTId buy -> ID sell <> ID buy ->
  RemainingQty sell = 4 -> Price sell = 50 ->
  Status sell = OrderStatusPending \/ Status sell = OrderStatusPartially ->
  orders st !! ID buy = Some buy -> orders st !! ID sell = Some sell ->
  GetMatchableOrders false buy st = Some [ID sell] ->
  locks st !! ("lock:order:" +:+ ID buy +:+ ":" +:+ ID sell) = None ->
  trades (MatchEngine env buy st).1.1
  = trades st ++
      [mkTrade (tradeId (iterEnv env 0)) (ID buy) (ID sell) (NFTId buy) 50 4
               (UserAddr buy) (UserAddr sell)]
  /\ RemainingQty (MatchEngine env buy st).1.2 = 6
  /\ Status (MatchEngine env buy st).1.2 = "partially"
  /\ Quantity (MatchEngine env buy st).1.2 = Quantity buy
  /\ RemainingQty <$> (orders (MatchEngine env buy st).1.1 !! ID buy) = Some 6
  /\ Status <$> (orders (MatchEngine env buy st).1.1 !! ID buy) = Some "partially"
  /\ Quantity <$> (orders (MatchEngine env buy st).1.1 !! ID buy) = Some (Quantity buy)
  /\ RemainingQty <$> (orders (MatchEngine env buy st).1.1 !! ID sell) = Some 0
  /\ Status <$> (orders (MatchEngine env buy st).1.1 !! ID sell) = Some "completed"
  /\ Quantity <$> (orders (MatchEngine env buy st).1.1 !! ID sell) = Some (Quantity sell)
  /\ ~ In (ID sell)
         (book_members OrderTypeSell (NFTId buy) (MatchEngine env buy st).1.1)
  /\ GetMatchableOrders false buy (MatchEngine env buy st).1.1 = Some [].
Proof.
  intros (Hm & Hi & Hf) Hbt Hbq Hst Hnft Hid Hsq Hsp Hopen Hbuy Hsell Hcand Hfree.
  unfold MatchEngine.
  rewrite decide_False by (intros H; by apply H).
  rewrite Hm, Hcand. cbn [match_loop l_remaining]. rewrite Hbq.
  change (10 <=? 0) with false. cbv iota.
  pose proof (match_iter_fill (iterEnv env 0) (ID sell)
                (mkLoop st buy 10 [] []) sell buy (Hi 0%nat)) as Hstep.
  cbn [l_st l_buy l_remaining l_defers l_events] in Hstep.
  rewrite Hsq, Hsp in Hstep. unfold fill in Hstep. rewrite Hsq, Hbq in Hstep.
  rewrite Hstep by done. clear Hstep.
  change (Z.min 4 10) with 4.
  change (wrap64 (10 - 4)) with 6. change (wrap64 (4 - 4)) with 0.
  change (6 =? 0) with false. change (0 =? 0) with true. cbv iota.
  cbn [l_st l_buy l_defers l_events RemainingQty set_status set_remaining].
  change (6 =? 0) with false. change (0 =? 0) with true. cbv iota.
  destruct (run_defers _ _ _) as [held evs].
  cbn [fst snd trades orders book set_locks].
  split_and!; try reflexivity.
  - rewrite lookup_insert_ne by done. by rewrite lookup_insert_eq.
  - rewrite lookup_insert_ne by done. by rewrite lookup_insert_eq.
  - rewrite lookup_insert_ne by done. by rewrite lookup_insert_eq.
  - by rewrite lookup_insert_eq.
  - by rewrite lookup_insert_eq.
  - by rewrite lookup_insert_eq.
  - unfold book_members. cbn [book set_locks]. rewrite Hst, Hnft.
    apply ZRem_not_in.
  - unfold GetMatchableOrders in *. cbn [book set_locks NFTId Price].
    injection Hcand as Hcand. rewrite Hst, Hnft.
    rewrite ZRangeByScore_ZRem, Hcand. cbn. by rewrite String.eqb_refl.
Qed.

Lemma MatchEngine_partial_fill_witness :
  trades (MatchEngine ok_env partial_fill.2 partial_fill.1).1.1
  = trades partial_fill.1 ++
      [mkTrade "trade-0" "1700000000001-bbbbbbbb" "1700000000000-aaaaaaaa" "nft1" 50 4
               "0xBuyer" "0xSeller"]
  /\ RemainingQty (MatchEngine ok_env partial_fill.2 partial_fill.1).1.2 = 6
  /\ Status (MatchEngine ok_env partial_fill.2 partial_fill.1).1.2 = "partially"
  /\ Quantity (MatchEngine ok_env partial_fill.2 partial_fill.1).1.2 = 10
  /\ RemainingQty <$> (orders (MatchEngine ok_env partial_fill.2 partial_fill.1).1.1
                         !! "1700000000001-bbbbbbbb") = Some 6
  /\ Status <$> (orders (MatchEngine ok_env partial_fill.2 partial_fill.1).1.1
                   !! "1700000000001-bbbbbbbb") = Some "partially"
  /\ Quantity <$> (orders (MatchEngine ok_env partial_fill.2 partial_fill.1).1.1
                     !! "1700000000001-bbbbbbbb") = Some 10
  /\ RemainingQty <$> (orders (MatchEngine ok_env partial_fill.2 partial_fill.1).1.1
                         !! "1700000000000-aaaaaaaa") = Some 0
  /\ Status <$> (orders (MatchEngine ok_env partial_fill.2 partial_fill.1).1.1
                   !! "1700000000000-aaaaaaaa") = Some "completed"
  /\ Quantity <$> (orders (MatchEngine ok_env partial_fill.2 partial_fill.1).1.1
                     !! "1700000000000-aaaaaaaa") = Some 4
  /\ ~ In "1700000000000-aaaaaaaa"
         (book_members OrderTypeSell "nft1"
            (MatchEngine ok_env partial_fill.2 partial_fill.1).1.1)
  /\ GetMatchableOrders false partial_fill.2
       (MatchEngine ok_env partial_fill.2 partial_fill.1).1.1 = Some [].
Proof.
  apply (MatchEngine_partial_fill ok_env partial_fill.2 (BeforeCreate sell_of_4)
           partial_fill.1).
  - exact ok_env_ok.
  - reflexivity.
  - reflexivity.
  - reflexivity.
  - reflexivity.
  - discriminate.
  - reflexivity.
  - reflexivity.
  - left. reflexivity.
  - vm_compute. reflexivity.
  - vm_compute. reflexivity.
  - vm_compute. reflexivity.
  - vm_compute. reflexivity.
Defined.

(** *** Price-time priority *)

Lemma match_loop_cons env i sid rest l :
  0 < l_remaining l ->
  match_loop env i (sid :: rest) l = match_loop env (S i) rest (match_iter (env i) sid l).
Proof. intros H. cbn. destruct (Z.leb_spec (l_remaining l) 0); [lia|done]. Qed.

Lemma fill_exact q o :
  int64_ok (RemainingQty o - q) ->
  fill q o = set_status (if RemainingQty o - q =? 0 then OrderStatusCompleted
                         else OrderStatusPartially)
               (set_remaining (RemainingQty o - q) o).
Proof. intros H. unfold fill. by rewrite wrap64_id. Qed.

Lemma string_app_inv_head (s a b : string) : s +:+ a = s +:+ b -> a = b.
Proof. induction s as [|c s IH]; cbn; [done|]. intros [= H]. by apply IH. Qed.

Lemma pair_lock_ne (buyId a b : string) :
  a <> b -> "lock:order:" +:+ buyId +:+ ":" +:+ a <> "lock:order:" +:+ buyId +:+ ":" +:+ b.
Proof.
  intros Hne H. apply string_app_inv_head in H. apply string_app_inv_head in H.
  apply (string_app_inv_head ":") in H. done.
Qed.

(** The run of the price-time example on any store that holds the three
    sell orders and the buy order under their ids, with the candidates in
    the order (90, early), (90, late), (100). *)
Lemma priority_run (st : State) (idA idB idC idD : string) (q100 q90late q90early : Z) :
  0 < q90early -> 0 < q90late -> q90early + q90late < 5 -> 0 < q100 < 2 ^ 63 ->
  idA <> idB -> idA <> idC -> idA <> idD -> idB <> idC -> idB <> idD -> idC <> idD ->
  let buy := mkOrder idD "nft1" "0xD" 100 5 5 OrderTypeBuy OrderStatusPending in
  orders st !! idC
  = Some (mkOrder idC "nft1" "0xC" 90 q90early q90early OrderTypeSell OrderStatusPending) ->
  orders st !! idB
  = Some (mkOrder idB "nft1" "0xB" 90 q90late q90late OrderTypeSell OrderStatusPending) ->
  orders st !! idA
  = Some (mkOrder idA "nft1" "0xA" 100 q100 q100 OrderTypeSell OrderStatusPending) ->
  orders st !! idD = Some buy ->
  trades st = [] -> locks st = ∅ ->
  GetMatchableOrders false buy st = Some [idC; idB; idA] ->
  trades (MatchEngine ok_env buy st).1.1
  = [ mkTrade "trade-0" idD idC "nft1" 90 q90early "0xD" "0xC";
      mkTrade "trade-1" idD idB "nft1" 90 q90late "0xD" "0xB";
      mkTrade "trade-2" idD idA "nft1" 100 (Z.min q100 (5 - q90early - q90late))
              "0xD" "0xA" ].
Proof.
  intros Hc Hb Hsum Ha Hab Hac Had Hbc Hbd Hcd buy HC HB HA HD Htr Hlk Hcand.
  subst buy. unfold MatchEngine. rewrite decide_False by (intros H; by apply H).
  change (matchableErr ok_env) with false. rewrite Hcand.
  cbn [RemainingQty].
  (* first candidate: (90, early) *)
  rewrite match_loop_cons by (cbn; lia).
  erewrite match_iter_fill;
    [|by repeat split|cbn; exact HC|reflexivity|cbn; exact HD
     |cbn; by rewrite Hlk|by left].
  cbn [l_st l_buy l_remaining l_defers l_events RemainingQty ID].
  rewrite (Z.min_l q90early 5) by lia.
  rewrite !fill_exact by (unfold int64_ok; cbn; lia).
  cbn [RemainingQty set_status set_remaining ID Quantity Price NFTId UserAddr Type_ Status].
  (* second candidate: (90, late) *)
  rewrite match_loop_cons by (cbn; lia).
  erewrite match_iter_fill;
    [|by repeat split
     |cbn; rewrite !lookup_insert_ne by congruence; exact HB
     |reflexivity
     |cbn; rewrite lookup_insert_ne by congruence; apply lookup_insert_eq
     |cbn; rewrite lookup_insert_ne by (apply pair_lock_ne; congruence); by rewrite Hlk
     |by left].
  cbn [l_st l_buy l_remaining l_defers l_events RemainingQty ID orders trades locks book].
  rewrite (Z.min_l q90late (5 - q90early)) by lia.
  rewrite !fill_exact by (unfold int64_ok; cbn; lia).
  cbn [RemainingQty set_status set_remaining ID Quantity Price NFTId UserAddr Type_ Status].
  (* third candidate: (100) *)
  rewrite match_loop_cons by (cbn; lia).
  erewrite match_iter_fill;
    [|by repeat split
     |cbn; rewrite !lookup_insert_ne by congruence; exact HA
     |reflexivity
     |cbn; rewrite lookup_insert_ne by congruence; apply lookup_insert_eq
     |cbn; rewrite !lookup_insert_ne by (apply pair_lock_ne; congruence); by rewrite Hlk
     |by left].
  cbn [l_st l_buy l_remaining l_defers l_events RemainingQty ID orders trades locks book
       match_loop].
  destruct (run_defers _ _ _) as [held evs].
  cbn [fst snd trades set_locks].
  repeat match goal with
         | |- context [trades (if ?c then _ else _)] => destruct c
         end; cbn [trades set_book RemoveOrderFromBook];
    rewrite Htr; reflexivity.
Qed.

(** C6.  The sell orders (100, t=1), (90, t=2) and (90, t=0) are placed in
    the book in any order whatever, the time of an order being the clock
    reading its id starts with: [t0 + t], for the clock at 0, at 9 (where the
    bytes of the ids sort the two orders at 90 the wrong way round) or at
    1700000000000 when the example begins.  Then a buy order of 5 at 100
    arrives and every outside call succeeds.  Whatever the resting
    quantities, as long as the two orders at 90 together leave some of the 5
    unfilled: the candidates come as (90, t=0), (90, t=2), (100, t=1); the
    trades are made in that order, and the price of each trade is the limit
    price of its resting sell order. *)
Theorem MatchEngine_price_time_priority
    (t0 q100 q90late q90early : Z) (placing : list Order) :
  t0 = 0 \/ t0 = 9 \/ t0 = 1700000000000 ->
  Permutation placing (priority_sells t0 q100 q90late q90early) ->
  0 < q90early -> 0 < q90late -> q90early + q90late < 5 -> 0 < q100 < 2 ^ 63 ->
  let idA := pretty (t0 + 1) +:+ "-aaaaaaaa" in
  let idB := pretty (t0 + 2) +:+ "-bbbbbbbb" in
  let idC := pretty t0 +:+ "-cccccccc" in
  let idD := pretty (t0 + 3) +:+ "-dddddddd" in
  GetMatchableOrders false (priority_buy t0 placing).2 (priority_buy t0 placing).1
  = Some [idC; idB; idA]
  /\ trades (MatchEngine ok_env (priority_buy t0 placing).2
               (priority_buy t0 placing).1).1.1
     = [ mkTrade "trade-0" idD idC "nft1" 90 q90early "0xD" "0xC";
         mkTrade "trade-1" idD idB "nft1" 90 q90late "0xD" "0xB";
         mkTrade "trade-2" idD idA "nft1" 100
                 (Z.min q100 (5 - q90early - q90late)) "0xD" "0xA" ]
  /\ Forall (fun t => Price <$> (orders (priority_buy t0 placing).1 !! SellOrderId t)
                      = Some (TradePrice t))
       (trades (MatchEngine ok_env (priority_buy t0 placing).2
                  (priority_buy t0 placing).1).1.1).
Proof.
  intros Ht0 Hperm Hc Hb Hsum Ha idA idB idC idD.
  symmetry in Hperm. apply permutations_Permutation in Hperm.
  assert (Hall :
    GetMatchableOrders false (priority_buy t0 placing).2 (priority_buy t0 placing).1
    = Some [idC; idB; idA]
    /\ (priority_buy t0 placing).2
       = mkOrder idD "nft1" "0xD" 100 5 5 OrderTypeBuy OrderStatusPending
    /\ orders (priority_buy t0 placing).1 !! idC
       = Some (mkOrder idC "nft1" "0xC" 90 q90early q90early OrderTypeSell
                       OrderStatusPending)
    /\ orders (priority_buy t0 placing).1 !! idB
       = Some (mkOrder idB "nft1" "0xB" 90 q90late q90late OrderTypeSell
                       OrderStatusPending)
    /\ orders (priority_buy t0 placing).1 !! idA
       = Some (mkOrder idA "nft1" "0xA" 100 q100 q100 OrderTypeSell OrderStatusPending)
    /\ orders (priority_buy t0 placing).1 !! idD
       = Some (mkOrder idD "nft1" "0xD" 100 5 5 OrderTypeBuy OrderStatusPending)
    /\ trades (priority_buy t0 placing).1 = []
    /\ locks (priority_buy t0 placing).1 = ∅
    /\ (idA <> idB /\ idA <> idC /\ idA <> idD /\ idB <> idC /\ idB <> idD
        /\ idC <> idD)).
  { subst idA idB idC idD.
    destruct Ht0 as [-> | [-> | ->]]; vm_compute in Hperm;
      repeat (apply elem_of_cons in Hperm as [-> | Hperm]);
      try (by apply elem_of_nil in Hperm);
      vm_compute; split_and!; try reflexivity; discriminate. }
  destruct Hall as (Hcand & Hbuy & HC & HB & HA & HD & Htr & Hlk
                    & Hab & Hac & Had & Hbc & Hbd & Hcd).
  split; [exact Hcand|].
  set (st := (priority_buy t0 placing).1) in *.
  rewrite Hbuy in *. clearbody st idA idB idC idD.
  pose proof (priority_run st idA idB idC idD q100 q90late q90early
                Hc Hb Hsum Ha Hab Hac Had Hbc Hbd Hcd HC HB HA HD Htr Hlk Hcand)
    as Htrades.
  split; [exact Htrades|]. rewrite Htrades.
  repeat constructor; cbn [SellOrderId TradePrice]; by rewrite ?HC, ?HB, ?HA.
Qed.

Lemma MatchEngine_price_time_priority_witness :
  let placing :=
    [ new_order "9-cccccccc" "0xC" 90 2 OrderTypeSell;
      new_order "10-aaaaaaaa" "0xA" 100 3 OrderTypeSell;
      new_order "11-bbbbbbbb" "0xB" 90 1 OrderTypeSell ] in
  GetMatchableOrders false (priority_buy 9 placing).2 (priority_buy 9 placing).1
  = Some ["9-cccccccc"; "11-bbbbbbbb"; "10-aaaaaaaa"]
  /\ trades (MatchEngine ok_env (priority_buy 9 placing).2 (priority_buy 9 placing).1).1.1
     = [ mkTrade "trade-0" "12-dddddddd" "9-cccccccc" "nft1" 90 2 "0xD" "0xC";
         mkTrade "trade-1" "12-dddddddd" "11-bbbbbbbb" "nft1" 90 1 "0xD" "0xB";
         mkTrade "trade-2" "12-dddddddd" "10-aaaaaaaa" "nft1" 100
                 (Z.min 3 (5 - 2 - 1)) "0xD" "0xA" ]
  /\ Forall (fun t => Price <$> (orders (priority_buy 9 placing).1 !! SellOrderId t)
                      = Some (TradePrice t))
       (trades (MatchEngine ok_env (priority_buy 9 placing).2
                  (priority_buy 9 placing).1).1.1).
Proof.
  intros placing.
  apply (MatchEngine_price_time_priority 9 3 1 2 placing); try lia.
  unfold placing. vm_compute. apply (Permutation_cons_append [_; _] _).
Defined.

(** *** The quantity invariant *)

Lemma UpdateOrder_stored err o st row :
  orders st !! ID o = Some row ->
  UpdateOrder err o st = (set_orders (saved err o (orders st)) st, o, negb err).
Proof.
  intros Hrow. unfold UpdateOrder, saved. rewrite Hrow.
  destruct err; [by destruct st|done].
Qed.

Lemma lookup_saved err o (m : gmap string Order) id :
  saved err o m !! id
  = if err then m !! id else if decide (ID o = id) then Some o else m !! id.
Proof. unfold saved. destruct err; [done|]. apply lookup_insert. Qed.

Lemma saved_is_Some err o (m : gmap string Order) id :
  is_Some (m !! id) -> is_Some (saved err o m !! id).
Proof. intros H. rewrite lookup_saved. destruct err; [done|]. by case_decide. Qed.

(** What an iteration does to the order table and to the buy struct, when
    the buy order is stored and rows sit under their own id: either nothing,
    or both orders are filled by the trade quantity and saved. *)
Lemma match_iter_orders e sid l :
  is_Some (orders (l_st l) !! ID (l_buy l)) ->
  (forall sell, orders (l_st l) !! sid = Some sell -> ID sell = sid) ->
  let l' := match_iter e sid l in
  (l_buy l' = l_buy l /\ l_remaining l' = l_remaining l
   /\ orders (l_st l') = orders (l_st l))
  \/ (exists sell,
        orders (l_st l) !! sid = Some sell
        /\ let q := Z.min (RemainingQty sell) (l_remaining l) in
           l_buy l' = fill q (l_buy l)
           /\ l_remaining l' = RemainingQty (fill q (l_buy l))
           /\ orders (l_st l')
              = saved (updateSellErr e) (fill q sell)
                  (saved (updateBuyErr e) (fill q (l_buy l)) (orders (l_st l)))).
Proof.
  intros [row Hrow] Hkey.
  unfold match_iter, GetOrderById, Lock, CreateTrade, RemoveOrderFromBook.
  cbv zeta.
  destruct (getOrderErr e); [left; repeat split; reflexivity|].
  destruct (orders (l_st l) !! sid) as [sell|] eqn:Hsell; [|left; repeat split; reflexivity].
  destruct (lockErr e); [left; repeat split; reflexivity|].
  destruct (locks (l_st l) !! _); [left; repeat split; reflexivity|].
  case_decide; [left; repeat split; try reflexivity; by destruct (removeErr e)|].
  destruct (createTradeErr e); [left; repeat split; reflexivity|].
  right. exists sell. split; [done|]. rewrite ltb_min.
  set (q := Z.min (RemainingQty sell) (l_remaining l)).
  fold (fill q (l_buy l)). fold (fill q sell).
  assert (Hq : wrap64 (RemainingQty sell - q) = RemainingQty (fill q sell)) by done.
  rewrite Hq.
  erewrite (UpdateOrder_stored _ (fill q (l_buy l))) by exact Hrow.
  set (st1 := set_orders _ _).
  assert (Ho1 : orders st1
                = saved (updateBuyErr e) (fill q (l_buy l)) (orders (l_st l))) by done.
  set (st2 := if RemainingQty (fill q sell) =? 0 then _ else st1).
  assert (Ho2 : orders st2 = orders st1)
    by (unfold st2; destruct (RemainingQty (fill q sell) =? 0), (removeErr e); done).
  destruct (saved_is_Some (updateBuyErr e) (fill q (l_buy l)) (orders (l_st l)) (ID sell))
    as [row2 Hrow2]; [rewrite (Hkey sell eq_refl); by rewrite Hsell|].
  erewrite (UpdateOrder_stored _ (fill q sell) st2) by (rewrite Ho2, Ho1; exact Hrow2).
  cbn [l_buy l_remaining l_st orders set_orders]. rewrite Ho2, Ho1. done.
Qed.

Lemma no_growth_refl m : no_growth m m.
Proof. intros id o Ho. exists o. repeat split; [done|lia]. Qed.

Lemma no_growth_trans m1 m2 m3 :
  no_growth m1 m2 -> no_growth m2 m3 -> no_growth m1 m3.
Proof.
  intros H12 H23 id o Ho.
  destruct (H12 id o Ho) as (o2 & Ho2 & Hq2 & Hr2).
  destruct (H23 id o2 Ho2) as (o3 & Ho3 & Hq3 & Hr3).
  exists o3. repeat split; [done|congruence|lia].
Qed.

Lemma fill_fields q o :
  qty_ok o -> 0 <= q <= RemainingQty o ->
  ID (fill q o) = ID o /\ Quantity (fill q o) = Quantity o
  /\ RemainingQty (fill q o) = RemainingQty o - q.
Proof.
  intros [Hr Hq] Hle. unfold fill. cbn. repeat split.
  apply wrap64_id. unfold int64_ok. lia.
Qed.

Lemma store_ok_saved err o m :
  store_ok m -> qty_ok o -> store_ok (saved err o m).
Proof.
  intros Hm Ho id o'. rewrite lookup_saved.
  destruct err; [apply Hm|]. case_decide; [|apply Hm].
  intros [= <-]. done.
Qed.

Lemma match_iter_inv e sid l :
  loop_ok l -> 0 < l_remaining l ->
  let l' := match_iter e sid l in
  loop_ok l'
  /\ no_growth (orders (l_st l)) (orders (l_st l'))
  /\ ID (l_buy l') = ID (l_buy l)
  /\ Quantity (l_buy l') = Quantity (l_buy l)
  /\ RemainingQty (l_buy l') <= RemainingQty (l_buy l).
Proof.
  intros (Hst & Hbuy & Hrem & (row & Hrow & Hrq & Hrr)) Hpos l'.
  destruct (match_iter_orders e sid l) as [(Hb & Hr & Ho)|(sell & Hsell & Hb & Hr & Ho)];
    [by exists row | intros s Hs; by destruct (Hst _ _ Hs) | ..];
    fold l' in Hb, Hr, Ho.
  - unfold loop_ok. rewrite Hb, Hr, Ho. split_and!; try done; try lia.
    + by exists row.
    + apply no_growth_refl.
  - destruct (Hst _ _ Hsell) as [Hid Hsq].
    set (q := Z.min (RemainingQty sell) (l_remaining l)) in *.
    assert (Hq : 0 <= q <= RemainingQty sell /\ q <= RemainingQty (l_buy l))
      by (unfold qty_ok in *; lia).
    destruct (fill_fields q sell Hsq) as (Hsi & Hsqq & Hsr); [lia|].
    destruct (fill_fields q (l_buy l) Hbuy) as (Hbi & Hbqq & Hbr); [lia|].
    assert (Hsell' : qty_ok (fill q sell)) by (unfold qty_ok in *; lia).
    assert (Hbuy' : qty_ok (fill q (l_buy l))) by (unfold qty_ok in *; lia).
    unfold loop_ok. rewrite Hb, Hr, Ho. split_and!; try done; try lia.
    + apply store_ok_saved; [apply store_ok_saved|]; done.
    + unfold tracks. rewrite !lookup_saved, Hsi, Hbi, Hbqq, Hbr.
      destruct (updateSellErr e), (updateBuyErr e); repeat case_decide; simplify_eq.
      all: try (exists row; split_and!; [done|congruence|lia]).
      all: try (eexists; split_and!; [done|congruence|lia]).
      all: match goal with
           | Heq : ID ?s = ID (l_buy _), Hs : orders _ !! ID ?s = Some ?s,
             Hr : orders _ !! ID (l_buy _) = Some ?r |- _ =>
               rewrite Heq in Hs; assert (s = r) by congruence; subst r
           end.
      all: eexists; split_and!; [done|congruence|lia].
    + intros id o Hlk. rewrite !lookup_saved, Hsi, Hbi.
      destruct (updateSellErr e), (updateBuyErr e); repeat case_decide; simplify_eq.
      all: try (exists o; split_and!; [done|congruence|lia]).
      all: try (eexists; split_and!; [done|congruence|lia]).
Qed.

Lemma match_loop_inv env ids : forall i l,
  loop_ok l ->
  let l' := match_loop env i ids l in
  loop_ok l'
  /\ no_growth (orders (l_st l)) (orders (l_st l'))
  /\ ID (l_buy l') = ID (l_buy l)
  /\ Quantity (l_buy l') = Quantity (l_buy l)
  /\ RemainingQty (l_buy l') <= RemainingQty (l_buy l).
Proof.
  induction ids as [|sid rest IH]; intros i l Hl; cbn.
  - split_and!; try done; try lia. apply no_growth_refl.
  - destruct (Z.leb_spec (l_remaining l) 0) as [Hle|Hpos].
    + split_and!; try done; try lia. apply no_growth_refl.
    + destruct (match_iter_inv (env i) sid l Hl Hpos) as (Hl1 & Hg1 & Hi1 & Hq1 & Hr1).
      destruct (IH (S i) _ Hl1) as (Hl2 & Hg2 & Hi2 & Hq2 & Hr2).
      split_and!; try done; try congruence; try lia.
      eapply no_growth_trans; eassumption.
Qed.

Lemma run_defers_events ds : forall held evs,
  exists held' evs', run_defers ds held evs = (held', evs').
Proof. intros. destruct (run_defers ds held evs); eauto. Qed.

(** A run of the engine with nothing interleaved.  On a table within the
    bounds, for an incoming struct within the bounds that is not ahead of its
    row, the run keeps the table within the bounds, loses no order, changes
    no original quantity and raises no remaining quantity, and the struct it
    hands back has no more left than it came with. *)
Lemma MatchEngine_inv env newOrder st :
  store_ok (orders st) -> qty_ok newOrder -> tracks newOrder (orders st) ->
  let r := MatchEngine env newOrder st in
  store_ok (orders r.1.1)
  /\ no_growth (orders st) (orders r.1.1)
  /\ qty_ok r.1.2
  /\ tracks r.1.2 (orders r.1.1)
  /\ ID r.1.2 = ID newOrder
  /\ Quantity r.1.2 = Quantity newOrder
  /\ RemainingQty r.1.2 <= RemainingQty newOrder.
Proof.
  intros Hst Hnew Htr. unfold MatchEngine.
  case_decide.
  { cbn. split_and!; try done; try lia. apply no_growth_refl. }
  destruct (GetMatchableOrders _ _ _) as [ids|].
  2:{ cbn. split_and!; try done; try lia. apply no_growth_refl. }
  destruct (match_loop_inv (iterEnv env) ids 0
              (mkLoop st newOrder (RemainingQty newOrder) [] []))
    as ((Hs & Hb & _ & Ht) & Hg & Hi & Hq & Hr); [by split_and!|].
  cbn [l_st l_buy] in *.
  set (l := match_loop _ _ _ _) in *.
  set (st1 := if RemainingQty (l_buy l) =? 0 then _ else _).
  assert (Ho : orders st1 = orders (l_st l)).
  { unfold st1, RemoveOrderFromBook.
    destruct (RemainingQty (l_buy l) =? 0), (finalRemoveErr env); done. }
  destruct (run_defers _ _ _) as [held evs]. cbn. rewrite Ho.
  by split_and!.
Qed.

Lemma CancelOrder_orders h e orderId userAddr signature st :
  (forall o, orders st !! orderId = Some o -> ID o = orderId) ->
  let r := CancelOrder h e orderId userAddr signature st in
  orders r.1 = orders st
  \/ exists order, orders st !! orderId = Some order
       /\ orders r.1 = <[ID order := set_status OrderStatusCancelled order]> (orders st).
Proof.
  intros Hkey.
  unfold CancelOrder, GetOrderById, RemoveOrderFromBook. cbv zeta.
  destruct (VerifySignature _ _ _ _); [|by left]. cbn [negb].
  destruct (c_getErr e); [by left|].
  destruct (orders st !! orderId) as [order|] eqn:Ho; [|by left].
  case_decide; [by left|]. case_decide; [by left|].
  pose proof (Hkey order eq_refl) as Hid.
  destruct (Lock _ _ _ _) as [held got].
  rewrite (UpdateOrder_stored _ (set_status OrderStatusCancelled order)
             (set_locks held st) order)
    by (cbn; by rewrite Hid, Ho).
  destruct (c_updateErr e); cbn [negb saved]; [by left|].
  right. exists order. split; [done|]. by destruct (c_removeErr e).
Qed.

Lemma store_ok_by_decide (m : gmap string Order) :
  map_Forall (fun id o => ID o = id /\ 0 <= RemainingQty o <= Quantity o
                          /\ Quantity o < 2 ^ 63) m ->
  store_ok m.
Proof. intros H id o Ho. exact (H id o Ho). Qed.















(** C10, why the quantities must not be negative.  [PlaceOrder] passes any
    [int64] quantity on to [CreateOrder]: a sell order created with quantity
    -3 has -3 remaining from the start, and the engine run of a buy order of
    5 against it trades -3, which takes the buy order from 5 remaining to 8,
    above its original quantity. *)
Lemma negative_quantity_breaks_invariant :
  RemainingQty <$> (orders negative_book.1 !! ID negative_sell) = Some (-3)
  /\ Quantity negative_book.2 = 5
  /\ RemainingQty negative_book.2 = 5
  /\ RemainingQty <$> (orders negative_book.1 !! ID buy_of_5) = Some 5
  /\ List.map TradeQuantity
       (trades (MatchEngine ok_env negative_book.2 negative_book.1).1.1) = [-3]
  /\ RemainingQty (MatchEngine ok_env negative_book.2 negative_book.1).1.2 = 8
  /\ RemainingQty <$> (orders (MatchEngine ok_env negative_book.2 negative_book.1).1.1
                         !! ID buy_of_5) = Some 8.
Proof. vm_compute. repeat split. Qed.

(** *** The goroutines and the functions

    Run on its own from start to end, a goroutine does what the function
    does. *)

Lemma engine_run_add n m g st :
  engine_run (n + m) g st = engine_run m (engine_run n g st).1 (engine_run n g st).2.
Proof.
  revert g st. induction n as [|n IH]; intros g st; cbn [engine_run Nat.add]; [done|].
  destruct (engine_step g st) as [g' st']. apply IH.
Qed.

Lemma engine_run_S n g st :
  engine_run (S n) g st = engine_run n (engine_step g st).1 (engine_step g st).2.
Proof. cbn [engine_run]. by destruct (engine_step g st). Qed.

Lemma state_eta st : mkState (orders st) (trades st) (book st) (locks st) = st.
Proof. by destruct st. Qed.

Lemma run_defers_held ds : forall held evs evs',
  (run_defers ds held evs).1 = (run_defers ds held evs').1.
Proof.
  induction ds as [|[[key id] err] ds IH]; intros held evs evs'; cbn [run_defers]; [done|].
  destruct (Unlock err key id held) as [held' ok]. apply IH.
Qed.

(** One turn of the loop, call by call, is [match_iter]. *)
Lemma engine_run_iter env i sid rest l :
  0 < l_remaining l ->
  exists n,
    engine_run n (mkEngine env i (l_buy l) (l_remaining l) (l_defers l)
                           (ELoop (sid :: rest))) (l_st l)
    = (mkEngine env (S i) (l_buy (match_iter (iterEnv env i) sid l))
                (l_remaining (match_iter (iterEnv env i) sid l))
                (l_defers (match_iter (iterEnv env i) sid l)) (ELoop rest),
       l_st (match_iter (iterEnv env i) sid l)).
Proof.
  intros Hpos.
  assert (Hle : (l_remaining l <=? 0) = false) by (apply Z.leb_gt; lia).
  unfold match_iter. cbv zeta.
  destruct (GetOrderById (getOrderErr (iterEnv env i)) sid (l_st l)) as [sell|] eqn:Hget.
  2:{ exists 1%nat. cbn [engine_run]. unfold engine_step.
      cbn [g_env g_i g_buy g_remaining g_defers g_pc]. by rewrite Hle, Hget. }
  destruct (Lock _ _ _ (locks (l_st l))) as [held [id|]] eqn:Hlock.
  2:{ exists 2%nat. cbn [engine_run]. unfold engine_step.
      cbn [g_env g_i g_buy g_remaining g_defers g_pc]. rewrite Hle, Hget.
      unfold engine_step. cbn [g_env g_i g_buy g_remaining g_defers g_pc].
      by rewrite Hlock. }
  case_decide as Hstale.
  { exists 3%nat. cbn [engine_run]. unfold engine_step.
    cbn [g_env g_i g_buy g_remaining g_defers g_pc]. rewrite Hle, Hget.
    unfold engine_step. cbn [g_env g_i g_buy g_remaining g_defers g_pc].
    rewrite Hlock. unfold engine_step.
    cbn [g_env g_i g_buy g_remaining g_defers g_pc].
    by rewrite decide_True by done. }
  destruct (CreateTrade _ _ _) as [st1 [|]] eqn:Htrade.
  2:{ exists 3%nat. cbn [engine_run]. unfold engine_step.
      cbn [g_env g_i g_buy g_remaining g_defers g_pc]. rewrite Hle, Hget.
      unfold engine_step. cbn [g_env g_i g_buy g_remaining g_defers g_pc].
      rewrite Hlock. unfold engine_step.
      cbn [g_env g_i g_buy g_remaining g_defers g_pc].
      rewrite decide_False by done. by rewrite Htrade. }
  destruct (UpdateOrder (updateBuyErr (iterEnv env i)) _ st1) as [[st2 buy2] ok2] eqn:Hbuy.
  destruct (wrap64 (RemainingQty sell - _) =? 0) eqn:Hzero.
  - destruct (UpdateOrder (updateSellErr (iterEnv env i)) _ _) as [[st3 sell3] ok3] eqn:Hsell.
    exists 6%nat. cbn [engine_run]. unfold engine_step.
    cbn [g_env g_i g_buy g_remaining g_defers g_pc]. rewrite Hle, Hget.
    unfold engine_step. cbn [g_env g_i g_buy g_remaining g_defers g_pc].
    rewrite Hlock. unfold engine_step.
    cbn [g_env g_i g_buy g_remaining g_defers g_pc].
    rewrite decide_False by done. rewrite Htrade.
    unfold engine_step. cbn [g_env g_i g_buy g_remaining g_defers g_pc].
    rewrite Hbuy, Hzero.
    unfold engine_step. cbn [g_env g_i g_buy g_remaining g_defers g_pc].
    unfold engine_step. cbn [g_env g_i g_buy g_remaining g_defers g_pc].
    by rewrite Hsell.
  - destruct (UpdateOrder (updateSellErr (iterEnv env i)) _ _) as [[st3 sell3] ok3] eqn:Hsell.
    exists 5%nat. cbn [engine_run]. unfold engine_step.
    cbn [g_env g_i g_buy g_remaining g_defers g_pc]. rewrite Hle, Hget.
    unfold engine_step. cbn [g_env g_i g_buy g_remaining g_defers g_pc].
    rewrite Hlock. unfold engine_step.
    cbn [g_env g_i g_buy g_remaining g_defers g_pc].
    rewrite decide_False by done. rewrite Htrade.
    unfold engine_step. cbn [g_env g_i g_buy g_remaining g_defers g_pc].
    rewrite Hbuy, Hzero.
    unfold engine_step. cbn [g_env g_i g_buy g_remaining g_defers g_pc].
    by rewrite Hsell.
Qed.

Lemma engine_run_loop env ids : forall i l,
  exists n i',
    engine_run n (mkEngine env i (l_buy l) (l_remaining l) (l_defers l) (ELoop ids))
               (l_st l)
    = (mkEngine env i' (l_buy (match_loop (iterEnv env) i ids l))
                (l_remaining (match_loop (iterEnv env) i ids l))
                (l_defers (match_loop (iterEnv env) i ids l)) EFinal,
       l_st (match_loop (iterEnv env) i ids l)).
Proof.
  induction ids as [|sid rest IH]; intros i l.
  - by exists 1%nat, i.
  - cbn [match_loop]. destruct (Z.leb_spec (l_remaining l) 0) as [Hle|Hpos].
    + exists 1%nat, i. cbn [engine_run]. unfold engine_step.
      cbn [g_env g_i g_buy g_remaining g_defers g_pc].
      by rewrite (proj2 (Z.leb_le _ _) Hle).
    + destruct (engine_run_iter env i sid rest l Hpos) as [n Hn].
      destruct (IH (S i) (match_iter (iterEnv env i) sid l)) as (m & i' & Hm).
      exists (n + m)%nat, i'. by rewrite engine_run_add, Hn.
Qed.

Lemma engine_run_defers env i buy rem defers ds : forall st evs,
  engine_run (S (length ds)) (mkEngine env i buy rem defers (EDefers ds)) st
  = (mkEngine env i buy rem defers EDone,
     set_locks (run_defers ds (locks st) evs).1 st).
Proof.
  induction ds as [|[[key id] err] ds IH]; intros st evs.
  - cbn. unfold set_locks. by rewrite state_eta.
  - cbn [length]. rewrite engine_run_S. unfold engine_step at 1 2.
    cbn [g_env g_i g_buy g_remaining g_defers g_pc run_defers fst snd].
    rewrite (IH _ (evs ++ [EvUnlock key id (Unlock err key id (locks st)).2])).
    destruct (Unlock err key id (locks st)) as [held ok]. done.
Qed.

(** A goroutine of the engine that runs alone ends with the stores and the
    struct that [MatchEngine] gives. *)
Lemma engine_alone (env : Env) (newOrder : Order) (st : State) :
  exists n g,
    engine_run n (engine_start env newOrder) st = (g, (MatchEngine env newOrder st).1.1)
    /\ g_pc g = EDone /\ g_buy g = (MatchEngine env newOrder st).1.2.
Proof.
  unfold MatchEngine, engine_start.
  case_decide as Hty.
  { exists 1%nat. eexists. cbn [engine_run]. unfold engine_step.
    cbn [g_env g_i g_buy g_remaining g_defers g_pc].
    rewrite decide_True by done. done. }
  destruct (GetMatchableOrders (matchableErr env) newOrder st) as [ids|] eqn:Hids.
  2:{ exists 1%nat. eexists. cbn [engine_run]. unfold engine_step.
      cbn [g_env g_i g_buy g_remaining g_defers g_pc].
      rewrite decide_False by (intros H; by apply H). by rewrite Hids. }
  destruct (engine_run_loop env ids 0 (mkLoop st newOrder (RemainingQty newOrder) [] []))
    as (n & i' & Hn).
  cbn [l_buy l_remaining l_defers l_st] in Hn.
  set (l := match_loop _ _ _ _) in *.
  set (st1 := if RemainingQty (l_buy l) =? 0 then _ else _).
  assert (Hfirst : engine_step (mkEngine env 0 newOrder 0 [] EStart) st
                   = (mkEngine env 0 newOrder (RemainingQty newOrder) [] (ELoop ids), st)).
  { unfold engine_step. cbn [g_env g_i g_buy g_remaining g_defers g_pc].
    rewrite decide_False by (intros H; by apply H). by rewrite Hids. }
  assert (Hlast : engine_step (mkEngine env i' (l_buy l) (l_remaining l) (l_defers l)
                                        EFinal) (l_st l)
                  = (mkEngine env i' (l_buy l) (l_remaining l) (l_defers l)
                              (EDefers (l_defers l)), st1)) by reflexivity.
  exists (S (n + S (S (length (l_defers l)))))%nat. eexists.
  rewrite engine_run_S, Hfirst. cbn [fst snd].
  rewrite engine_run_add, Hn. cbn [fst snd].
  rewrite engine_run_S, Hlast. cbn [fst snd].
  rewrite (engine_run_defers _ _ _ _ _ _ st1 (l_events l)).
  destruct (run_defers _ _ _) as [held evs]. done.
Qed.

(** A call of [CancelOrder] that runs alone ends with the stores and the
    error that [CancelOrder] gives. *)
Lemma cancel_alone h e orderId userAddr signature st :
  cancel_run 5 (mkCancel h e orderId userAddr signature CStart) st
  = (mkCancel h e orderId userAddr signature
       (CDone (CancelOrder h e orderId userAddr signature st).2),
     (CancelOrder h e orderId userAddr signature st).1).
Proof.
  unfold CancelOrder. cbv zeta.
  cbn [cancel_run]. unfold cancel_step at 1.
  cbn [k_sha256_hex k_env k_orderId k_userAddr k_signature k_pc].
  destruct (negb _); [done|].
  destruct (GetOrderById _ _ _) as [order|]; [|done].
  case_decide; [done|]. case_decide; [done|].
  unfold cancel_step at 1.
  cbn [k_sha256_hex k_env k_orderId k_userAddr k_signature k_pc].
  destruct (Lock _ _ _ _) as [held got].
  unfold cancel_step at 1.
  cbn [k_sha256_hex k_env k_orderId k_userAddr k_signature k_pc].
  destruct (UpdateOrder _ _ _) as [[st1 order1] [|]].
  - unfold cancel_step at 1.
    cbn [k_sha256_hex k_env k_orderId k_userAddr k_signature k_pc].
    destruct (c_removeErr e); unfold cancel_step at 1;
      cbn [k_sha256_hex k_env k_orderId k_userAddr k_signature k_pc]; done.
  - unfold cancel_step at 1.
    cbn [k_sha256_hex k_env k_orderId k_userAddr k_signature k_pc]. done.
Qed.


(** *** Cancellation *)

(** With a valid signature from the owner and no outside failure,
    [CancelOrder] refuses exactly the orders in status completed or
    cancelled. *)
Lemma CancelOrder_succeeds_iff h e orderId userAddr signature st order :
  VerifySignature h userAddr (orderId +:+ userAddr) signature = true ->
  c_getErr e = false -> c_updateErr e = false -> c_removeErr e = false ->
  orders st !! orderId = Some order -> UserAddr order = userAddr ->
  (CancelOrder h e orderId userAddr signature st).2 = None
  <-> Status order <> OrderStatusCompleted /\ Status order <> OrderStatusCancelled.
Proof.
  intros Hsig Hg Hu Hr Ho Hown.
  unfold CancelOrder, GetOrderById, UpdateOrder.
  rewrite Hsig, Hg, Ho, Hu, Hr. cbn [negb].
  rewrite decide_False by (intros H; by apply H).
  case_decide as Hs.
  - cbn. split; [done|]. intros [? ?]. destruct Hs; congruence.
  - destruct (Lock _ _ _ _) as [held got]. cbn.
    assert (Hopen : Status order <> OrderStatusCompleted
                    /\ Status order <> OrderStatusCancelled)
      by (split; intros ?; apply Hs; auto).
    by destruct (orders st !! ID order).
Qed.

(** A refused cancellation changes nothing. *)
Lemma CancelOrder_refused_unchanged h e orderId userAddr signature st order :
  VerifySignature h userAddr (orderId +:+ userAddr) signature = true ->
  c_getErr e = false ->
  orders st !! orderId = Some order -> UserAddr order = userAddr ->
  Status order = OrderStatusCompleted \/ Status order = OrderStatusCancelled ->
  CancelOrder h e orderId userAddr signature st
  = (st, Some "order status not allow cancel").
Proof.
  intros Hsig Hg Ho Hown Hs.
  unfold CancelOrder, GetOrderById. rewrite Hsig, Hg, Ho. cbn [negb].
  rewrite decide_False by (intros H; by apply H).
  by rewrite decide_True.
Qed.

(** C7.  An order in status failed is not refused: with a valid signature
    from its owner and no outside failure, [CancelOrder] returns nil and the
    stored order goes from failed to cancelled. *)
Theorem CancelOrder_cancels_failed_order h e orderId userAddr signature st order :
  VerifySignature h userAddr (orderId +:+ userAddr) signature = true ->
  c_getErr e = false -> c_updateErr e = false -> c_removeErr e = false ->
  orders st !! orderId = Some order -> ID order = orderId ->
  UserAddr order = userAddr ->
  Status order = OrderStatusFailed ->
  (CancelOrder h e orderId userAddr signature st).2 = None
  /\ orders (CancelOrder h e orderId userAddr signature st).1 !! orderId
     = Some (set_status OrderStatusCancelled order).
Proof.
  intros Hsig Hg Hu Hr Ho Hid Hown Hs.
  unfold CancelOrder, GetOrderById, RemoveOrderFromBook.
  rewrite Hsig, Hg, Ho, Hr. cbn [negb].
  rewrite decide_False by (intros H; by apply H).
  rewrite decide_False by (rewrite Hs; intros [?|?]; discriminate).
  destruct (Lock _ _ _ _) as [held got].
  rewrite (UpdateOrder_stored _ (set_status OrderStatusCancelled order)
             (set_locks held st) order)
    by (cbn; by rewrite Hid, Ho).
  rewrite Hu. cbn. split; [done|]. rewrite Hid. by rewrite lookup_insert_eq.
Qed.

Lemma CancelOrder_cancels_failed_order_witness :
  (CancelOrder (fun s => s) ok_cancel "1700000000000-aaaaaaaa" "0xSeller"
     "1700000000000-aa" failed_store).2 = None
  /\ orders (CancelOrder (fun s => s) ok_cancel "1700000000000-aaaaaaaa" "0xSeller"
              "1700000000000-aa" failed_store).1 !! "1700000000000-aaaaaaaa"
     = Some (set_status OrderStatusCancelled failed_order).
Proof.
  apply (CancelOrder_cancels_failed_order (fun s => s) ok_cancel
           "1700000000000-aaaaaaaa" "0xSeller" "1700000000000-aa"
           failed_store failed_order);
    vm_compute; reflexivity.
Defined.

(** ** Properties of settlement *)

(** *** The fee *)

(** Fees at the rate 0.5: 2.5 goes to 2 and 3.5 to 4 (ties to even); at the
    default rate, 2 % of 10^18 wei. *)
Example platform_fee_examples :
  platform_fee 0.5 "5" = Some "2"
  /\ platform_fee 0.5 "7" = Some "4"
  /\ platform_fee rate_2_percent "1000000000000000000" = Some "20000000000000000"
  /\ platform_fee rate_2_percent "" = None
  /\ platform_fee nan "100" = None.
Proof. vm_compute. repeat split. Qed.

Lemma round_units_nearest m e : nearest_integer (round_units m e) m e.
Proof.
  unfold nearest_integer, round_units.
  destruct (Z.leb_spec 0 e) as [He|He]; [done|].
  set (d := 2 ^ (- e)).
  assert (Hd : 0 < d) by (apply Z.pow_pos_nonneg; lia).
  pose proof (Z.div_mod m d ltac:(lia)) as Hdm.
  pose proof (Z.mod_pos_bound m d Hd) as Hr.
  set (q := m / d) in *. set (r := m mod d) in *.
  destruct (Z.ltb_spec d (2 * r)) as [H1|H1]; cbn [orb].
  - nia.
  - destruct (Z.eqb_spec (2 * r) d) as [H2|H2]; cbn [andb]; [destruct (Z.odd q)|]; nia.
Qed.

Lemma round_units_tie_even m e :
  e < 0 -> 2 * (m mod 2 ^ (- e)) = 2 ^ (- e) -> Z.even (round_units m e) = true.
Proof.
  intros He Htie. unfold round_units.
  destruct (Z.leb_spec 0 e); [lia|].
  destruct (Z.ltb_spec (2 ^ (- e)) (2 * (m mod 2 ^ (- e)))); [lia|].
  rewrite (proj2 (Z.eqb_eq _ _) Htie). cbn [orb andb].
  destruct (Z.odd (m / 2 ^ (- e))) eqn:Hodd.
  - rewrite Z.even_add. rewrite <- Z.negb_odd, Hodd. reflexivity.
  - by rewrite <- Z.negb_odd, Hodd.
Qed.

Lemma round_prec_exact p m e : 0 < m < 2 ^ p -> round_prec p m e = (m, e).
Proof.
  intros [Hm Hlt]. unfold round_prec.
  assert (Z.log2 m < p) by (apply Z.log2_lt_pow2; lia).
  destruct (Z.leb_spec (Z.log2 m + 1) p); [done|lia].
Qed.

Lemma round_prec_nearest p m e :
  0 < m ->
  e <= (round_prec p m e).2
  /\ 2 * Z.abs ((round_prec p m e).1 * 2 ^ ((round_prec p m e).2 - e) - m)
     <= 2 ^ ((round_prec p m e).2 - e).
Proof.
  intros Hm. unfold round_prec.
  destruct (Z.leb_spec (Z.log2 m + 1) p) as [Hb|Hb]; cbn [fst snd].
  - rewrite Z.sub_diag. cbn. lia.
  - set (sh := Z.log2 m + 1 - p).
    assert (Hsh : 0 < sh) by lia.
    replace (e + sh - e) with sh by lia.
    set (d := 2 ^ sh).
    assert (Hd : 0 < d) by (apply Z.pow_pos_nonneg; lia).
    assert (Hhalf : 2 * 2 ^ (sh - 1) = d).
    { unfold d. replace sh with (Z.succ (sh - 1)) at 2 by lia.
      rewrite Z.pow_succ_r by lia. lia. }
    pose proof (Z.div_mod m d ltac:(lia)) as Hdm.
    pose proof (Z.mod_pos_bound m d Hd) as Hr.
    set (q := m / d) in *. set (r := m mod d) in *. set (h := 2 ^ (sh - 1)) in *.
    split; [lia|].
    destruct (Z.ltb_spec h r) as [H1|H1]; cbn [orb].
    + nia.
    + destruct (Z.eqb_spec r h) as [H2|H2]; cbn [andb]; [destruct (Z.odd q)|]; nia.
Qed.

Lemma platform_fee_value (rate : float) (price : string) (p : Z) (m : positive) (ex : Z) :
  parse_digits price 0 = Some p -> 0 < p < 2 ^ 64 ->
  Prim2SF rate = S754_finite false m ex ->
  platform_fee rate price
  = Some (pretty (round_units (round_prec 64 (p * Z.pos m) ex).1
                              (round_prec 64 (p * Z.pos m) ex).2)).
Proof.
  intros Hp Hr Hrate. unfold platform_fee, SetString, NewFloat.
  rewrite Hrate.
  destruct price as [|c price']; [cbn in Hp; injection Hp as <-; lia|].
  rewrite Hp. destruct p as [|p'|p']; [lia| |lia].
  rewrite round_prec_exact by lia. cbn [Mul].
  change (Z.pos p' =? 0) with false. change (Z.pos m =? 0) with false. cbn [orb].
  rewrite Z.add_0_l.
  destruct (round_prec 64 (Z.pos p' * Z.pos m) ex) as [M E]. reflexivity.
Qed.

Lemma app_one_neq {A} (l : list A) (x : A) : l <> l ++ [x].
Proof.
  intros H. apply (f_equal (@length A)) in H. rewrite length_app in H. cbn in H. lia.
Qed.

(** The fee of a ledger row is the fee [platform_fee] computes from the
    order's price and the configured rate. *)
Lemma ExecuteTrade_record_fee cfg e orderNo w order rec :
  x_orderErr e = false -> nft_orders w !! orderNo = Some order ->
  nft_trade_records (ExecuteTrade cfg e orderNo w).1 = nft_trade_records w ++ [rec] ->
  Some (NFTTradeRecord.Fee rec) = platform_fee (PlatformFeeRate cfg) (NFTOrder.Price order).
Proof.
  intros He Ho. unfold ExecuteTrade. rewrite He, Ho.
  repeat case_match; cbn; intros Hrec; try (by apply app_one_neq in Hrec).
  all: apply app_inv_head in Hrec; by injection Hrec as <-.
Qed.

(** C8, as the code has it.  For a price of decimal digits below 2^64 and a
    positive finite rate [m * 2^ex], the fee of the ledger row is the
    product [price * m * 2^ex] held in 64 bits of mantissa (round to nearest,
    exact when the product fits) and then rounded to a nearest integer, a
    tie going to the even one: it is rounded, not truncated. *)
Theorem ExecuteTrade_fee_rounds_to_nearest
    (cfg : Config) (e : ExecEnv) (orderNo : string) (w : Ledger)
    (order : NFTOrder.t) (rec : NFTTradeRecord.t) (p : Z) (m : positive) (ex : Z) :
  x_orderErr e = false -> nft_orders w !! orderNo = Some order ->
  parse_digits (NFTOrder.Price order) 0 = Some p -> 0 < p < 2 ^ 64 ->
  Prim2SF (PlatformFeeRate cfg) = S754_finite false m ex ->
  nft_trade_records (ExecuteTrade cfg e orderNo w).1 = nft_trade_records w ++ [rec] ->
  let M := (round_prec 64 (p * Z.pos m) ex).1 in
  let E := (round_prec 64 (p * Z.pos m) ex).2 in
  NFTTradeRecord.Fee rec = pretty (round_units M E)
  /\ nearest_integer (round_units M E) M E
  /\ (E < 0 -> 2 * (M mod 2 ^ (- E)) = 2 ^ (- E) -> Z.even (round_units M E) = true)
  /\ ex <= E
  /\ 2 * Z.abs (M * 2 ^ (E - ex) - p * Z.pos m) <= 2 ^ (E - ex)
  /\ (p * Z.pos m < 2 ^ 64 -> M = p * Z.pos m /\ E = ex).
Proof.
  intros He Ho Hp Hr Hrate Hrec M E.
  pose proof (ExecuteTrade_record_fee cfg e orderNo w order rec He Ho Hrec) as Hfee.
  rewrite (platform_fee_value _ _ p m ex Hp Hr Hrate) in Hfee.
  injection Hfee as Hfee. split; [exact Hfee|].
  split; [apply round_units_nearest|].
  split; [apply round_units_tie_even|].
  destruct (round_prec_nearest 64 (p * Z.pos m) ex) as [H1 H2]; [lia|].
  split; [exact H1|]. split; [exact H2|].
  intros Hfit. unfold M, E. rewrite round_prec_exact by lia. done.
Qed.

Lemma ExecuteTrade_fee_rounds_to_nearest_witness :
  let rec :=
    NFTTradeRecord.mk "trade-1" "order-1" 7 "0xSeller" "0xBuyer" "99" "2" "0xFee"
                      "0xtx1" 11155111 2001 in
  let M := (round_prec 64 (99 * 5764607523034235) (-58)).1 in
  let E := (round_prec 64 (99 * 5764607523034235) (-58)).2 in
  NFTTradeRecord.Fee rec = pretty (round_units M E)
  /\ nearest_integer (round_units M E) M E
  /\ (E < 0 -> 2 * (M mod 2 ^ (- E)) = 2 ^ (- E) -> Z.even (round_units M E) = true)
  /\ -58 <= E
  /\ 2 * Z.abs (M * 2 ^ (E - -58) - 99 * 5764607523034235) <= 2 ^ (E - -58)
  /\ (99 * 5764607523034235 < 2 ^ 64 -> M = 99 * 5764607523034235 /\ E = -58).
Proof.
  apply (ExecuteTrade_fee_rounds_to_nearest demo_cfg (delivery 1 (Some "0xtx1"))
           "order-1" demo_ledger demo_order
           (NFTTradeRecord.mk "trade-1" "order-1" 7 "0xSeller" "0xBuyer" "99" "2" "0xFee"
                              "0xtx1" 11155111 2001)
           99 5764607523034235%positive (-58)).
  - reflexivity.
  - vm_compute. reflexivity.
  - vm_compute. reflexivity.
  - lia.
  - vm_compute. reflexivity.
  - vm_compute. reflexivity.
Defined.

(** C8, the claim as stated fails: for the price 99 and the rate 0.02 the
    ledger row carries the fee 2, while the floor of the product is 1, both
    for the decimal rate 2/100 and for the binary64 rate the code multiplies
    with. *)
Lemma ExecuteTrade_fee_is_not_floor :
  List.map NFTTradeRecord.Fee
    (nft_trade_records
       (ExecuteTrade demo_cfg (delivery 1 (Some "0xtx1")) "order-1" demo_ledger).1)
  = ["2"]
  /\ NFTOrder.Price demo_order = "99"
  /\ Prim2SF (PlatformFeeRate demo_cfg) = S754_finite false 5764607523034235 (-58)
  /\ 99 * 2 / 100 = 1
  /\ 99 * 5764607523034235 / 2 ^ 58 = 1.
Proof. vm_compute. repeat split. Qed.

(** *** Redelivery *)

Lemma existsb_fresh (tradeNo : string) (l : list NFTTradeRecord.t) :
  Forall (fun r => NFTTradeRecord.TradeNo r <> tradeNo) l ->
  existsb (fun r => String.eqb (NFTTradeRecord.TradeNo r) tradeNo) l = false.
Proof.
  induction 1 as [|r l Hr _ IH]; cbn; [done|].
  rewrite IH, orb_false_r. by apply String.eqb_neq.
Qed.

(** C3, as the code has it.  [ExecuteTrade] never looks at the order's
    status.  For a stored order in any status (settled ones included) whose
    asset and chain configuration are found and whose node answers, the call
    makes one more transfer call to the chain.  If that call fails, no ledger
    row is added and the order is marked failed (5); if it returns a hash and
    the database transaction goes through, one more ledger row is added for
    the same order number and the order is marked settled (1). *)
Theorem ExecuteTrade_ignores_order_status
    (cfg : Config) (e : ExecEnv) (orderNo : string) (w : Ledger)
    (order : NFTOrder.t) (asset : NFTAsset.t) (rpcUrl : string) :
  x_orderErr e = false -> nft_orders w !! orderNo = Some order ->
  x_assetErr e = false -> nft_assets w !! NFTOrder.NFTAssetID order = Some asset ->
  ChainRPCUrl cfg !! NFTOrder.ChainID order = Some rpcUrl -> x_dialErr e = false ->
  chain_calls (ExecuteTrade cfg e orderNo w).1
  = chain_calls w ++
      [mkChainCall (NFTOrder.SellerAddr order) (NFTOrder.BuyerAddr order)
                   (NFTOrder.TokenID order) (x_transfer e)]
  /\ (x_transfer e = None ->
      (ExecuteTrade cfg e orderNo w).2 = HErr "transfer failed"
      /\ nft_trade_records (ExecuteTrade cfg e orderNo w).1 = nft_trade_records w
      /\ (x_failedUpdateErr e = false ->
          nft_orders (ExecuteTrade cfg e orderNo w).1 !! orderNo
          = Some (NFTOrder.set_Status 5 order)))
  /\ (forall txHash fee,
        x_transfer e = Some txHash ->
        platform_fee (PlatformFeeRate cfg) (NFTOrder.Price order) = Some fee ->
        x_txOrderErr e = false -> x_txLockErr e = false -> x_txAssetErr e = false ->
        x_txCreateErr e = false -> x_commitErr e = false ->
        Forall (fun r => NFTTradeRecord.TradeNo r <> x_tradeNo e) (nft_trade_records w) ->
        (ExecuteTrade cfg e orderNo w).2 = HOk
        /\ nft_trade_records (ExecuteTrade cfg e orderNo w).1
           = nft_trade_records w ++
               [NFTTradeRecord.mk (x_tradeNo e) orderNo (NFTOrder.NFTAssetID order)
                  (NFTOrder.SellerAddr order) (NFTOrder.BuyerAddr order)
                  (NFTOrder.Price order) fee (PlatformFeeAddr cfg) txHash
                  (NFTOrder.ChainID order) (x_now e)]
        /\ nft_orders (ExecuteTrade cfg e orderNo w).1 !! orderNo
           = Some (NFTOrder.set_Status 1 order)).
Proof.
  intros He Ho Ha Has Hrpc Hd. unfold ExecuteTrade.
  rewrite He, Ho, Ha, Has, Hrpc, Hd. split_and!.
  - destruct (x_transfer e) as [tx|].
    + repeat case_match; reflexivity.
    + by destruct (x_failedUpdateErr e).
  - intros ->. split_and!.
    + reflexivity.
    + by destruct (x_failedUpdateErr e).
    + intros ->. cbn. by rewrite lookup_insert_eq.
  - intros txHash fee -> -> -> -> -> -> -> Hfresh.
    cbn [add_chain_call nft_trade_records orb].
    rewrite (existsb_fresh _ _ Hfresh). cbn. split_and!; try reflexivity.
    by rewrite lookup_insert_eq.
Qed.

Lemma ExecuteTrade_ignores_order_status_witness :
  let w1 := (ExecuteTrade demo_cfg (delivery 1 (Some "0xtx1")) "order-1" demo_ledger).1 in
  let e := delivery 2 (Some "0xtx2") in
  let order := NFTOrder.set_Status 1 demo_order in
  nft_orders w1 !! "order-1" = Some order
  /\ chain_calls (ExecuteTrade demo_cfg e "order-1" w1).1
     = chain_calls w1 ++ [mkChainCall "0xSeller" "0xBuyer" "42" (Some "0xtx2")]
  /\ (ExecuteTrade demo_cfg e "order-1" w1).2 = HOk
  /\ nft_trade_records (ExecuteTrade demo_cfg e "order-1" w1).1
     = nft_trade_records w1 ++
         [NFTTradeRecord.mk "trade-2" "order-1" 7 "0xSeller" "0xBuyer" "99" "2" "0xFee"
            "0xtx2" 11155111 2002].
Proof.
  intros w1 e order.
  assert (Ho : nft_orders w1 !! "order-1" = Some order) by (vm_compute; reflexivity).
  destruct (ExecuteTrade_ignores_order_status demo_cfg e "order-1" w1 order
              (NFTAsset.set_OwnerAddr "0xBuyer" demo_asset) "https://rpc.sepolia.org")
    as (Hcalls & _ & Hok); try (vm_compute; reflexivity).
  destruct (Hok "0xtx2" "2") as (Hres & Hrec & _); try (vm_compute; reflexivity).
  { vm_compute. repeat constructor. discriminate. }
  split; [exact Ho|]. split; [exact Hcalls|]. split; [exact Hres|]. exact Hrec.
Defined.

(** C3, the claim as stated fails: the message of an order that is already
    settled is delivered again.  When the chain accepts the call again there
    are two transfers and two ledger rows for the one order; when it refuses,
    there are still two calls, and the settled order ends up failed. *)
Lemma ExecuteTrade_redelivery_not_idempotent :
  let w1 := (ExecuteTrade demo_cfg (delivery 1 (Some "0xtx1")) "order-1" demo_ledger).1 in
  let again := ExecuteTrade demo_cfg (delivery 2 (Some "0xtx2")) "order-1" w1 in
  let refused := ExecuteTrade demo_cfg (delivery 2 None) "order-1" w1 in
  NFTOrder.Status <$> (nft_orders w1 !! "order-1") = Some 1
  /\ List.map cc_result (chain_calls w1) = [Some "0xtx1"]
  /\ List.map NFTTradeRecord.OrderNo (nft_trade_records w1) = ["order-1"]
  /\ again.2 = HOk
  /\ List.map cc_result (chain_calls again.1) = [Some "0xtx1"; Some "0xtx2"]
  /\ List.map (fun r => (NFTTradeRecord.TradeNo r, NFTTradeRecord.OrderNo r))
       (nft_trade_records again.1)
     = [("trade-1", "order-1"); ("trade-2", "order-1")]
  /\ List.map cc_result (chain_calls refused.1) = [Some "0xtx1"; None]
  /\ NFTOrder.Status <$> (nft_orders refused.1 !! "order-1") = Some 5.
Proof. vm_compute. repeat split. Qed.

(** *** Acknowledgements *)

(** C9, as the code has it.  A delivery is discarded (nack without requeue)
    exactly when its body does not decode or has no order_no; it is requeued
    (nack with requeue) exactly when the handler returns an error, whatever
    the error; it is acknowledged exactly when the handler returns nil.  A
    discarded delivery leaves the state alone. *)
Theorem consume_delivery_acknowledgement {W : Type}
    (json_Unmarshal : string -> option (gmap string string))
    (handler : string -> W -> W * HandlerResult) (body : string) (w : W) :
  ((consume_delivery json_Unmarshal handler body w).2 = Some (Nack false false)
   <-> json_Unmarshal body = None
       \/ exists msg, json_Unmarshal body = Some msg /\ msg !! "order_no" = None)
  /\ ((consume_delivery json_Unmarshal handler body w).2 = Some (Nack false true)
      <-> exists msg orderNo err,
            json_Unmarshal body = Some msg /\ msg !! "order_no" = Some orderNo
            /\ (handler orderNo w).2 = HErr err)
  /\ ((consume_delivery json_Unmarshal handler body w).2 = Some (Ack false)
      <-> exists msg orderNo,
            json_Unmarshal body = Some msg /\ msg !! "order_no" = Some orderNo
            /\ (handler orderNo w).2 = HOk)
  /\ ((consume_delivery json_Unmarshal handler body w).2 = Some (Nack false false)
      -> (consume_delivery json_Unmarshal handler body w).1 = w).
Proof.
  unfold consume_delivery.
  destruct (json_Unmarshal body) as [msg|] eqn:Hdec.
  2:{ cbn. split_and!; try done.
      - split; [by left|done].
      - split; [done|]. by intros (? & ? & ? & ? & _).
      - split; [done|]. by intros (? & ? & ? & _). }
  destruct (msg !! "order_no") as [orderNo|] eqn:Hno.
  2:{ cbn. split_and!; try done.
      - split; [|done]. intros _. right. by exists msg.
      - split; [done|]. intros (m & o & err & Hm & Ho & _). congruence.
      - split; [done|]. intros (m & o & Hm & Ho & _). congruence. }
  destruct (handler orderNo w) as [w' res] eqn:Hh.
  destruct res as [|err|]; cbn; split_and!; try done.
  all: split; try done.
  all: try (intros [?|(m & Hm & Ho)]; congruence).
  all: try (intros (m & o & err' & Hm & Ho & Hr); simplify_eq; rewrite Hh in Hr; by cbn in Hr).
  all: try (intros (m & o & Hm & Ho & Hr); simplify_eq; rewrite Hh in Hr; by cbn in Hr).
  all: try (intros _; exists msg, orderNo; rewrite Hh; by split_and!).
  all: try (intros _; exists msg, orderNo, err; rewrite Hh; by split_and!).
Qed.

(** An order number that is not in the order table makes [ExecuteTrade]
    return an error, so its message is requeued. *)
Lemma unknown_order_is_requeued
    (json_Unmarshal : string -> option (gmap string string))
    (cfg : Config) (e : ExecEnv) (body : string) (w : Ledger)
    (msg : gmap string string) (orderNo : string) :
  json_Unmarshal body = Some msg -> msg !! "order_no" = Some orderNo ->
  nft_orders w !! orderNo = None ->
  consume_delivery json_Unmarshal (ExecuteTrade cfg e) body w
  = (w, Some (Nack false true)).
Proof.
  intros Hdec Hno Hunknown. unfold consume_delivery, ExecuteTrade.
  rewrite Hdec, Hno, Hunknown. by destruct (x_orderErr e).
Qed.

(** C9, the claim as stated fails: the message of an order number that does
    not exist is not discarded, it is requeued. *)
Lemma unknown_order_message_requeued :
  nft_orders demo_ledger !! "no-such-order" = None
  /\ consume_delivery wire_Unmarshal
       (ExecuteTrade demo_cfg (delivery 1 (Some "0xtx1")))
       (PublishBody "no-such-order") demo_ledger
     = (demo_ledger, Some (Nack false true)).
Proof. split; vm_compute; reflexivity. Qed.

(** A handler that never panics gets every delivery answered. *)
Lemma ConsumeTradeMsg_answers_all {W : Type}
    (json_Unmarshal : string -> option (gmap string string))
    (handler : string -> W -> W * HandlerResult) (msgs : list string) :
  (forall orderNo w, (handler orderNo w).2 <> HPanic) ->
  forall w, length (ConsumeTradeMsg json_Unmarshal handler msgs w).2 = length msgs.
Proof.
  intros Hnp. induction msgs as [|body rest IH]; intros w; cbn; [done|].
  unfold consume_delivery.
  destruct (json_Unmarshal body) as [msg|]; [destruct (msg !! "order_no") as [orderNo|]|].
  - pose proof (Hnp orderNo w) as Hh.
    destruct (handler orderNo w) as [w' [| |]]; cbn in Hh; try done.
    + specialize (IH w'). destruct (ConsumeTradeMsg _ _ rest w'). cbn in *. by rewrite IH.
    + specialize (IH w'). destruct (ConsumeTradeMsg _ _ rest w'). cbn in *. by rewrite IH.
  - specialize (IH w). destruct (ConsumeTradeMsg _ _ rest w). cbn in *. by rewrite IH.
  - specialize (IH w). destruct (ConsumeTradeMsg _ _ rest w). cbn in *. by rewrite IH.
Qed.

(** ** Further properties: the order book *)

Lemma string_app_list s t :
  list_ascii_of_string (s +:+ t) = list_ascii_of_string s ++ list_ascii_of_string t.
Proof. induction s as [|c s IH]; simpl; [done|]. by f_equal. Qed.

Lemma string_app_inv_tail s1 s2 t : s1 +:+ t = s2 +:+ t -> s1 = s2.
Proof.
  intros H. apply (f_equal list_ascii_of_string) in H.
  rewrite !string_app_list in H. apply app_inv_tail in H.
  apply (f_equal string_of_list_ascii) in H.
  by rewrite !string_of_list_ascii_of_string in H.
Qed.

Lemma string_app_last_ne s1 s2 t1 t2 c1 c2 :
  c1 <> c2 -> s1 +:+ t1 +:+ String c1 "" <> s2 +:+ t2 +:+ String c2 "".
Proof.
  intros Hc H. apply (f_equal list_ascii_of_string) in H.
  rewrite !string_app_list in H. cbn in H.
  rewrite !app_assoc in H. apply app_inj_tail in H as [_ H]. done.
Qed.

(** The buy book and the sell book of any two assets have different keys,
    and so have the books of one side for two different assets. *)
Theorem GetOrderBookKey_inj (t1 t2 n1 n2 : string) :
  t1 = OrderTypeBuy \/ t1 = OrderTypeSell ->
  t2 = OrderTypeBuy \/ t2 = OrderTypeSell ->
  GetOrderBookKey t1 n1 = GetOrderBookKey t2 n2 ->
  t1 = t2 /\ n1 = n2.
Proof.
  unfold GetOrderBookKey. intros H1 H2 H. injection H as H.
  destruct H1 as [-> | ->], H2 as [-> | ->].
  - split; [done|]. by apply (string_app_inv_tail n1 n2 ":buy").
  - exfalso. by apply (string_app_last_ne n1 n2 ":bu" ":sel" "y" "l").
  - exfalso. by apply (string_app_last_ne n1 n2 ":sel" ":bu" "l" "y").
  - split; [done|]. by apply (string_app_inv_tail n1 n2 ":sell").
Qed.

Lemma GetOrderBookKey_inj_witness :
  OrderTypeSell = OrderTypeSell /\ "nft1" = "nft1".
Proof.
  apply (GetOrderBookKey_inj OrderTypeSell OrderTypeSell "nft1" "nft1");
    [by right | by right | reflexivity].
Defined.

Lemma find_zinsert_fresh member score l :
  List.find (fun x : zentry => String.eqb x.1 member) l = None ->
  List.find (fun x : zentry => String.eqb x.1 member) (zinsert (member, score) l)
  = Some (member, score).
Proof.
  induction l as [|x l IH]; cbn.
  - by rewrite String.eqb_refl.
  - destruct (String.eqb x.1 member) eqn:Hx; [done|]. intros Hl.
    destruct (zless (member, score) x); cbn.
    + by rewrite String.eqb_refl.
    + rewrite Hx. by apply IH.
Qed.

Lemma find_zinsert_ne member other score l :
  other <> member ->
  List.find (fun x : zentry => String.eqb x.1 other) (zinsert (member, score) l)
  = List.find (fun x : zentry => String.eqb x.1 other) l.
Proof.
  intros Hne. apply String.eqb_neq in Hne. rewrite String.eqb_sym in Hne.
  induction l as [|x l IH]; cbn.
  - by rewrite Hne.
  - destruct (zless (member, score) x); cbn; [by rewrite Hne|].
    by rewrite IH.
Qed.

Lemma find_zremove_eq member l :
  List.find (fun x : zentry => String.eqb x.1 member) (zremove member l) = None.
Proof.
  unfold zremove. induction l as [|x l IH]; cbn; [done|].
  destruct (String.eqb x.1 member) eqn:Hx; cbn; [done|]. by rewrite Hx.
Qed.

Lemma find_zremove_ne member other l :
  other <> member ->
  List.find (fun x : zentry => String.eqb x.1 other) (zremove member l)
  = List.find (fun x : zentry => String.eqb x.1 other) l.
Proof.
  intros Hne. unfold zremove. induction l as [|x l IH]; cbn; [done|].
  destruct (String.eqb x.1 member) eqn:Hx; cbn.
  - apply String.eqb_eq in Hx. rewrite Hx.
    apply String.eqb_neq in Hne. rewrite String.eqb_sym in Hne. by rewrite Hne.
  - by rewrite IH.
Qed.

Lemma count_zinsert member (e : zentry) l :
  count_occ string_dec (List.map fst (zinsert e l)) member
  = (count_occ string_dec (List.map fst l) member
     + if string_dec e.1 member then 1 else 0)%nat.
Proof.
  induction l as [|x l IH]; cbn.
  - by destruct (string_dec e.1 member).
  - destruct (zless e x); cbn.
    + destruct (string_dec e.1 member), (string_dec x.1 member); lia.
    + rewrite IH. destruct (string_dec e.1 member), (string_dec x.1 member); lia.
Qed.

Lemma zremove_id member l :
  ~ In member (List.map fst l) -> zremove member l = l.
Proof.
  unfold zremove. induction l as [|x l IH]; cbn; [done|]. intros Hnot.
  destruct (String.eqb x.1 member) eqn:Hx; cbn.
  - apply String.eqb_eq in Hx. tauto.
  - f_equal. apply IH. tauto.
Qed.

(** Insert then look up: once [AddOrderToBook] has succeeded, the order's
    book holds its id exactly once, whether or not it was there before, and
    [GetOrderScore] returns the score computed from its price, id and
    side. *)
Theorem AddOrderToBook_GetOrderScore (order : Order) (st : State) :
  GetOrderScore false order (AddOrderToBook false order st).1 = Some (order_score order)
  /\ count_occ string_dec
       (book_members (Type_ order) (NFTId order) (AddOrderToBook false order st).1)
       (ID order) = 1%nat.
Proof.
  unfold GetOrderScore, AddOrderToBook, book_members, ZScore, ZAdd. cbn.
  rewrite lookup_insert_eq. cbn. split.
  - by rewrite find_zinsert_fresh by apply find_zremove_eq.
  - rewrite count_zinsert.
    rewrite (proj1 (count_occ_not_In string_dec _ _) (zremove_not_in _ _)).
    cbn [fst Nat.add]. by destruct (string_dec (ID order) (ID order)).
Qed.

(** Remove then look up: once [RemoveOrderFromBook] has succeeded the book
    no longer holds the id and [GetOrderScore] finds nothing; removing a
    second time changes nothing more. *)
Theorem RemoveOrderFromBook_idempotent (order : Order) (st : State) :
  GetOrderScore false order (RemoveOrderFromBook false order st) = None
  /\ ~ In (ID order)
        (book_members (Type_ order) (NFTId order) (RemoveOrderFromBook false order st))
  /\ RemoveOrderFromBook false order (RemoveOrderFromBook false order st)
     = RemoveOrderFromBook false order st.
Proof.
  unfold GetOrderScore, RemoveOrderFromBook, book_members, ZScore. cbn.
  set (key := GetOrderBookKey (Type_ order) (NFTId order)).
  split_and!.
  - unfold ZRem. destruct (book st !! key) as [l|] eqn:Hl.
    + rewrite lookup_insert_eq. cbn. by rewrite find_zremove_eq.
    + by rewrite Hl.
  - apply ZRem_not_in.
  - unfold set_book. cbn. f_equal. unfold ZRem.
    destruct (book st !! key) as [l|] eqn:Hl.
    + rewrite lookup_insert_eq, insert_insert_eq. f_equal.
      apply zremove_id, zremove_not_in.
    + by rewrite Hl.
Qed.



(** Adding or removing one order disturbs no other entry: every other id
    keeps its score in the same book, and every other book is untouched. *)
Theorem book_update_frame (order other : Order) (st : State) :
  GetOrderBookKey (Type_ other) (NFTId other) <> GetOrderBookKey (Type_ order) (NFTId order)
  \/ ID other <> ID order ->
  GetOrderScore false other (AddOrderToBook false order st).1 = GetOrderScore false other st
  /\ GetOrderScore false other (RemoveOrderFromBook false order st)
     = GetOrderScore false other st.
Proof.
  intros Hne. unfold GetOrderScore, AddOrderToBook, RemoveOrderFromBook, ZScore, ZAdd, ZRem.
  cbn.
  set (key := GetOrderBookKey (Type_ order) (NFTId order)).
  set (key' := GetOrderBookKey (Type_ other) (NFTId other)).
  destruct (decide (key' = key)) as [Hk|Hk].
  - destruct Hne as [Hne|Hne]; [done|]. rewrite Hk. split.
    + rewrite lookup_insert_eq. cbn.
      by rewrite find_zinsert_ne, find_zremove_ne.
    + destruct (book st !! key) as [l|] eqn:Hl; rewrite ?Hl; [|done].
      rewrite lookup_insert_eq. cbn. by rewrite find_zremove_ne.
  - split.
    + by rewrite lookup_insert_ne.
    + destruct (book st !! key) as [l|] eqn:Hl; rewrite ?Hl; [|done].
      by rewrite lookup_insert_ne.
Qed.

Lemma book_update_frame_witness :
  GetOrderScore false (BeforeCreate sell_of_4)
    (AddOrderToBook false buy_of_10 (rest_order sell_of_4 empty_state).1).1
  = GetOrderScore false (BeforeCreate sell_of_4) (rest_order sell_of_4 empty_state).1
  /\ GetOrderScore false (BeforeCreate sell_of_4)
       (RemoveOrderFromBook false buy_of_10 (rest_order sell_of_4 empty_state).1)
     = GetOrderScore false (BeforeCreate sell_of_4) (rest_order sell_of_4 empty_state).1.
Proof.
  apply (book_update_frame buy_of_10 (BeforeCreate sell_of_4)
           (rest_order sell_of_4 empty_state).1).
  right. discriminate.
Defined.

(** The candidates of a buy order are ids of the sell book of its asset,
    without regard to their price; and a sell order of that asset that has
    been removed from the book is not among them. *)
Theorem GetMatchableOrders_from_sell_book (buyOrder sellOrder : Order) (st : State)
    (ids : list string) :
  Type_ sellOrder = OrderTypeSell -> NFTId sellOrder = NFTId buyOrder ->
  GetMatchableOrders false buyOrder (RemoveOrderFromBook false sellOrder st) = Some ids ->
  ~ In (ID sellOrder) ids
  /\ forall id, In id ids -> In id (book_members OrderTypeSell (NFTId buyOrder) st).
Proof.
  unfold GetMatchableOrders, RemoveOrderFromBook, ZRangeByScore, book_members.
  intros Ht Hn [= <-]. rewrite Ht, Hn. cbn.
  set (key := GetOrderBookKey OrderTypeSell (NFTId buyOrder)).
  split.
  - rewrite in_map_iff. intros ([m s] & Hm & Hin). cbn in Hm. subst m.
    apply filter_In in Hin as [Hin _].
    apply (ZRem_not_in key (ID sellOrder) (book st)).
    apply in_map_iff. by exists (ID sellOrder, s).
  - intros id. rewrite !in_map_iff. intros ([m s] & Hm & Hin).
    apply filter_In in Hin as [Hin _]. exists (m, s). split; [done|].
    unfold ZRem in Hin. destruct (book st !! key) as [l|] eqn:Hl.
    + rewrite lookup_insert_eq in Hin. cbn in *. unfold zremove in Hin.
      by apply filter_In in Hin as [Hin _].
    + by rewrite Hl in Hin.
Qed.

Lemma GetMatchableOrders_from_sell_book_witness :
  ~ In "1700000000001-bbbbbbbb" ["1700000000000-aaaaaaaa"]
  /\ forall id, In id ["1700000000000-aaaaaaaa"] ->
       In id (book_members OrderTypeSell (NFTId two_sells.2) two_sells.1).
Proof.
  apply (GetMatchableOrders_from_sell_book two_sells.2
           (new_order "1700000000001-bbbbbbbb" "0xS2" 95 1 OrderTypeSell)
           two_sells.1 ["1700000000000-aaaaaaaa"]);
    vm_compute; reflexivity.
Defined.

(** ** Further properties: order ids *)

Lemma pretty_N_char_digit (d : N) :
  (d < 10)%N -> Z.of_nat (nat_of_ascii (pretty_N_char d)) = 48 + Z.of_N d.
Proof.
  intros Hd.
  assert (d = 0 \/ d = 1 \/ d = 2 \/ d = 3 \/ d = 4 \/ d = 5 \/ d = 6 \/ d = 7
          \/ d = 8 \/ d = 9)%N as H by lia.
  repeat (destruct H as [-> | H]; [reflexivity|]). by subst.
Qed.

Lemma parse_digits_pretty_N_go (x : N) : forall s,
  exists k, forall acc,
    parse_digits (pretty_N_go x s) acc = parse_digits s (acc * 10 ^ k + Z.of_N x)
    /\ 0 <= k.
Proof.
  induction (N.lt_wf_0 x) as [x _ IH]. intros s.
  assert (x = 0 \/ 0 < x)%N as [-> | Hpos] by lia.
  - exists 0. intros acc. rewrite pretty_N_go_0. split; [|lia]. f_equal. lia.
  - rewrite pretty_N_go_step by done.
    destruct (IH (x `div` 10)%N (N.div_lt x 10 Hpos eq_refl)
                 (String (pretty_N_char (x `mod` 10)) s)) as [k Hk].
    exists (k + 1). intros acc. destruct (Hk acc) as [-> Hk0]. split; [|lia].
    cbn [parse_digits].
    rewrite pretty_N_char_digit by (apply N.mod_lt; lia).
    assert (Hm : (x `mod` 10 < 10)%N) by (apply N.mod_lt; lia).
    assert (Hd : 0 <= Z.of_N (x `mod` 10) < 10).
    { split; [apply N2Z.is_nonneg|]. change 10 with (Z.of_N 10). by apply N2Z.inj_lt. }
    assert (H1 : (48 <=? 48 + Z.of_N (x `mod` 10)) = true) by (apply Z.leb_le; lia).
    assert (H2 : (48 + Z.of_N (x `mod` 10) <=? 57) = true) by (apply Z.leb_le; lia).
    rewrite H1, H2. cbn [andb]. f_equal. clear H1 H2 Hd.
    rewrite Z.pow_add_r by lia.
    pose proof (N.div_mod x 10 ltac:(lia)) as Hdm.
    apply (f_equal Z.of_N) in Hdm. rewrite N2Z.inj_add, N2Z.inj_mul in Hdm.
    change (Z.of_N 10) with 10 in Hdm.
    generalize dependent (Z.of_N (x `mod` 10)). generalize (Z.of_N (x `div` 10)).
    generalize (10 ^ k). clear. intros p d m Hx. rewrite Hx. change (10 ^ 1) with 10. lia.
Qed.

Lemma parse_digits_pretty (ts : Z) : 0 <= ts -> parse_digits (pretty ts) 0 = Some ts.
Proof.
  intros Hts. destruct ts as [|p|p]; [reflexivity| |lia].
  unfold pretty, pretty_Z, pretty, pretty_positive, pretty, pretty_N.
  rewrite decide_False by done.
  destruct (parse_digits_pretty_N_go (N.pos p) "") as [k Hk].
  destruct (Hk 0) as [-> _]. cbn [parse_digits]. f_equal.
Qed.

Lemma before_dash_digits rest : forall s acc n,
  parse_digits s acc = Some n -> before_dash (s +:+ String "-" rest) = s.
Proof.
  induction s as [|c s IH]; intros acc n H.
  - reflexivity.
  - change (String c s +:+ String "-" rest) with (String c (s +:+ String "-" rest)).
    cbn [before_dash parse_digits] in *.
    destruct (Ascii.eqb_spec c "-") as [-> | _]; [discriminate H|].
    destruct ((48 <=? Z.of_nat (nat_of_ascii c)) && (Z.of_nat (nat_of_ascii c) <=? 57));
      [|discriminate]. f_equal. eapply IH, H.
Qed.

Lemma ParseInt_digits s n :
  parse_digits s 0 = Some n -> 0 <= n < 2 ^ 63 -> ParseInt s = n.
Proof.
  intros H Hn. unfold ParseInt. destruct s as [|c s].
  - cbn in H. congruence.
  - destruct (Ascii.eqb_spec c "+") as [-> | _]; [discriminate H|].
    destruct (Ascii.eqb_spec c "-") as [-> | _]; [discriminate H|].
    rewrite H. lia.
Qed.

(** Round trip between the id generator and the order book: the timestamp
    that [AddOrderToBook] reads back out of an id made by [GenerateOrderId]
    is the clock value the id was made from, for every clock value from 0
    up and every UUID text; the score of a sell order with such an id is
    therefore its price plus that clock value over 1e12. *)
Theorem GenerateOrderId_timestamp (ts : Z) (uuidStr : string) (order : Order) :
  0 <= ts < 2 ^ 63 ->
  ID order = GenerateOrderId ts uuidStr -> Type_ order = OrderTypeSell ->
  ParseInt (before_dash (GenerateOrderId ts uuidStr)) = ts
  /\ order_score order
     = (float64_of_int64 (Price order) + float64_of_int64 ts / 1e12)%float.
Proof.
  intros Hts Hid Hty.
  assert (Hp : ParseInt (before_dash (GenerateOrderId ts uuidStr)) = ts).
  { unfold GenerateOrderId. set (r := substring _ _ _).
    change ("-" +:+ r) with (String "-" r).
    rewrite (before_dash_digits _ (pretty ts) 0 ts) by (apply parse_digits_pretty; lia).
    apply ParseInt_digits; [apply parse_digits_pretty|]; lia. }
  split; [exact Hp|].
  unfold order_score. rewrite Hid, Hp, Hty. reflexivity.
Qed.

Lemma GenerateOrderId_timestamp_witness :
  ParseInt (before_dash
              (GenerateOrderId 1700000000000 "123e4567-e89b-12d3-a456-4266aaaaaaaa"))
  = 1700000000000
  /\ order_score dear_sell
     = (float64_of_int64 (Price dear_sell) + float64_of_int64 1700000000000 / 1e12)%float.
Proof.
  apply (GenerateOrderId_timestamp 1700000000000 "123e4567-e89b-12d3-a456-4266aaaaaaaa"
           dear_sell); [lia | vm_compute; reflexivity | reflexivity].
Defined.

(** ** Further properties: the Redis lock *)



(** ** Further properties: the matching engine *)

(** [MatchEngine] is the run of an engine goroutine with nothing interleaved
    ([engine_alone]); the statements of this section are about such runs. *)

Lemma MatchEngine_inv_witness :
  let r := MatchEngine ok_env partial_fill.2 partial_fill.1 in
  store_ok (orders r.1.1)
  /\ no_growth (orders partial_fill.1) (orders r.1.1)
  /\ qty_ok r.1.2
  /\ tracks r.1.2 (orders r.1.1)
  /\ ID r.1.2 = ID partial_fill.2
  /\ Quantity r.1.2 = Quantity partial_fill.2
  /\ RemainingQty r.1.2 <= RemainingQty partial_fill.2.
Proof.
  apply (MatchEngine_inv ok_env partial_fill.2 partial_fill.1).
  - apply store_ok_by_decide. apply (bool_decide_unpack _). vm_compute. exact I.
  - vm_compute. intuition discriminate.
  - eexists. split; [vm_compute; reflexivity|]. vm_compute. intuition discriminate.
Defined.

Lemma UpdateOrder_frame err o st :
  locks (UpdateOrder err o st).1.1 = locks st
  /\ book (UpdateOrder err o st).1.1 = book st.
Proof. unfold UpdateOrder. destruct err; [done|]. by destruct (orders st !! ID o). Qed.

Lemma RemoveOrderFromBook_locks err o st :
  locks (RemoveOrderFromBook err o st) = locks st.
Proof. unfold RemoveOrderFromBook. by destruct err. Qed.

Lemma zremove_subset member (x : zentry) l : In x (zremove member l) -> In x l.
Proof. unfold zremove. intros H. by apply filter_In in H as [H _]. Qed.

Lemma ZRem_subset key key' member (x : zentry) (r : gmap string (list zentry)) :
  In x (default [] (ZRem key member r !! key')) -> In x (default [] (r !! key')).
Proof.
  unfold ZRem. destruct (r !! key) as [l|] eqn:Hl; [|done].
  rewrite lookup_insert. case_decide as Hk; [|done].
  subst key'. rewrite Hl. cbn. apply zremove_subset.
Qed.

Lemma RemoveOrderFromBook_subset err o st key (x : zentry) :
  In x (default [] (book (RemoveOrderFromBook err o st) !! key)) ->
  In x (default [] (book st !! key)).
Proof. unfold RemoveOrderFromBook. destruct err; [done|]. apply ZRem_subset. Qed.

(** What one iteration does to the lock table and to the books: it takes at
    most one lock, on a key that was free, and registers its unlock; it adds
    no entry to any book. *)
Lemma match_iter_shape e sid l :
  ((locks (l_st (match_iter e sid l)) = locks (l_st l)
    /\ l_defers (match_iter e sid l) = l_defers l)
   \/ exists key,
        locks (l_st l) !! key = None
        /\ locks (l_st (match_iter e sid l)) = <[key := lockID e]> (locks (l_st l))
        /\ l_defers (match_iter e sid l) = (key, lockID e, unlockErr e) :: l_defers l)
  /\ (forall key (x : zentry),
        In x (default [] (book (l_st (match_iter e sid l)) !! key)) ->
        In x (default [] (book (l_st l) !! key))).
Proof.
  unfold match_iter, GetOrderById, CreateTrade. cbv zeta.
  destruct (getOrderErr e); [split; [by left|done]|].
  destruct (orders (l_st l) !! sid) as [sell|]; [|split; [by left|done]].
  set (lockKey := "lock:order:" +:+ ID (l_buy l) +:+ ":" +:+ ID sell).
  destruct (Lock (lockErr e) (lockID e) lockKey (locks (l_st l))) as [held [id|]] eqn:Hlock;
    [|split; [by left|done]].
  assert (Hl : locks (l_st l) !! lockKey = None
               /\ held = <[lockKey := lockID e]> (locks (l_st l)) /\ id = lockID e).
  { unfold Lock in Hlock. destruct (lockErr e); [done|].
    destruct (locks (l_st l) !! lockKey); [done|]. by injection Hlock as <- <-. }
  destruct Hl as (Hfree & -> & ->).
  case_decide.
  { cbn [l_st l_defers]. split.
    - right. exists lockKey. by rewrite RemoveOrderFromBook_locks.
    - intros key x Hx. by apply RemoveOrderFromBook_subset in Hx. }
  destruct (createTradeErr e).
  { cbn [l_st l_defers]. split; [right; by exists lockKey|done]. }
  set (st0 := set_trades _ _).
  destruct (UpdateOrder (updateBuyErr e) _ st0) as [[st1 buy1] ok1] eqn:H1.
  match type of H1 with
  | UpdateOrder ?er ?o ?s = _ => pose proof (UpdateOrder_frame er o s) as [Hl1 Hb1]
  end.
  rewrite H1 in Hl1, Hb1. cbn [fst snd] in Hl1, Hb1.
  set (st2 := if _ =? 0 then _ else st1).
  assert (H2 : locks st2 = locks st1
               /\ forall key (x : zentry),
                    In x (default [] (book st2 !! key)) ->
                    In x (default [] (book st1 !! key))).
  { unfold st2. destruct (wrap64 (RemainingQty sell - _) =? 0); [|done]. split.
    - apply RemoveOrderFromBook_locks.
    - intros key x. apply RemoveOrderFromBook_subset. }
  destruct H2 as [Hl2 Hb2].
  destruct (UpdateOrder (updateSellErr e) _ st2) as [[st3 sell3] ok3] eqn:H3.
  match type of H3 with
  | UpdateOrder ?er ?o ?s = _ => pose proof (UpdateOrder_frame er o s) as [Hl3 Hb3]
  end.
  rewrite H3 in Hl3, Hb3. cbn [fst snd] in Hl3, Hb3.
  cbn [l_st l_defers]. split.
  - right. exists lockKey. by rewrite Hl3, Hl2, Hl1.
  - intros key x Hx. rewrite Hb3 in Hx. apply Hb2 in Hx. by rewrite Hb1 in Hx.
Qed.

Lemma match_iter_held_stack held0 e sid l :
  held_stack held0 (l_defers l) (locks (l_st l)) ->
  held_stack held0 (l_defers (match_iter e sid l)) (locks (l_st (match_iter e sid l))).
Proof.
  intros H.
  destruct (match_iter_shape e sid l) as [[[-> ->]|(key & Hfree & -> & ->)] _];
    [done|by constructor].
Qed.

Lemma match_iter_defers e sid l :
  unlockErr e = false ->
  Forall (fun d => d.2 = false) (l_defers l) ->
  Forall (fun d => d.2 = false) (l_defers (match_iter e sid l)).
Proof.
  intros He H.
  destruct (match_iter_shape e sid l) as [[[_ ->]|(key & _ & _ & ->)] _];
    [done|by constructor].
Qed.

Lemma match_loop_held_stack held0 env ids : forall i l,
  (forall i, unlockErr (env i) = false) ->
  held_stack held0 (l_defers l) (locks (l_st l)) ->
  Forall (fun d => d.2 = false) (l_defers l) ->
  held_stack held0 (l_defers (match_loop env i ids l))
                   (locks (l_st (match_loop env i ids l)))
  /\ Forall (fun d => d.2 = false) (l_defers (match_loop env i ids l)).
Proof.
  induction ids as [|sid rest IH]; intros i l He Hs Hf; cbn; [done|].
  destruct (l_remaining l <=? 0); [done|].
  apply IH; [done|by apply match_iter_held_stack|by apply match_iter_defers].
Qed.

Lemma run_defers_release held0 ds held :
  held_stack held0 ds held -> Forall (fun d => d.2 = false) ds ->
  forall evs, (run_defers ds held evs).1 = held0.
Proof.
  induction 1 as [|key id err ds held Hs IH Hfree]; intros Hf evs; [done|].
  apply Forall_cons in Hf as [Herr Hf]. cbn in Herr. subst err.
  cbn [run_defers]. unfold Unlock.
  rewrite lookup_insert_eq, decide_True by done.
  rewrite delete_insert_id by done. by apply IH.
Qed.

(** When no deferred [Unlock] fails, a run of the engine leaves the lock
    table exactly as it found it: every pair lock it took is released by the
    time it returns, and no lock of anyone else is touched. *)
Theorem MatchEngine_releases_locks (env : Env) (newOrder : Order) (st : State) :
  (forall i, unlockErr (iterEnv env i) = false) ->
  locks (MatchEngine env newOrder st).1.1 = locks st.
Proof.
  intros He. unfold MatchEngine. case_decide; [done|].
  destruct (GetMatchableOrders _ _ _) as [ids|]; [|done].
  destruct (match_loop_held_stack (locks st) (iterEnv env) ids 0
              (mkLoop st newOrder (RemainingQty newOrder) [] []) He)
    as [Hs Hf]; [constructor|constructor|].
  set (l := match_loop _ _ _ _) in *.
  set (st1 := if RemainingQty (l_buy l) =? 0 then _ else _).
  assert (Hl : locks st1 = locks (l_st l)).
  { unfold st1, RemoveOrderFromBook.
    destruct (RemainingQty (l_buy l) =? 0), (finalRemoveErr env); done. }
  pose proof (run_defers_release _ _ _ Hs Hf (l_events l)) as Hr.
  rewrite <- Hl in Hr. destruct (run_defers _ _ _) as [held evs]. exact Hr.
Qed.

Lemma MatchEngine_releases_locks_witness :
  locks (MatchEngine ok_env two_sells.2 two_sells.1).1.1 = locks two_sells.1.
Proof.
  apply (MatchEngine_releases_locks ok_env two_sells.2 two_sells.1).
  intros i. reflexivity.
Defined.

Lemma wrap64_int64 z : int64_ok (wrap64 z).
Proof.
  unfold int64_ok, wrap64.
  pose proof (Z.mod_pos_bound (z + 2 ^ 63) (2 ^ 64) ltac:(lia)). lia.
Qed.

Lemma wrap64_sub_l a b : wrap64 (wrap64 a - b) = wrap64 (a - b).
Proof.
  unfold wrap64. f_equal.
  replace ((a + 2 ^ 63) mod 2 ^ 64 - 2 ^ 63 - b + 2 ^ 63)
    with ((a + 2 ^ 63) mod 2 ^ 64 - b) by lia.
  rewrite Zminus_mod_idemp_l. f_equal. lia.
Qed.

Lemma traded_app ts1 ts2 : traded (ts1 ++ ts2) = traded ts1 + traded ts2.
Proof. unfold traded. induction ts1 as [|t ts1 IH]; cbn; [done|]. rewrite IH. lia. Qed.

Lemma same_order_refl o : same_order o o.
Proof. by repeat split. Qed.

Lemma same_order_trans a b c : same_order a b -> same_order b c -> same_order a c.
Proof. unfold same_order. intros (?&?&?&?&?) (?&?&?&?&?). split_and!; congruence. Qed.

Lemma trade_of_same a b t : same_order a b -> trade_of a t -> trade_of b t.
Proof. unfold same_order, trade_of. intros (?&?&?&?&?) (?&?&?). split_and!; congruence. Qed.

(** What one iteration does to the trade table and to the buy struct: either
    no trade, and orders and struct stay as they are, or exactly one trade
    more, made for the buy order, whose quantity comes off the struct. *)
Lemma match_iter_buy e sid l :
  let l' := match_iter e sid l in
  same_order (l_buy l') (l_buy l)
  /\ (is_Some (orders (l_st l) !! ID (l_buy l)) ->
      is_Some (orders (l_st l') !! ID (l_buy l')))
  /\ ((trades (l_st l') = trades (l_st l) /\ l_buy l' = l_buy l
       /\ orders (l_st l') = orders (l_st l))
      \/ exists t,
           trades (l_st l') = trades (l_st l) ++ [t] /\ trade_of (l_buy l) t
           /\ (is_Some (orders (l_st l) !! ID (l_buy l)) ->
               RemainingQty (l_buy l')
               = wrap64 (RemainingQty (l_buy l) - TradeQuantity t))).
Proof.
  unfold match_iter, GetOrderById, Lock, CreateTrade, RemoveOrderFromBook. cbv zeta.
  destruct (getOrderErr e);
    [split_and!; [apply same_order_refl|done|by left]|].
  destruct (orders (l_st l) !! sid) as [sell|] eqn:Hsell;
    [|split_and!; [apply same_order_refl|done|by left]].
  destruct (lockErr e);
    [split_and!; [apply same_order_refl|done|by left]|].
  destruct (locks (l_st l) !! _);
    [split_and!; [apply same_order_refl|done|by left]|].
  case_decide;
    [split_and!; [apply same_order_refl|by destruct (removeErr e)
                 |left; by destruct (removeErr e)]|].
  destruct (createTradeErr e);
    [split_and!; [apply same_order_refl|done|by left]|].
  rewrite ltb_min.
  set (q := Z.min (RemainingQty sell) (l_remaining l)).
  set (buy' := set_status _ (set_remaining _ (l_buy l))).
  set (sell' := set_status _ (set_remaining _ sell)).
  set (st0 := set_trades _ _).
  assert (Ho0 : orders st0 = orders (l_st l)) by done.
  assert (Hid : ID buy' = ID (l_buy l)) by done.
  assert (Hsame : same_order buy' (l_buy l)) by (by repeat split).
  assert (Hrem : RemainingQty buy' = wrap64 (RemainingQty (l_buy l) - q)) by done.
  assert (Hb : exists st1 buy1,
             UpdateOrder (updateBuyErr e) buy' st0 = (st1, buy1, negb (updateBuyErr e))
             /\ same_order buy1 (l_buy l) /\ trades st1 = trades st0
             /\ book st1 = book st0
             /\ (is_Some (orders (l_st l) !! ID (l_buy l)) ->
                 buy1 = buy' /\ is_Some (orders st1 !! ID buy1))).
  { unfold UpdateOrder. destruct (updateBuyErr e).
    - exists st0, buy'. split_and!; try done; intros Hs; by rewrite Ho0, Hid.
    - rewrite Ho0, Hid. destruct (orders (l_st l) !! ID (l_buy l)) as [row|] eqn:Hrow.
      + eexists _, buy'. split_and!; try done. intros _. split; [done|].
        cbn [orders set_orders]. rewrite Hid, lookup_insert_eq. by eexists.
      + eexists _, (BeforeCreate buy').
        split_and!; try done; try (by repeat split); try (by intros [? ?]). }
  destruct Hb as (st1 & buy1 & -> & Hsame1 & Ht1 & Hbk1 & Hrow1).
  set (st2 := if wrap64 (RemainingQty sell - q) =? 0 then _ else st1).
  assert (Ho2 : orders st2 = orders st1 /\ trades st2 = trades st1).
  { unfold st2. destruct (wrap64 (RemainingQty sell - q) =? 0), (removeErr e); done. }
  destruct Ho2 as [Ho2 Ht2].
  assert (Hs : exists st3 sell3,
             UpdateOrder (updateSellErr e) sell' st2 = (st3, sell3, negb (updateSellErr e))
             /\ trades st3 = trades st2
             /\ (forall id, is_Some (orders st2 !! id) -> is_Some (orders st3 !! id))).
  { unfold UpdateOrder. destruct (updateSellErr e).
    - by exists st2, sell'.
    - destruct (orders st2 !! ID sell'); eexists _, _; split_and!; try done.
      all: intros id Hs; cbn [orders set_orders]; rewrite lookup_insert;
        by case_decide. }
  destruct Hs as (st3 & sell3 & -> & Ht3 & Hkeep).
  cbn [l_buy l_st l_remaining]. split_and!.
  - exact Hsame1.
  - intros Hs. destruct (Hrow1 Hs) as [-> Hs1]. apply Hkeep. by rewrite Ho2.
  - right. eexists. split_and!.
    + rewrite Ht3, Ht2, Ht1. reflexivity.
    + by repeat split.
    + intros Hs. destruct (Hrow1 Hs) as [-> _]. exact Hrem.
Qed.

Lemma match_loop_buy env ids : forall i l,
  let l' := match_loop env i ids l in
  same_order (l_buy l') (l_buy l)
  /\ exists new,
       trades (l_st l') = trades (l_st l) ++ new
       /\ Forall (trade_of (l_buy l)) new
       /\ (is_Some (orders (l_st l) !! ID (l_buy l)) ->
           int64_ok (RemainingQty (l_buy l)) ->
           RemainingQty (l_buy l') = wrap64 (RemainingQty (l_buy l) - traded new)).
Proof.
  induction ids as [|sid rest IH]; intros i l; cbn zeta.
  - split; [apply same_order_refl|]. exists []. rewrite app_nil_r. split_and!; try done.
    intros _ Hok. cbn. rewrite Z.sub_0_r. symmetry. by apply wrap64_id.
  - cbn [match_loop].
    destruct (l_remaining l <=? 0).
    { split; [apply same_order_refl|]. exists []. rewrite app_nil_r. split_and!; try done.
      intros _ Hok. cbn. rewrite Z.sub_0_r. symmetry. by apply wrap64_id. }
    destruct (match_iter_buy (env i) sid l) as (Hs1 & Hk1 & Hstep).
    destruct (IH (S i) (match_iter (env i) sid l)) as (Hs2 & new2 & Ht2 & Hf2 & Hr2).
    split; [eapply same_order_trans; eassumption|].
    destruct Hstep as [(Ht1 & Hb1 & Ho1)|(t & Ht1 & Hof & Hr1)].
    + exists new2. rewrite Ht2, Ht1, Hb1 in *. split_and!; try done.
      intros Hs Hok. apply Hr2; [by rewrite Ho1|done].
    + exists (t :: new2). split_and!.
      * rewrite Ht2, Ht1, <- app_assoc. reflexivity.
      * constructor; [done|].
        eapply Forall_impl; [exact Hf2|]. intros t'. by apply trade_of_same.
      * intros Hs Hok. rewrite Hr2; [|by apply Hk1|rewrite Hr1 by done; apply wrap64_int64].
        rewrite Hr1 by done. rewrite wrap64_sub_l. f_equal.
        unfold traded. cbn [foldr]. lia.
Qed.

Lemma MatchEngine_loop env newOrder st ids :
  Type_ newOrder = OrderTypeBuy ->
  GetMatchableOrders (matchableErr env) newOrder st = Some ids ->
  let l := match_loop (iterEnv env) 0 ids
             (mkLoop st newOrder (RemainingQty newOrder) [] []) in
  let st1 := if RemainingQty (l_buy l) =? 0
             then RemoveOrderFromBook (finalRemoveErr env) (l_buy l) (l_st l)
             else l_st l in
  (MatchEngine env newOrder st).1.2 = l_buy l
  /\ orders (MatchEngine env newOrder st).1.1 = orders (l_st l)
  /\ trades (MatchEngine env newOrder st).1.1 = trades (l_st l)
  /\ book (MatchEngine env newOrder st).1.1 = book st1.
Proof.
  intros Hty Hids l st1. unfold MatchEngine.
  rewrite decide_False by (intros H; by apply H). rewrite Hids.
  fold l. fold st1.
  assert (Ho : orders st1 = orders (l_st l) /\ trades st1 = trades (l_st l)).
  { unfold st1, RemoveOrderFromBook.
    destruct (RemainingQty (l_buy l) =? 0), (finalRemoveErr env); done. }
  destruct Ho as [Ho Ht].
  destruct (run_defers _ _ _) as [held evs]. cbn. by rewrite Ho, Ht.
Qed.

(** The engine only ever appends to the trade table, and every trade a run
    appends is made for the incoming order: it carries that order's id, asset
    and owner as the buy side.  The struct the run hands back is still the
    same order (id, asset, owner, side and price). *)
Theorem MatchEngine_trades (env : Env) (newOrder : Order) (st : State) :
  same_order (MatchEngine env newOrder st).1.2 newOrder
  /\ exists new,
       trades (MatchEngine env newOrder st).1.1 = trades st ++ new
       /\ Forall (trade_of newOrder) new.
Proof.
  destruct (decide (Type_ newOrder = OrderTypeBuy)) as [Hty|Hty].
  2:{ unfold MatchEngine. rewrite decide_True by done. cbn.
      split; [apply same_order_refl|]. exists []. by rewrite app_nil_r. }
  destruct (GetMatchableOrders (matchableErr env) newOrder st) as [ids|] eqn:Hids.
  2:{ unfold MatchEngine. rewrite decide_False by (intros H; by apply H). rewrite Hids.
      cbn. split; [apply same_order_refl|]. exists []. by rewrite app_nil_r. }
  destruct (MatchEngine_loop env newOrder st ids Hty Hids) as (-> & _ & -> & _).
  destruct (match_loop_buy (iterEnv env) ids 0
              (mkLoop st newOrder (RemainingQty newOrder) [] []))
    as (Hsame & new & Ht & Hf & _).
  split; [exact Hsame|]. by exists new.
Qed.

(** Quantity accounting of a run.  For an incoming order that has its row in
    the order table, what the struct has left when the engine returns is what
    it had left on entry minus the quantities of the trades the run appended
    (in [int64] arithmetic), whichever outside calls failed on the way. *)
Theorem MatchEngine_quantity_accounting (env : Env) (newOrder : Order) (st : State) :
  is_Some (orders st !! ID newOrder) -> int64_ok (RemainingQty newOrder) ->
  exists new,
    trades (MatchEngine env newOrder st).1.1 = trades st ++ new
    /\ RemainingQty (MatchEngine env newOrder st).1.2
       = wrap64 (RemainingQty newOrder - traded new).
Proof.
  intros Hrow Hok.
  assert (Hnone : RemainingQty newOrder = wrap64 (RemainingQty newOrder - traded []))
    by (cbn; rewrite Z.sub_0_r; symmetry; by apply wrap64_id).
  destruct (decide (Type_ newOrder = OrderTypeBuy)) as [Hty|Hty].
  2:{ unfold MatchEngine. rewrite decide_True by done. cbn.
      exists []. by rewrite app_nil_r. }
  destruct (GetMatchableOrders (matchableErr env) newOrder st) as [ids|] eqn:Hids.
  2:{ unfold MatchEngine. rewrite decide_False by (intros H; by apply H). rewrite Hids.
      cbn. exists []. by rewrite app_nil_r. }
  destruct (MatchEngine_loop env newOrder st ids Hty Hids) as (-> & _ & -> & _).
  destruct (match_loop_buy (iterEnv env) ids 0
              (mkLoop st newOrder (RemainingQty newOrder) [] []))
    as (_ & new & Ht & _ & Hr).
  exists new. split; [exact Ht|]. by apply Hr.
Qed.

Lemma MatchEngine_quantity_accounting_witness :
  exists new,
    trades (MatchEngine ok_env partial_fill.2 partial_fill.1).1.1
    = trades partial_fill.1 ++ new
    /\ RemainingQty (MatchEngine ok_env partial_fill.2 partial_fill.1).1.2
       = wrap64 (RemainingQty partial_fill.2 - traded new).
Proof.
  apply (MatchEngine_quantity_accounting ok_env partial_fill.2 partial_fill.1).
  - eexists. vm_compute. reflexivity.
  - vm_compute. split; [discriminate|reflexivity].
Defined.

(** A buy order that the run has filled completely is in the buy book of its
    asset no more when the engine returns. *)
Theorem MatchEngine_filled_buy_leaves_book (env : Env) (newOrder : Order) (st : State) :
  Type_ newOrder = OrderTypeBuy ->
  matchableErr env = false -> finalRemoveErr env = false ->
  RemainingQty (MatchEngine env newOrder st).1.2 = 0 ->
  ~ In (ID newOrder)
       (book_members OrderTypeBuy (NFTId newOrder) (MatchEngine env newOrder st).1.1).
Proof.
  intros Hty Hm Hf.
  destruct (GetMatchableOrders (matchableErr env) newOrder st) as [ids|] eqn:Hids;
    [|by rewrite Hm in Hids].
  destruct (MatchEngine_loop env newOrder st ids Hty Hids) as (-> & _ & _ & Hbk).
  destruct (match_loop_buy (iterEnv env) ids 0
              (mkLoop st newOrder (RemainingQty newOrder) [] []))
    as ((Hi & Hn & _ & Ht & _) & _).
  cbn [l_buy] in *. intros Hz. unfold book_members. rewrite Hbk, Hz, Hf.
  unfold RemoveOrderFromBook. cbn [book set_book Z.eqb].
  rewrite Hi, Hn, Ht, Hty. apply ZRem_not_in.
Qed.

Lemma MatchEngine_filled_buy_leaves_book_witness :
  ~ In (ID dear_book.2)
       (book_members OrderTypeBuy (NFTId dear_book.2)
          (MatchEngine ok_env dear_book.2 dear_book.1).1.1).
Proof.
  apply (MatchEngine_filled_buy_leaves_book ok_env dear_book.2 dear_book.1);
    vm_compute; reflexivity.
Defined.

Lemma match_iter_book e sid l key (x : zentry) :
  In x (default [] (book (l_st (match_iter e sid l)) !! key)) ->
  In x (default [] (book (l_st l) !! key)).
Proof. apply match_iter_shape. Qed.

Lemma match_loop_book env ids key (x : zentry) : forall i l,
  In x (default [] (book (l_st (match_loop env i ids l)) !! key)) ->
  In x (default [] (book (l_st l) !! key)).
Proof.
  induction ids as [|sid rest IH]; intros i l; cbn [match_loop]; [done|].
  destruct (l_remaining l <=? 0); [done|].
  intros H. apply IH in H. by apply match_iter_book in H.
Qed.

(** The engine adds nothing to any order book and gives no entry a new
    score: every entry (id and score) that a book holds after a run was in
    that book before it. *)
Theorem MatchEngine_book_shrinks (env : Env) (newOrder : Order) (st : State)
    (key : string) (x : zentry) :
  In x (default [] (book (MatchEngine env newOrder st).1.1 !! key)) ->
  In x (default [] (book st !! key)).
Proof.
  destruct (decide (Type_ newOrder = OrderTypeBuy)) as [Hty|Hty].
  2:{ unfold MatchEngine. by rewrite decide_True by done. }
  destruct (GetMatchableOrders (matchableErr env) newOrder st) as [ids|] eqn:Hids.
  2:{ unfold MatchEngine. rewrite decide_False by (intros H; by apply H).
      by rewrite Hids. }
  destruct (MatchEngine_loop env newOrder st ids Hty Hids) as (_ & _ & _ & ->).
  intros H.
  apply (match_loop_book (iterEnv env) ids key x 0
           (mkLoop st newOrder (RemainingQty newOrder) [] [])).
  destruct (RemainingQty _ =? 0); [by apply RemoveOrderFromBook_subset in H|done].
Qed.

Lemma MatchEngine_book_shrinks_witness :
  In (ID buy_of_10, order_score buy_of_10)
     (default [] (book partial_fill.1 !! GetOrderBookKey OrderTypeBuy "nft1")).
Proof.
  apply (MatchEngine_book_shrinks ok_env partial_fill.2 partial_fill.1
           (GetOrderBookKey OrderTypeBuy "nft1") (ID buy_of_10, order_score buy_of_10)).
  vm_compute. left. reflexivity.
Defined.

Lemma keyed_insert (m : gmap string Order) o : keyed m -> keyed (<[ID o := o]> m).
Proof.
  intros Hk id o'. rewrite lookup_insert. case_decide; [by intros [= <-]|apply Hk].
Qed.

Lemma keyed_by_decide (m : gmap string Order) :
  map_Forall (fun id o => ID o = id) m -> keyed m.
Proof. intros H id o Ho. exact (H id o Ho). Qed.

(** An iteration touches no row of the order table but those of the buy
    order and of its candidate, and leaves every row under its own id. *)
Lemma match_iter_frame e sid l id :
  keyed (orders (l_st l)) ->
  keyed (orders (l_st (match_iter e sid l)))
  /\ (id <> ID (l_buy l) -> id <> sid ->
      orders (l_st (match_iter e sid l)) !! id = orders (l_st l) !! id).
Proof.
  intros Hk.
  unfold match_iter, GetOrderById, Lock, CreateTrade, RemoveOrderFromBook. cbv zeta.
  destruct (getOrderErr e); [done|].
  destruct (orders (l_st l) !! sid) as [sell|] eqn:Hsell; [|done].
  pose proof (Hk _ _ Hsell) as Hsid.
  destruct (lockErr e); [done|].
  destruct (locks (l_st l) !! _); [done|].
  case_decide; [by destruct (removeErr e)|].
  destruct (createTradeErr e); [done|].
  set (buy' := set_status _ (set_remaining _ (l_buy l))).
  set (sell' := set_status _ (set_remaining _ sell)).
  set (st0 := set_trades _ _).
  assert (Hb : exists st1 buy1,
             UpdateOrder (updateBuyErr e) buy' st0 = (st1, buy1, negb (updateBuyErr e))
             /\ keyed (orders st1)
             /\ (id <> ID (l_buy l) -> orders st1 !! id = orders (l_st l) !! id)).
  { unfold UpdateOrder. destruct (updateBuyErr e); [by exists st0, buy'|].
    destruct (orders st0 !! ID buy'); eexists _, _; split_and!; try done.
    all: try (by apply keyed_insert).
    all: intros Hne; cbn [orders set_orders]; by rewrite lookup_insert_ne. }
  destruct Hb as (st1 & buy1 & -> & Hk1 & Hf1).
  set (st2 := if _ =? 0 then _ else st1).
  assert (Ho2 : orders st2 = orders st1).
  { unfold st2, RemoveOrderFromBook.
    destruct (wrap64 (RemainingQty sell - _) =? 0), (removeErr e); done. }
  assert (Hs : exists st3 sell3,
             UpdateOrder (updateSellErr e) sell' st2 = (st3, sell3, negb (updateSellErr e))
             /\ keyed (orders st3)
             /\ (id <> sid -> orders st3 !! id = orders st2 !! id)).
  { unfold UpdateOrder. destruct (updateSellErr e).
    - exists st2, sell'. split_and!; try done. by rewrite Ho2.
    - destruct (orders st2 !! ID sell'); eexists _, _; split_and!; try done.
      all: try (cbn [orders set_orders]; rewrite Ho2; by apply keyed_insert).
      all: intros Hne; cbn [orders set_orders]; rewrite lookup_insert_ne; [done|].
      all: cbn; by rewrite Hsid. }
  destruct Hs as (st3 & sell3 & -> & Hk3 & Hf3).
  cbn [l_st]. split; [exact Hk3|]. intros Hn1 Hn2.
  by rewrite Hf3, Ho2, Hf1.
Qed.

Lemma match_loop_frame env ids id : forall i l,
  keyed (orders (l_st l)) -> id <> ID (l_buy l) -> ~ In id ids ->
  orders (l_st (match_loop env i ids l)) !! id = orders (l_st l) !! id.
Proof.
  induction ids as [|sid rest IH]; intros i l Hk Hb Hin; cbn [match_loop]; [done|].
  destruct (l_remaining l <=? 0); [done|].
  destruct (match_iter_frame (env i) sid l id Hk) as [Hk1 Hf1].
  destruct (match_iter_buy (env i) sid l) as ((Hid & _) & _).
  rewrite IH.
  - apply Hf1; [done|]. intros ->. apply Hin. by left.
  - done.
  - by rewrite Hid.
  - intros H. apply Hin. by right.
Qed.

(** Frame of a run on the order table.  When every row sits under its own
    id, a run touches no row but the incoming order's and those of the
    orders in the sell book of its asset: an order that is neither keeps its
    row exactly as it was. *)
Theorem MatchEngine_orders_frame (env : Env) (newOrder : Order) (st : State)
    (id : string) :
  keyed (orders st) ->
  id <> ID newOrder ->
  ~ In id (book_members OrderTypeSell (NFTId newOrder) st) ->
  orders (MatchEngine env newOrder st).1.1 !! id = orders st !! id.
Proof.
  intros Hk Hne Hout.
  destruct (decide (Type_ newOrder = OrderTypeBuy)) as [Hty|Hty].
  2:{ unfold MatchEngine. by rewrite decide_True by done. }
  destruct (GetMatchableOrders (matchableErr env) newOrder st) as [ids|] eqn:Hids.
  2:{ unfold MatchEngine. rewrite decide_False by (intros H; by apply H).
      by rewrite Hids. }
  destruct (MatchEngine_loop env newOrder st ids Hty Hids) as (_ & -> & _ & _).
  apply (match_loop_frame (iterEnv env) ids id 0
           (mkLoop st newOrder (RemainingQty newOrder) [] [])); try done.
  intros Hin. apply Hout.
  unfold GetMatchableOrders in Hids. destruct (matchableErr env); [done|].
  injection Hids as <-. unfold ZRangeByScore in Hin. unfold book_members.
  apply in_map_iff in Hin as (x & <- & Hx). apply filter_In in Hx as [Hx _].
  apply in_map_iff. by exists x.
Qed.

Lemma MatchEngine_orders_frame_witness :
  orders (MatchEngine ok_env partial_fill.2
            (rest_order (mkOrder "1700000000002-cccccccc" "nft2" "0xOther" 70 3 0
                                 OrderTypeSell OrderStatusPending)
                        partial_fill.1).1).1.1 !! "1700000000002-cccccccc"
  = orders (rest_order (mkOrder "1700000000002-cccccccc" "nft2" "0xOther" 70 3 0
                                OrderTypeSell OrderStatusPending)
                       partial_fill.1).1 !! "1700000000002-cccccccc".
Proof.
  apply (MatchEngine_orders_frame ok_env partial_fill.2
           (rest_order (mkOrder "1700000000002-cccccccc" "nft2" "0xOther" 70 3 0
                                OrderTypeSell OrderStatusPending)
                       partial_fill.1).1 "1700000000002-cccccccc").
  - apply keyed_by_decide. apply (bool_decide_unpack _). vm_compute. exact I.
  - discriminate.
  - vm_compute. intros [H|[]]. discriminate.
Defined.

(** ** Further properties: cancelling and placing orders *)

(** [CancelOrder] and [PlaceOrder] are the calls with nothing interleaved
    ([cancel_alone]). *)

(** Only the owner, with a valid signature, gets anything done: a request
    whose signature does not verify, or whose user is not the owner of the
    order it names (or names no stored order), is refused and changes
    nothing, neither in the stores nor in the lock table. *)
Theorem CancelOrder_requires_owner_signature h e orderId userAddr signature st :
  VerifySignature h userAddr (orderId +:+ userAddr) signature = false
  \/ (forall order, orders st !! orderId = Some order -> UserAddr order <> userAddr) ->
  (CancelOrder h e orderId userAddr signature st).1 = st
  /\ (CancelOrder h e orderId userAddr signature st).2 <> None.
Proof.
  intros H. unfold CancelOrder, GetOrderById.
  destruct (VerifySignature _ _ _ _) eqn:Hsig; cbn [negb]; [|done].
  destruct H as [H|H]; [done|].
  destruct (c_getErr e); [done|].
  destruct (orders st !! orderId) as [order|] eqn:Ho; [|done].
  by rewrite decide_True by (by apply H).
Qed.

Lemma CancelOrder_requires_owner_signature_witness :
  (CancelOrder (fun s => s) ok_cancel "1700000000000-aaaaaaaa" "0xMallory"
     "1700000000000-aa" failed_store).1 = failed_store
  /\ (CancelOrder (fun s => s) ok_cancel "1700000000000-aaaaaaaa" "0xMallory"
        "1700000000000-aa" failed_store).2 <> None.
Proof.
  apply (CancelOrder_requires_owner_signature (fun s => s) ok_cancel
           "1700000000000-aaaaaaaa" "0xMallory" "1700000000000-aa" failed_store).
  right. intros order. vm_compute. intros [= <-]. discriminate.
Defined.

(** The path on which [CancelOrder] returns nil. *)
Lemma CancelOrder_nil h e orderId userAddr signature st :
  (forall o, orders st !! orderId = Some o -> ID o = orderId) ->
  (CancelOrder h e orderId userAddr signature st).2 = None ->
  exists order,
    VerifySignature h userAddr (orderId +:+ userAddr) signature = true
    /\ orders st !! orderId = Some order /\ UserAddr order = userAddr
    /\ Status order <> OrderStatusCompleted /\ Status order <> OrderStatusCancelled
    /\ orders (CancelOrder h e orderId userAddr signature st).1
       = <[orderId := set_status OrderStatusCancelled order]> (orders st)
    /\ trades (CancelOrder h e orderId userAddr signature st).1 = trades st
    /\ book (CancelOrder h e orderId userAddr signature st).1
       = ZRem (GetOrderBookKey (Type_ order) (NFTId order)) orderId (book st).
Proof.
  intros Hkey.
  unfold CancelOrder, GetOrderById, RemoveOrderFromBook. cbv zeta.
  destruct (VerifySignature _ _ _ _); [|done]. cbn [negb].
  destruct (c_getErr e); [done|].
  destruct (orders st !! orderId) as [order|] eqn:Ho; [|done].
  case_decide as Hown; [done|]. case_decide as Hst; [done|].
  pose proof (Hkey order eq_refl) as Hid.
  destruct (Lock _ _ _ _) as [held got].
  rewrite (UpdateOrder_stored _ (set_status OrderStatusCancelled order)
             (set_locks held st) order)
    by (cbn; by rewrite Hid, Ho).
  destruct (c_updateErr e); cbn [negb saved]; [done|].
  destruct (c_removeErr e); [done|]. intros _.
  exists order. cbn. rewrite Hid. split_and!; try done.
  - intros ?. apply Hst. by left.
  - intros ?. apply Hst. by right.
Qed.

(** What a successful cancellation has done.  When [CancelOrder] returns
    nil for an order stored under its own id, the request was signed by the
    owner, the order was neither completed nor cancelled, its row now carries
    the status cancelled with every other field as before (the remaining
    quantity too), it is out of its order book, and no trade was made. *)
Theorem CancelOrder_success_effects h e orderId userAddr signature st :
  (forall o, orders st !! orderId = Some o -> ID o = orderId) ->
  (CancelOrder h e orderId userAddr signature st).2 = None ->
  exists order,
    orders st !! orderId = Some order /\ UserAddr order = userAddr
    /\ Status order <> "completed" /\ Status order <> "cancelled"
    /\ (exists order',
          orders (CancelOrder h e orderId userAddr signature st).1 !! orderId
          = Some order'
          /\ Status order' = "cancelled" /\ same_order order' order
          /\ Quantity order' = Quantity order
          /\ RemainingQty order' = RemainingQty order)
    /\ (forall id, id <> orderId ->
          orders (CancelOrder h e orderId userAddr signature st).1 !! id
          = orders st !! id)
    /\ trades (CancelOrder h e orderId userAddr signature st).1 = trades st
    /\ ~ In orderId
           (book_members (Type_ order) (NFTId order)
              (CancelOrder h e orderId userAddr signature st).1).
Proof.
  intros Hkey Hnil.
  destruct (CancelOrder_nil h e orderId userAddr signature st Hkey Hnil)
    as (order & _ & Ho & Hown & Hs1 & Hs2 & Hos & Hts & Hbk).
  exists order. split_and!; try done.
  - exists (set_status OrderStatusCancelled order).
    rewrite Hos, lookup_insert_eq. by split_and!.
  - intros id Hne. by rewrite Hos, lookup_insert_ne.
  - unfold book_members. rewrite Hbk. apply ZRem_not_in.
Qed.

Lemma CancelOrder_success_effects_witness :
  exists order,
    orders failed_store !! "1700000000000-aaaaaaaa" = Some order
    /\ UserAddr order = "0xSeller"
    /\ Status order <> "completed" /\ Status order <> "cancelled"
    /\ (exists order',
          orders (CancelOrder (fun s => s) ok_cancel "1700000000000-aaaaaaaa" "0xSeller"
                    "1700000000000-aa" failed_store).1 !! "1700000000000-aaaaaaaa"
          = Some order'
          /\ Status order' = "cancelled" /\ same_order order' order
          /\ Quantity order' = Quantity order
          /\ RemainingQty order' = RemainingQty order)
    /\ (forall id, id <> "1700000000000-aaaaaaaa" ->
          orders (CancelOrder (fun s => s) ok_cancel "1700000000000-aaaaaaaa" "0xSeller"
                    "1700000000000-aa" failed_store).1 !! id
          = orders failed_store !! id)
    /\ trades (CancelOrder (fun s => s) ok_cancel "1700000000000-aaaaaaaa" "0xSeller"
                 "1700000000000-aa" failed_store).1 = trades failed_store
    /\ ~ In "1700000000000-aaaaaaaa"
           (book_members (Type_ order) (NFTId order)
              (CancelOrder (fun s => s) ok_cancel "1700000000000-aaaaaaaa" "0xSeller"
                 "1700000000000-aa" failed_store).1).
Proof.
  apply (CancelOrder_success_effects (fun s => s) ok_cancel "1700000000000-aaaaaaaa"
           "0xSeller" "1700000000000-aa" failed_store).
  - intros o. vm_compute. by intros [= <-].
  - vm_compute. reflexivity.
Defined.

(** Cancelling is final.  After a cancellation that returned nil, the same
    request made again is refused with the status error, whatever the lock
    and the other outside calls do, and it changes nothing. *)
Theorem CancelOrder_twice h e e' orderId userAddr signature st :
  (forall o, orders st !! orderId = Some o -> ID o = orderId) ->
  (CancelOrder h e orderId userAddr signature st).2 = None ->
  c_getErr e' = false ->
  CancelOrder h e' orderId userAddr signature
    (CancelOrder h e orderId userAddr signature st).1
  = ((CancelOrder h e orderId userAddr signature st).1,
     Some "order status not allow cancel").
Proof.
  intros Hkey Hnil Hget.
  destruct (CancelOrder_nil h e orderId userAddr signature st Hkey Hnil)
    as (order & Hsig & Ho & Hown & _ & _ & Hos & _ & _).
  apply (CancelOrder_refused_unchanged h e' orderId userAddr signature _
           (set_status OrderStatusCancelled order)); try done.
  - by rewrite Hos, lookup_insert_eq.
  - by right.
Qed.

Lemma CancelOrder_twice_witness :
  CancelOrder (fun s => s) ok_cancel "1700000000000-aaaaaaaa" "0xSeller" "1700000000000-aa"
    (CancelOrder (fun s => s) ok_cancel "1700000000000-aaaaaaaa" "0xSeller"
       "1700000000000-aa" failed_store).1
  = ((CancelOrder (fun s => s) ok_cancel "1700000000000-aaaaaaaa" "0xSeller"
        "1700000000000-aa" failed_store).1,
     Some "order status not allow cancel").
Proof.
  apply (CancelOrder_twice (fun s => s) ok_cancel ok_cancel "1700000000000-aaaaaaaa"
           "0xSeller" "1700000000000-aa" failed_store).
  - intros o. vm_compute. by intros [= <-].
  - vm_compute. reflexivity.
  - reflexivity.
Defined.

Lemma GetOrderScore_added (order : Order) (st st' : State) :
  book st' = ZAdd (GetOrderBookKey (Type_ order) (NFTId order)) (order_score order)
                  (ID order) (book st) ->
  GetOrderScore false order st' = Some (order_score order).
Proof.
  intros Hb. unfold GetOrderScore, ZScore, ZAdd in *. rewrite Hb.
  rewrite lookup_insert_eq. cbn.
  by rewrite find_zinsert_fresh by apply find_zremove_eq.
Qed.

Lemma Unlock_locks_only err key id st :
  same_data (set_locks (Unlock err key id (locks st)).1 st) st.
Proof. by repeat split. Qed.

(** What a successful [PlaceOrder] has done.  When it returns an order id,
    the signature was valid, the id is the one [GenerateOrderId] made from
    the clock and the UUID and was not in the table, and the order is stored
    under it as requested, pending, with its remaining quantity equal to its
    quantity, whatever [int64] values price and quantity are; the order is
    in its book with the score computed from its price, id and side, and the
    struct handed to the engine is the stored row.  No trade is made by
    [PlaceOrder] itself. *)
Theorem PlaceOrder_success_effects h e nftId userAddr price quantity orderType signature
    st orderId order :
  (PlaceOrder h e nftId userAddr price quantity orderType signature st).2
  = Placed orderId order ->
  VerifySignature h userAddr
    (nftId +:+ userAddr +:+ FormatInt price +:+ FormatInt quantity +:+ orderType)
    signature = true
  /\ orderId = GenerateOrderId (p_now e) (p_uuid e)
  /\ orders st !! orderId = None
  /\ (ID order = orderId /\ NFTId order = nftId /\ UserAddr order = userAddr
      /\ Price order = price /\ Quantity order = quantity
      /\ RemainingQty order = quantity /\ Type_ order = orderType
      /\ Status order = "pending")
  /\ orders (PlaceOrder h e nftId userAddr price quantity orderType signature st).1
     = <[orderId := order]> (orders st)
  /\ trades (PlaceOrder h e nftId userAddr price quantity orderType signature st).1
     = trades st
  /\ GetOrderScore false order
       (PlaceOrder h e nftId userAddr price quantity orderType signature st).1
     = Some (order_score order).
Proof.
  unfold PlaceOrder. cbv zeta.
  destruct (VerifySignature _ _ _ _); cbn [negb]; [|done].
  destruct (Lock _ _ _ _) as [held got].
  unfold CreateOrder. cbn [ID BeforeCreate orders set_locks].
  destruct (p_createErr e); [done|].
  destruct (orders st !! GenerateOrderId (p_now e) (p_uuid e)) eqn:Hfresh; [done|].
  unfold AddOrderToBook. destruct (p_addErr e); [done|].
  cbn [fst snd]. intros [= <- <-]. split_and!; try done.
  apply (GetOrderScore_added _ st). done.
Qed.

Lemma PlaceOrder_success_effects_witness :
  let e := mkPlaceEnv false "lock-p" 1700000000000
                      "123e4567-e89b-12d3-a456-4266aaaaaaaa" false false false false in
  let order := mkOrder "1700000000000-aaaaaaaa" "nft1" "0xSeller" 50 (-3) (-3)
                       OrderTypeSell "pending" in
  let r := PlaceOrder (fun s => s) e "nft1" "0xSeller" 50 (-3) OrderTypeSell
                      "nft10xSeller50-3" empty_state in
  r.2 = Placed "1700000000000-aaaaaaaa" order
  /\ orders r.1 = <["1700000000000-aaaaaaaa" := order]> (orders empty_state)
  /\ trades r.1 = trades empty_state
  /\ GetOrderScore false order r.1 = Some (order_score order).
Proof.
  intros e order r.
  assert (Hr : r.2 = Placed "1700000000000-aaaaaaaa" order) by (vm_compute; reflexivity).
  split; [exact Hr|].
  destruct (PlaceOrder_success_effects (fun s => s) e "nft1" "0xSeller" 50 (-3)
              OrderTypeSell "nft10xSeller50-3" empty_state
              "1700000000000-aaaaaaaa" order Hr)
    as (_ & _ & _ & _ & Ho & Ht & Hs).
  split; [exact Ho|]. split; [exact Ht|exact Hs].
Defined.

(** [PlaceOrder] leaves nothing behind when it fails.  If it returns an
    error and the [DeleteOrder] of its rollback (when it comes to that) has
    worked, the order table, the trade table and the books are as they
    were. *)
Theorem PlaceOrder_error_rolls_back h e nftId userAddr price quantity orderType signature
    st msg :
  p_deleteErr e = false ->
  (PlaceOrder h e nftId userAddr price quantity orderType signature st).2 = PlaceErr msg ->
  same_data (PlaceOrder h e nftId userAddr price quantity orderType signature st).1 st.
Proof.
  intros Hdel. unfold PlaceOrder. cbv zeta.
  destruct (VerifySignature _ _ _ _); cbn [negb]; [|done].
  destruct (Lock _ _ _ _) as [held got].
  unfold CreateOrder. cbn [ID BeforeCreate orders set_locks].
  destruct (p_createErr e); [done|].
  destruct (orders st !! GenerateOrderId (p_now e) (p_uuid e)) eqn:Hfresh; [done|].
  unfold AddOrderToBook. destruct (p_addErr e); [|done].
  unfold DeleteOrder. rewrite Hdel. intros _. cbn.
  unfold same_data. cbn. by rewrite delete_insert_id.
Qed.

Lemma PlaceOrder_error_rolls_back_witness :
  let e := mkPlaceEnv false "lock-p" 1700000000000
                      "123e4567-e89b-12d3-a456-4266aaaaaaaa" false true false false in
  same_data
    (PlaceOrder (fun s => s) e "nft1" "0xSeller" 50 4 OrderTypeSell "nft10xSeller504s"
                empty_state).1
    empty_state.
Proof.
  intros e.
  apply (PlaceOrder_error_rolls_back (fun s => s) e "nft1" "0xSeller" 50 4 OrderTypeSell
           "nft10xSeller504s" empty_state "add order to book failed").
  - reflexivity.
  - vm_compute. reflexivity.
Defined.

(** ** Further properties: what the locks of the two functions do *)

Lemma UpdateOrder_same err o st st' :
  same_data st st' ->
  (UpdateOrder err o st).1.2 = (UpdateOrder err o st').1.2
  /\ (UpdateOrder err o st).2 = (UpdateOrder err o st').2
  /\ same_data (UpdateOrder err o st).1.1 (UpdateOrder err o st').1.1.
Proof.
  intros (Ho & Ht & Hb). unfold UpdateOrder. destruct err; [done|].
  rewrite Ho. destruct (orders st' !! ID o); cbn; unfold same_data; cbn;
    by rewrite ?Ho, ?Ht, ?Hb.
Qed.

Lemma RemoveOrderFromBook_same err o st st' :
  same_data st st' ->
  same_data (RemoveOrderFromBook err o st) (RemoveOrderFromBook err o st').
Proof.
  intros (Ho & Ht & Hb). unfold RemoveOrderFromBook. destruct err; [done|].
  unfold same_data. cbn. by rewrite Ho, Ht, Hb.
Qed.

Lemma same_data_locks held held' st st' :
  same_data st st' -> same_data (set_locks held st) (set_locks held' st').
Proof. by unfold same_data. Qed.

Lemma CancelOrder_same h e orderId userAddr signature st st' lockErr lockID unlockErr :
  same_data st st' ->
  (CancelOrder h e orderId userAddr signature st).2
  = (CancelOrder h (cancel_env_but_lock e lockErr lockID unlockErr)
       orderId userAddr signature st').2
  /\ same_data (CancelOrder h e orderId userAddr signature st).1
       (CancelOrder h (cancel_env_but_lock e lockErr lockID unlockErr)
          orderId userAddr signature st').1.
Proof.
  intros Hs. pose proof Hs as (Ho & Ht & Hb).
  unfold CancelOrder, GetOrderById, cancel_env_but_lock. cbv zeta.
  cbn [c_getErr c_lockErr c_lockID c_updateErr c_removeErr c_unlockErr].
  destruct (VerifySignature _ _ _ _); cbn [negb]; [|done].
  destruct (c_getErr e); [done|]. rewrite Ho.
  destruct (orders st' !! orderId) as [order|]; [|done].
  case_decide; [done|]. case_decide; [done|].
  destruct (Lock (c_lockErr e) _ _ (locks st)) as [held got].
  destruct (Lock lockErr _ _ (locks st')) as [held' got'].
  pose proof (UpdateOrder_same (c_updateErr e) (set_status OrderStatusCancelled order)
                (set_locks held st) (set_locks held' st')
                (same_data_locks held held' st st' Hs)) as (Hu1 & Hu2 & Hu3).
  destruct (UpdateOrder _ _ (set_locks held st)) as [[st1 o1] ok1].
  destruct (UpdateOrder _ _ (set_locks held' st')) as [[st1' o1'] ok1'].
  cbn [fst snd] in Hu1, Hu2, Hu3. subst o1' ok1'.
  destruct ok1; [|split; [done|by apply same_data_locks]].
  destruct (c_removeErr e); (split; [done|]); apply same_data_locks; [done|].
  by apply RemoveOrderFromBook_same.
Qed.

Lemma PlaceOrder_same h e nftId userAddr price quantity orderType signature st st'
    lockErr lockID unlockErr :
  same_data st st' ->
  (PlaceOrder h e nftId userAddr price quantity orderType signature st).2
  = (PlaceOrder h (place_env_but_lock e lockErr lockID unlockErr)
       nftId userAddr price quantity orderType signature st').2
  /\ same_data (PlaceOrder h e nftId userAddr price quantity orderType signature st).1
       (PlaceOrder h (place_env_but_lock e lockErr lockID unlockErr)
          nftId userAddr price quantity orderType signature st').1.
Proof.
  intros Hs. pose proof Hs as (Ho & Ht & Hb).
  unfold PlaceOrder, place_env_but_lock. cbv zeta.
  cbn [p_lockErr p_lockID p_now p_uuid p_createErr p_addErr p_deleteErr p_unlockErr].
  destruct (VerifySignature _ _ _ _); cbn [negb]; [|done].
  destruct (Lock (p_lockErr e) _ _ (locks st)) as [held got].
  destruct (Lock lockErr _ _ (locks st')) as [held' got'].
  unfold CreateOrder. cbn [ID BeforeCreate orders set_locks].
  destruct (p_createErr e); [split; [done|by apply same_data_locks]|].
  rewrite Ho.
  destruct (orders st' !! GenerateOrderId (p_now e) (p_uuid e));
    [split; [done|by apply same_data_locks]|].
  unfold AddOrderToBook, DeleteOrder.
  destruct (p_addErr e), (p_deleteErr e); cbn; unfold same_data; cbn;
    by rewrite ?Ho, ?Ht, ?Hb.
Qed.

(** Neither lock guards anything.  A failed [Lock] is only printed, so what
    [CancelOrder] and [PlaceOrder] return, and what they do to the order
    table, the trade table and the books, is the same whatever the lock table
    holds and whatever the lock and unlock calls answer: a lock held by
    someone else stops neither of them. *)
Theorem lock_never_blocks h st (held : gmap string string)
    (lockErr : bool) (lockID : string) (unlockErr : bool) :
  (forall e orderId userAddr signature,
     (CancelOrder h e orderId userAddr signature st).2
     = (CancelOrder h (cancel_env_but_lock e lockErr lockID unlockErr)
          orderId userAddr signature (set_locks held st)).2
     /\ same_data (CancelOrder h e orderId userAddr signature st).1
          (CancelOrder h (cancel_env_but_lock e lockErr lockID unlockErr)
             orderId userAddr signature (set_locks held st)).1)
  /\ (forall e nftId userAddr price quantity orderType signature,
        (PlaceOrder h e nftId userAddr price quantity orderType signature st).2
        = (PlaceOrder h (place_env_but_lock e lockErr lockID unlockErr)
             nftId userAddr price quantity orderType signature (set_locks held st)).2
        /\ same_data
             (PlaceOrder h e nftId userAddr price quantity orderType signature st).1
             (PlaceOrder h (place_env_but_lock e lockErr lockID unlockErr)
                nftId userAddr price quantity orderType signature (set_locks held st)).1).
Proof.
  split.
  - intros. by apply CancelOrder_same.
  - intros. by apply PlaceOrder_same.
Qed.

Lemma same_data_eq st st' : same_data st st' -> locks st = locks st' -> st = st'.
Proof. destruct st, st'. unfold same_data. cbn. by intros (-> & -> & ->) ->. Qed.

Lemma Lock_Unlock_restores lockErr lockID unlockErr key (held : gmap string string) :
  unlockErr = false -> held !! key <> Some "" ->
  (Unlock unlockErr key (default "" (Lock lockErr lockID key held).2)
          (Lock lockErr lockID key held).1).1 = held.
Proof.
  intros -> Hne. unfold Lock, Unlock.
  destruct lockErr; cbn; [by rewrite decide_False|].
  destruct (held !! key) eqn:Hk; cbn.
  - by rewrite Hk, decide_False by congruence.
  - rewrite lookup_insert_eq, decide_True by done. by rewrite delete_insert_id.
Qed.

(** Both functions leave the lock table as they found it, whether or not
    they got their lock and whatever else fails, provided the deferred
    [Unlock] itself does not fail (and the key is not held under the empty
    lock id, the one a failed [Lock] leaves them with). *)
Theorem lock_released h st :
  (forall e orderId userAddr signature,
     c_unlockErr e = false -> locks st !! ("lock:order:" +:+ orderId) <> Some "" ->
     locks (CancelOrder h e orderId userAddr signature st).1 = locks st)
  /\ (forall e nftId userAddr price quantity orderType signature,
        p_unlockErr e = false ->
        locks st !! ("lock:nft:" +:+ nftId +:+ ":user:" +:+ userAddr) <> Some "" ->
        locks (PlaceOrder h e nftId userAddr price quantity orderType signature st).1
        = locks st).
Proof.
  split.
  - intros e orderId userAddr signature Hu Hne.
    pose proof (Lock_Unlock_restores (c_lockErr e) (c_lockID e) (c_unlockErr e)
                  ("lock:order:" +:+ orderId) (locks st) Hu Hne) as Hr.
    unfold CancelOrder, GetOrderById. cbv zeta.
    destruct (negb _); [done|].
    destruct (c_getErr e); [done|].
    destruct (orders st !! orderId) as [order|]; [|done].
    case_decide; [done|]. case_decide; [done|].
    destruct (Lock _ _ _ _) as [held got]. cbn [fst snd] in Hr.
    match goal with
    | |- context [UpdateOrder ?er ?o ?s] =>
        pose proof (UpdateOrder_frame er o s) as [Hl _];
        destruct (UpdateOrder er o s) as [[st1 o1] ok1]
    end.
    cbn [fst snd locks set_locks] in *.
    destruct ok1; [destruct (c_removeErr e)|]; cbn [fst snd locks set_locks];
      rewrite ?RemoveOrderFromBook_locks, Hl; exact Hr.
  - intros e nftId userAddr price quantity orderType signature Hu Hne.
    pose proof (Lock_Unlock_restores (p_lockErr e) (p_lockID e) (p_unlockErr e)
                  ("lock:nft:" +:+ nftId +:+ ":user:" +:+ userAddr) (locks st) Hu Hne)
      as Hr.
    unfold PlaceOrder. cbv zeta.
    destruct (negb _); [done|].
    destruct (Lock _ _ _ _) as [held got]. cbn [fst snd] in Hr.
    unfold CreateOrder. cbn [ID BeforeCreate orders set_locks].
    destruct (p_createErr e); [exact Hr|].
    destruct (orders st !! _); [exact Hr|].
    unfold AddOrderToBook, DeleteOrder.
    destruct (p_addErr e), (p_deleteErr e); exact Hr.
Qed.

Lemma lock_released_witness :
  locks (CancelOrder (fun s => s) ok_cancel "1700000000000-aaaaaaaa" "0xSeller"
           "1700000000000-aa" failed_store).1 = locks failed_store
  /\ locks (PlaceOrder (fun s => s)
              (mkPlaceEnv false "lock-p" 1700000000000
                 "123e4567-e89b-12d3-a456-4266aaaaaaaa" false false false false)
              "nft1" "0xSeller" 50 4 OrderTypeSell "nft10xSeller504s" empty_state).1
     = locks empty_state.
Proof.
  split.
  - apply (proj1 (lock_released (fun s => s) failed_store) ok_cancel
             "1700000000000-aaaaaaaa" "0xSeller" "1700000000000-aa").
    + reflexivity.
    + vm_compute. discriminate.
  - apply (proj2 (lock_released (fun s => s) empty_state)
             (mkPlaceEnv false "lock-p" 1700000000000
                "123e4567-e89b-12d3-a456-4266aaaaaaaa" false false false false)
             "nft1" "0xSeller" 50 4 OrderTypeSell "nft10xSeller504s").
    + reflexivity.
    + vm_compute. discriminate.
Defined.

(** ** Further properties: settlement *)

Lemma ConsumeTradeMsg_answers_all_witness :
  length (ConsumeTradeMsg wire_Unmarshal
            (fun orderNo (w : Ledger) =>
               if String.eqb orderNo "order-1" then (w, HOk) else (w, HErr "unknown"))
            [PublishBody "order-1"; "junk"; PublishBody "order-2"] demo_ledger).2
  = 3%nat.
Proof.
  apply (ConsumeTradeMsg_answers_all wire_Unmarshal
           (fun orderNo (w : Ledger) =>
              if String.eqb orderNo "order-1" then (w, HOk) else (w, HErr "unknown"))
           [PublishBody "order-1"; "junk"; PublishBody "order-2"]).
  intros orderNo w. by destruct (String.eqb orderNo "order-1").
Defined.

(** What a call of [ExecuteTrade] can come to.  It returns nil only after a
    transfer call that returned a hash; the asset, lock and ledger tables
    change only in a call that returns nil; and a call that does not get to
    the chain returns an error and changes nothing at all. *)
Theorem ExecuteTrade_outcomes (cfg : Config) (e : ExecEnv) (orderNo : string) (w : Ledger) :
  ((ExecuteTrade cfg e orderNo w).2 = HOk ->
   exists order txHash,
     nft_orders w !! orderNo = Some order /\ x_transfer e = Some txHash
     /\ chain_calls (ExecuteTrade cfg e orderNo w).1
        = chain_calls w ++
            [mkChainCall (NFTOrder.SellerAddr order) (NFTOrder.BuyerAddr order)
                         (NFTOrder.TokenID order) (Some txHash)])
  /\ ((ExecuteTrade cfg e orderNo w).2 <> HOk ->
      nft_assets (ExecuteTrade cfg e orderNo w).1 = nft_assets w
      /\ nft_asset_locks (ExecuteTrade cfg e orderNo w).1 = nft_asset_locks w
      /\ nft_trade_records (ExecuteTrade cfg e orderNo w).1 = nft_trade_records w)
  /\ (chain_calls (ExecuteTrade cfg e orderNo w).1 = chain_calls w ->
      (ExecuteTrade cfg e orderNo w).1 = w
      /\ exists msg, (ExecuteTrade cfg e orderNo w).2 = HErr msg).
Proof.
  unfold ExecuteTrade.
  destruct (if x_orderErr e then None else nft_orders w !! orderNo) as [order|] eqn:Ho.
  2:{ split_and!; [done|done|]. intros _. split; [done|by eexists]. }
  assert (Hw : nft_orders w !! orderNo = Some order) by (by destruct (x_orderErr e)).
  destruct (if x_assetErr e then None else nft_assets w !! NFTOrder.NFTAssetID order)
    as [asset|].
  2:{ split_and!; [done|done|]. intros _. split; [done|by eexists]. }
  destruct (ChainRPCUrl cfg !! NFTOrder.ChainID order) as [rpcUrl|].
  2:{ split_and!; [done|done|]. intros _. split; [done|by eexists]. }
  destruct (x_dialErr e).
  { split_and!; [done|done|]. intros _. split; [done|by eexists]. }
  cbv zeta.
  assert (Hcc : forall c, chain_calls w ++ [c] <> chain_calls w).
  { intros c Hc. symmetry in Hc. by apply app_one_neq in Hc. }
  destruct (x_transfer e) as [txHash|].
  2:{ split_and!; [done| |].
      - intros _. by destruct (x_failedUpdateErr e).
      - intros Hc. exfalso. destruct (x_failedUpdateErr e); cbn in Hc; by apply Hcc in Hc. }
  destruct (platform_fee _ _) as [fee|].
  2:{ split_and!; [done|done|]. intros Hc. cbn in Hc. by apply Hcc in Hc. }
  repeat case_match; cbn [fst snd]; (split_and!;
    [ try done; intros _; by exists order, txHash
    | try done
    | intros Hc; cbn in Hc; by apply Hcc in Hc ]).
Qed.

Lemma ExecuteTrade_outcomes_witness :
  exists order txHash,
    nft_orders demo_ledger !! "order-1" = Some order
    /\ x_transfer (delivery 1 (Some "0xtx1")) = Some txHash
    /\ chain_calls (ExecuteTrade demo_cfg (delivery 1 (Some "0xtx1")) "order-1"
                      demo_ledger).1
       = chain_calls demo_ledger ++
           [mkChainCall (NFTOrder.SellerAddr order) (NFTOrder.BuyerAddr order)
                        (NFTOrder.TokenID order) (Some txHash)].
Proof.
  apply (proj1 (ExecuteTrade_outcomes demo_cfg (delivery 1 (Some "0xtx1")) "order-1"
                  demo_ledger)).
  vm_compute. reflexivity.
Defined.

(** A commit that fails goes unnoticed.  [ExecuteTrade] does not look at
    what [tx.Commit()] returns: when every step up to it succeeds and the
    commit fails, the transfer has been made on the chain, no table has
    changed (the order is not settled, the asset keeps its owner, the ledger
    has no row), and the call returns nil, so the consumer acknowledges the
    message and the broker drops it. *)
Theorem ExecuteTrade_commit_failure_acknowledged
    (json_Unmarshal : string -> option (gmap string string))
    (cfg : Config) (e : ExecEnv) (body : string) (w : Ledger)
    (msg : gmap string string) (orderNo : string)
    (order : NFTOrder.t) (asset : NFTAsset.t) (rpcUrl txHash fee : string) :
  json_Unmarshal body = Some msg -> msg !! "order_no" = Some orderNo ->
  x_orderErr e = false -> nft_orders w !! orderNo = Some order ->
  x_assetErr e = false -> nft_assets w !! NFTOrder.NFTAssetID order = Some asset ->
  ChainRPCUrl cfg !! NFTOrder.ChainID order = Some rpcUrl -> x_dialErr e = false ->
  x_transfer e = Some txHash ->
  platform_fee (PlatformFeeRate cfg) (NFTOrder.Price order) = Some fee ->
  x_txOrderErr e = false -> x_txLockErr e = false -> x_txAssetErr e = false ->
  x_txCreateErr e = false ->
  Forall (fun r => NFTTradeRecord.TradeNo r <> x_tradeNo e) (nft_trade_records w) ->
  x_commitErr e = true ->
  consume_delivery json_Unmarshal (ExecuteTrade cfg e) body w
  = (mkLedger (nft_orders w) (nft_assets w) (nft_asset_locks w) (nft_trade_records w)
              (chain_calls w ++
                 [mkChainCall (NFTOrder.SellerAddr order) (NFTOrder.BuyerAddr order)
                              (NFTOrder.TokenID order) (Some txHash)]),
     Some (Ack false)).
Proof.
  intros Hdec Hno He Ho Ha Has Hrpc Hd Htx Hfee H1 H2 H3 H4 Hfresh Hc.
  unfold consume_delivery, ExecuteTrade.
  rewrite Hdec, Hno, He, Ho, Ha, Has, Hrpc, Hd, Htx, Hfee, H1, H2, H3, H4, Hc.
  cbn [add_chain_call nft_trade_records orb].
  by rewrite (existsb_fresh _ _ Hfresh).
Qed.

Lemma ExecuteTrade_commit_failure_acknowledged_witness :
  consume_delivery wire_Unmarshal (ExecuteTrade demo_cfg (commit_fails 1 (Some "0xtx1")))
    (PublishBody "order-1") demo_ledger
  = (mkLedger (nft_orders demo_ledger) (nft_assets demo_ledger)
              (nft_asset_locks demo_ledger) (nft_trade_records demo_ledger)
              (chain_calls demo_ledger ++
                 [mkChainCall (NFTOrder.SellerAddr demo_order)
                              (NFTOrder.BuyerAddr demo_order)
                              (NFTOrder.TokenID demo_order) (Some "0xtx1")]),
     Some (Ack false)).
Proof.
  apply (ExecuteTrade_commit_failure_acknowledged wire_Unmarshal demo_cfg
           (commit_fails 1 (Some "0xtx1")) (PublishBody "order-1") demo_ledger
           {[ "order_no" := "order-1" ]} "order-1" demo_order demo_asset
           "https://rpc.sepolia.org" "0xtx1" "2");
    try (vm_compute; reflexivity).
  constructor.
Defined.

(** An order without a price stops the consumer.  For a stored order whose
    price is the empty string, [SetString] gives nil and the multiplication
    panics, after the transfer and before the function has registered its
    [recover]: nothing is written, the delivery is never answered, and
    neither is any delivery after it. *)
Theorem ExecuteTrade_empty_price_stops_consumer
    (json_Unmarshal : string -> option (gmap string string))
    (cfg : Config) (e : ExecEnv) (body : string) (rest : list string) (w : Ledger)
    (msg : gmap string string) (orderNo : string)
    (order : NFTOrder.t) (asset : NFTAsset.t) (rpcUrl txHash : string) :
  json_Unmarshal body = Some msg -> msg !! "order_no" = Some orderNo ->
  x_orderErr e = false -> nft_orders w !! orderNo = Some order ->
  x_assetErr e = false -> nft_assets w !! NFTOrder.NFTAssetID order = Some asset ->
  ChainRPCUrl cfg !! NFTOrder.ChainID order = Some rpcUrl -> x_dialErr e = false ->
  x_transfer e = Some txHash ->
  NFTOrder.Price order = "" ->
  (ExecuteTrade cfg e orderNo w).2 = HPanic
  /\ ConsumeTradeMsg json_Unmarshal (ExecuteTrade cfg e) (body :: rest) w
     = (mkLedger (nft_orders w) (nft_assets w) (nft_asset_locks w) (nft_trade_records w)
                 (chain_calls w ++
                    [mkChainCall (NFTOrder.SellerAddr order) (NFTOrder.BuyerAddr order)
                                 (NFTOrder.TokenID order) (Some txHash)]),
        []).
Proof.
  intros Hdec Hno He Ho Ha Has Hrpc Hd Htx Hp.
  assert (Hrun : ExecuteTrade cfg e orderNo w
                 = (mkLedger (nft_orders w) (nft_assets w) (nft_asset_locks w)
                             (nft_trade_records w)
                             (chain_calls w ++
                                [mkChainCall (NFTOrder.SellerAddr order)
                                   (NFTOrder.BuyerAddr order) (NFTOrder.TokenID order)
                                   (Some txHash)]),
                    HPanic)).
  { unfold ExecuteTrade. rewrite He, Ho, Ha, Has, Hrpc, Hd, Htx, Hp. reflexivity. }
  split; [by rewrite Hrun|].
  cbn [ConsumeTradeMsg]. unfold consume_delivery. by rewrite Hdec, Hno, Hrun.
Qed.

Lemma ExecuteTrade_empty_price_stops_consumer_witness :
  (ExecuteTrade demo_cfg (delivery 1 (Some "0xtx1")) "order-1" unpriced_ledger).2 = HPanic
  /\ ConsumeTradeMsg wire_Unmarshal (ExecuteTrade demo_cfg (delivery 1 (Some "0xtx1")))
       [PublishBody "order-1"; PublishBody "order-2"; "junk"] unpriced_ledger
     = (mkLedger (nft_orders unpriced_ledger) (nft_assets unpriced_ledger)
                 (nft_asset_locks unpriced_ledger) (nft_trade_records unpriced_ledger)
                 (chain_calls unpriced_ledger ++
                    [mkChainCall (NFTOrder.SellerAddr unpriced_order)
                                 (NFTOrder.BuyerAddr unpriced_order)
                                 (NFTOrder.TokenID unpriced_order) (Some "0xtx1")]),
        []).
Proof.
  apply (ExecuteTrade_empty_price_stops_consumer wire_Unmarshal demo_cfg
           (delivery 1 (Some "0xtx1")) (PublishBody "order-1")
           [PublishBody "order-2"; "junk"] unpriced_ledger
           {[ "order_no" := "order-1" ]} "order-1" unpriced_order demo_asset
           "https://rpc.sepolia.org" "0xtx1");
    vm_compute; reflexivity.
Defined.

(** A transfer that did not happen is settled all the same.  When the
    transaction is mined with receipt status 0 (it reverted), or when the
    token id is not a decimal number (nothing is sent), [SafeTransferFrom]
    returns the empty hash with a nil error.  [ExecuteTrade] only looks at
    the error: if its database steps go through it returns nil, marks the
    order settled, makes the buyer the owner of the asset and adds a ledger
    row whose transaction hash is empty. *)
Theorem SafeTransferFrom_failure_is_settled
    (t : TransferEnv) (privateKey : string)
    (cfg : Config) (e : ExecEnv) (orderNo : string) (w : Ledger)
    (order : NFTOrder.t) (asset : NFTAsset.t) (rpcUrl fee : string) :
  t_keyErr t = false -> t_authErr t = false ->
  Int_SetString_ok (NFTOrder.TokenID order) = false
  \/ (t_transactErr t = false /\ t_minedErr t = false /\ t_receiptStatus t = 0) ->
  x_transfer e = SafeTransferFrom t privateKey (NFTOrder.SellerAddr order)
                   (NFTOrder.BuyerAddr order) (NFTOrder.TokenID order) ->
  x_orderErr e = false -> nft_orders w !! orderNo = Some order ->
  x_assetErr e = false -> nft_assets w !! NFTOrder.NFTAssetID order = Some asset ->
  ChainRPCUrl cfg !! NFTOrder.ChainID order = Some rpcUrl -> x_dialErr e = false ->
  platform_fee (PlatformFeeRate cfg) (NFTOrder.Price order) = Some fee ->
  x_txOrderErr e = false -> x_txLockErr e = false -> x_txAssetErr e = false ->
  x_txCreateErr e = false -> x_commitErr e = false ->
  Forall (fun r => NFTTradeRecord.TradeNo r <> x_tradeNo e) (nft_trade_records w) ->
  SafeTransferFrom t privateKey (NFTOrder.SellerAddr order) (NFTOrder.BuyerAddr order)
    (NFTOrder.TokenID order) = Some ""
  /\ (ExecuteTrade cfg e orderNo w).2 = HOk
  /\ NFTOrder.Status <$> (nft_orders (ExecuteTrade cfg e orderNo w).1 !! orderNo) = Some 1
  /\ NFTAsset.OwnerAddr <$> (nft_assets (ExecuteTrade cfg e orderNo w).1 !! NFTAsset.ID asset)
     = Some (NFTOrder.BuyerAddr order)
  /\ (NFTTradeRecord.TxHash <$> nft_trade_records (ExecuteTrade cfg e orderNo w).1)
     = (NFTTradeRecord.TxHash <$> nft_trade_records w) ++ [""]
  /\ (NFTTradeRecord.OrderNo <$> nft_trade_records (ExecuteTrade cfg e orderNo w).1)
     = (NFTTradeRecord.OrderNo <$> nft_trade_records w) ++ [orderNo].
Proof.
  intros Hk Hau Hfail Htx He Ho Ha Has Hrpc Hd Hfee H1 H2 H3 H4 Hc Hfresh.
  assert (Hs : SafeTransferFrom t privateKey (NFTOrder.SellerAddr order)
                 (NFTOrder.BuyerAddr order) (NFTOrder.TokenID order) = Some "").
  { unfold SafeTransferFrom. rewrite Hk, Hau.
    destruct Hfail as [-> | (-> & -> & ->)]; [done|].
    by destruct (Int_SetString_ok _). }
  rewrite Hs in Htx. split; [exact Hs|].
  unfold ExecuteTrade.
  rewrite He, Ho, Ha, Has, Hrpc, Hd, Htx, Hfee, H1, H2, H3, H4, Hc.
  cbn [add_chain_call nft_trade_records orb].
  rewrite (existsb_fresh _ _ Hfresh). cbn.
  rewrite !lookup_insert_eq, !fmap_app. by split_and!.
Qed.

Lemma SafeTransferFrom_failure_is_settled_witness :
  let e := delivery 1 (SafeTransferFrom reverted "0xkey" "0xSeller" "0xBuyer" "42") in
  SafeTransferFrom reverted "0xkey" "0xSeller" "0xBuyer" "42" = Some ""
  /\ (ExecuteTrade demo_cfg e "order-1" demo_ledger).2 = HOk
  /\ NFTOrder.Status <$> (nft_orders (ExecuteTrade demo_cfg e "order-1" demo_ledger).1
                            !! "order-1") = Some 1
  /\ NFTAsset.OwnerAddr <$> (nft_assets (ExecuteTrade demo_cfg e "order-1" demo_ledger).1
                               !! 7) = Some "0xBuyer"
  /\ (NFTTradeRecord.TxHash <$>
        nft_trade_records (ExecuteTrade demo_cfg e "order-1" demo_ledger).1)
     = [] ++ [""]
  /\ (NFTTradeRecord.OrderNo <$>
        nft_trade_records (ExecuteTrade demo_cfg e "order-1" demo_ledger).1)
     = [] ++ ["order-1"].
Proof.
  intros e.
  apply (SafeTransferFrom_failure_is_settled reverted "0xkey" demo_cfg e "order-1"
           demo_ledger demo_order demo_asset "https://rpc.sepolia.org" "2");
    try (vm_compute; reflexivity).
  - right. by split_and!.
  - constructor.
Defined.
